(** * Calva: the document mirror (src/doc-mirror/index.ts) and the test
      report of the test runner (src/testRunner.ts).

    The development is a shallow embedding.  TypeScript values are modelled
    as follows.

    - [number] values that the code uses as offsets, lines, columns and
      counters are integers of [Z]; where the arithmetic of the source can
      leave NaN, a number is a [JsNumber];
    - a JavaScript string is a [string]; one character stands for one UTF-16
      code unit, so [String.length] is the [.length] of the source;
    - an optional field ([x?: T]) is an [option];
    - a [Map] keyed by object identity is a [gmap] keyed by the identity,
      and an object used as a map from property names is a [gmap] keyed
      by strings;
    - a function that may throw returns an [Exc]; a loop whose body may
      throw after it has had effects returns the state it reached
      together with the exception;
    - objects of the host editor (documents, editors) live in a heap that
      is part of the [Host] state, because the source keeps references to
      them across asynchronous calls;
    - what the source imports and does not define (the editor API, the
      [LineInputModel], the formatter) is an interface: a class whose
      methods are arbitrary, so that a theorem holds for every
      implementation.  Reference instances, modelled from the spec, are
      given after the embedding; they serve the examples and the
      statements that speak of the text an edit leaves. *)

From Stdlib Require Import ZArith Lia Bool.
From Stdlib Require Import Strings.String Strings.Ascii DecimalString DecimalZ.
From stdpp Require Import base option list functions gmap strings fin_maps.

Local Open Scope Z_scope.

(** ** Part I. Definitions *)

(** *** JavaScript strings *)

Definition CR : ascii := "013"%char.
Definition LF : ascii := "010"%char.

(** [text.replace(/\r\n/g, '\n')]: the global replace scans from the left;
    at a carriage return directly followed by a line feed it emits one
    line feed and resumes after the pair, otherwise it copies one
    character. *)
Fixpoint replace_crlf (s : string) : string :=
  match s with
  | EmptyString => EmptyString
  | String c rest =>
      match rest with
      | String c' rest' =>
          if Ascii.eqb c CR && Ascii.eqb c' LF
          then String LF (replace_crlf rest')
          else String c (replace_crlf rest)
      | EmptyString => String c EmptyString
      end
  end.

(** Number of carriage-return/line-feed pairs met by that scan. *)
Fixpoint count_crlf (s : string) : nat :=
  match s with
  | EmptyString => O
  | String c rest =>
      match rest with
      | String c' rest' =>
          if Ascii.eqb c CR && Ascii.eqb c' LF
          then S (count_crlf rest')
          else count_crlf rest
      | EmptyString => O
      end
  end.

(** *** Completion of JavaScript computations *)

Inductive JsError :=
| TypeError         (* a property read on [undefined], a call of what is no function *)
| IllegalArgument   (* the error of the editor API for an illegal argument *)
| Rejection.        (* a promise rejected by a collaborator *)

(** A synchronous computation returns or throws. *)
Inductive Exc (A : Type) : Type :=
| Normal (a : A)
| Throw (e : JsError).
Arguments Normal {A} a.
Arguments Throw {A} e.

#[global] Instance Exc_ret : MRet Exc := @Normal.
#[global] Instance Exc_bind : MBind Exc := λ A B k m,
  match m with
  | Normal a => k a
  | Throw e => Throw e
  end.

(** A promise, once settled, is fulfilled with a value or rejected. *)
Inductive Settled (A : Type) : Type :=
| Fulfilled (a : A)
| Rejected (e : JsError).
Arguments Fulfilled {A} a.
Arguments Rejected {A} e.

(** Truthiness of an optional boolean ([!!x], [!x]) and of an optional
    number ([x ? x : d]): [undefined], [false] and [0] are falsy. *)
Definition truthy (o : option bool) : bool := default false o.

Definition number_or (o : option Z) (d : Z) : Z :=
  match o with
  | Some n => if n =? 0 then d else n
  | None => d
  end.

(** *** Types of the editor API that the source uses (module [vscode]) *)

Abbreviation DocId := positive (only parsing).
Abbreviation EditorId := positive (only parsing).

Record Position := { line : Z; character : Z }.

(** [position.isBefore(other)]: an earlier line, or the same line and an
    earlier character. *)
Definition isBefore (p other : Position) : bool :=
  if line p <? line other then true
  else if line other <? line p then false
  else character p <? character other.

(** A [vscode.Range], with its [start] and [end]. *)
Record Range := { range_start : Position; range_end : Position }.

(** [new vscode.Range(start, end)]: the constructor of the editor API
    orders the two ends; when [start] is not before [end] it takes [end]
    for the start and [start] for the end. *)
Definition new_Range (start end_ : Position) : Range :=
  if isBefore start end_
  then {| range_start := start; range_end := end_ |}
  else {| range_start := end_; range_end := start |}.

(** [new vscode.Selection(anchor, active)]. *)
Record Selection := { sel_anchor : Position; sel_active : Position }.

Inductive EndOfLine := EndOfLine_LF | EndOfLine_CRLF.

Record TextDocument := {
  uri : string;
  languageId : string;
  getText : string;          (* [doc.getText()] *)
  eol : EndOfLine
}.

Record TextEditor := {
  editor_document : DocId;          (* [editor.document] *)
  editor_selection : Selection;     (* [editor.selection] *)
  editor_revealed : option Range    (* last argument of [editor.revealRange] *)
}.

(** The editor side of the world: [vscode.window.activeTextEditor] and the
    objects reachable from the references the source holds. *)
Record Host := {
  activeTextEditor : option EditorId;
  editors : EditorId → TextEditor;
  textDocuments : DocId → TextDocument
}.

(** The calls a [vscode.TextEditorEdit] builder receives, in call order. *)
Inductive BuilderCall :=
| builder_insert (location : Position) (value : string)
| builder_replace (location : Range) (value : string)
| builder_delete (location : Range).

Abbreviation TextEditorEdit := (list BuilderCall) (only parsing).

(** The options object of [editor.edit]. *)
Record EditStops := { edit_undoStopBefore : bool; edit_undoStopAfter : bool }.

(** [vscode.TextEdit.insert(position, text)] and a [vscode.WorkspaceEdit]
    as the list of its [set(uri, edits)] entries. *)
Inductive TextEdit := TextEdit_insert (position : Position) (newText : string).

Abbreviation WorkspaceEdit := (list (string * list TextEdit)) (only parsing).

Record TextDocumentContentChangeEvent := {
  change_range : Range;      (* [change.range] *)
  change_rangeOffset : Z;    (* [change.rangeOffset], the host's own offset *)
  change_rangeLength : Z;    (* [change.rangeLength] *)
  change_text : string       (* [change.text] *)
}.

Record TextDocumentChangeEvent := {
  event_document : DocId;
  contentChanges : list TextDocumentContentChangeEvent
}.

(** The asynchronous services of the editor.  Each takes the host state
    at the call and gives the state at the time its promise settles, so
    that whatever the editor or the user did in between is part of the
    answer. *)
Class HostAPI := {
  (** [document.positionAt(offset)] *)
  positionAt : TextDocument → Z → Position;
  (** [document.offsetAt(position)] *)
  offsetAt : TextDocument → Position → Z;
  (** [editor.edit(callback, options)], given the calls the callback made *)
  editor_edit : Host → EditorId → TextEditorEdit → EditStops → Host * Settled bool;
  (** [vscode.workspace.applyEdit(wsEdit)] *)
  applyEdit : Host → WorkspaceEdit → Host * Settled bool
}.

(** *** Types of ../cursor-doc/model *)

(** [new ModelEditSelection(anchor, active)]. *)
Record ModelEditSelection := { anchor : Z; active : Z }.

(** [ModelEditOptions]. *)
Record ModelEditOptions := {
  undoStopBefore : option bool;
  formatDepth : option Z;
  skipFormat : option bool;
  selection : option ModelEditSelection
}.

(** The options object [{}]. *)
Definition no_options : ModelEditOptions :=
  {| undoStopBefore := None; formatDepth := None;
     skipFormat := None; selection := None |}.

(** [new ModelEdit(editFn, args)]: one constructor for each [editFn] that
    [DocumentModel.edit] dispatches on, with the arguments its handler
    takes, and one for any other [editFn]. *)
Inductive ModelEdit :=
| ModelEdit_insertString (offset : Z) (text : string)
    (oldSelection newSelection : option (Z * Z))
| ModelEdit_changeRange (start end_ : Z) (text : string)
    (oldSelection newSelection : option (Z * Z))
| ModelEdit_deleteRange (offset count : Z)
    (oldSelection newSelection : option (Z * Z))
| ModelEdit_other.

(** The state of a [LineInputModel].  [lineEndingLength] is the
    constructor argument and the three repaint collections are the fields
    that index.ts assigns; [lines] and [editQueue] stand for the text the
    model owns and the edits it has been given and not yet flushed. *)
Record LineInputModel := {
  lineEndingLength : Z;
  lines : list string;
  editQueue : list ModelEdit;
  dirtyLines : list Z;
  insertedLines : gset Z;
  deletedLines : gset Z
}.

(** The methods of [LineInputModel] that index.ts calls. *)
Class LineInputModelAPI := {
  (** [new LineInputModel(lineEndingLength)] *)
  lim_new : Z → LineInputModel;
  (** [insertString(offset, text)] *)
  lim_insertString : LineInputModel → Z → string → LineInputModel;
  (** [edit(edits, options)] *)
  lim_edit : LineInputModel → list ModelEdit → ModelEditOptions → LineInputModel;
  (** [flushChanges()] *)
  lim_flushChanges : LineInputModel → LineInputModel;
  (** [getOffsetForLine(line)] *)
  lim_getOffsetForLine : LineInputModel → Z → Z
}.

(** *** Types of ../calva-fmt/src/format *)

(** The object [{ "format-depth": n }]. *)
Record FormatConfig := { format_depth : Z }.

Class FormatterAPI := {
  (** [formatter.formatPosition(editor, onType, extraConfig)] *)
  formatPosition : Host → EditorId → bool → FormatConfig → Host * Settled bool
}.

(** *** src/doc-mirror/index.ts *)

Record DocumentModel := { lineInputModel : LineInputModel }.

Record MirroredDocument := {
  document : DocId;
  model : DocumentModel;
  selectionStack : list ModelEditSelection
}.

(** The variables of the module: [documents] and [registered]. *)
Record Registry := {
  documents : gmap DocId MirroredDocument;
  registered : bool
}.

Section DocMirror.
Context {host : HostAPI} {lim : LineInputModelAPI} {fmt : FormatterAPI}.

(** [editor.document] for [editor = vscode.window.activeTextEditor]:
    the read throws when no editor is active. *)
Definition editorDocument (h : Host) (editor : option EditorId) : Exc TextDocument :=
  match editor with
  | Some e => Normal (textDocuments h (editor_document (editors h e)))
  | None => Throw TypeError
  end.

(** **** class DocumentModel *)

Definition insertEdit (h : Host) (builder : TextEditorEdit) (offset : Z)
    (text : string) (oldSelection newSelection : option (Z * Z))
  : Exc TextEditorEdit :=
  let editor := activeTextEditor h in
  document ← editorDocument h editor;
  mret (builder ++ [builder_insert (positionAt document offset) text]).

Definition replaceEdit (h : Host) (builder : TextEditorEdit) (start end_ : Z)
    (text : string) (oldSelection newSelection : option (Z * Z))
  : Exc TextEditorEdit :=
  let editor := activeTextEditor h in
  document ← editorDocument h editor;
  let range := new_Range (positionAt document start) (positionAt document end_) in
  mret (builder ++ [builder_replace range text]).

Definition deleteEdit (h : Host) (builder : TextEditorEdit) (offset count : Z)
    (oldSelection newSelection : option (Z * Z))
  : Exc TextEditorEdit :=
  let editor := activeTextEditor h in
  document ← editorDocument h editor;
  let range :=
    new_Range (positionAt document offset) (positionAt document (offset + count)) in
  mret (builder ++ [builder_delete range]).

(** The callback given to [editor.edit]: the loop over [modelEdits] with
    its [switch] on [editFn].  The editor runs it at once, in the host
    state [h] of the call. *)
Fixpoint edit_callback (h : Host) (modelEdits : list ModelEdit)
    (builder : TextEditorEdit) : Exc TextEditorEdit :=
  match modelEdits with
  | [] => mret builder
  | modelEdit :: rest =>
      builder' ←
        match modelEdit with
        | ModelEdit_insertString offset text oldSelection newSelection =>
            insertEdit h builder offset text oldSelection newSelection
        | ModelEdit_changeRange start end_ text oldSelection newSelection =>
            replaceEdit h builder start end_ text oldSelection newSelection
        | ModelEdit_deleteRange offset count oldSelection newSelection =>
            deleteEdit h builder offset count oldSelection newSelection
        | ModelEdit_other => mret builder
        end;
      edit_callback h rest builder'
  end.

(** [set selection] of [MirroredDocument]; it reads no field of the
    mirror, only the editor that is active when it runs. *)
Definition set_selection (selection : ModelEditSelection) (h : Host) : Exc Host :=
  match activeTextEditor h with
  | None => Throw TypeError
  | Some editor =>
      let document := textDocuments h (editor_document (editors h editor)) in
      let anchor := positionAt document (anchor selection) in
      let active := positionAt document (active selection) in
      let ed := editors h editor in
      mret {| activeTextEditor := activeTextEditor h;
              editors := <[editor :=
                {| editor_document := editor_document ed;
                   editor_selection := {| sel_anchor := anchor; sel_active := active |};
                   editor_revealed := Some (new_Range active active) |}]>
                (editors h);
              textDocuments := textDocuments h |}
  end.

(** Lines 36 to 38: [if (options.selection) this.document.selection =
    options.selection]. *)
Definition edit_then_selection (options : ModelEditOptions) (h1 : Host) : Exc Host :=
  match selection options with
  | Some s => set_selection s h1
  | None => mret h1
  end.

(** The function given to [.then] in [edit]; [editor] is the editor that
    was active when [edit] was called, [h1] the host state when the
    promise of [editor.edit] settles.  An exception in the function
    rejects the promise that [.then] returned. *)
Definition edit_then (options : ModelEditOptions) (editor : EditorId)
    (h1 : Host) (committed : Settled bool) : Host * Settled bool :=
  match committed with
  | Rejected e => (h1, Rejected e)
  | Fulfilled isFulfilled =>
      if isFulfilled then
        match edit_then_selection options h1 with
        | Throw e => (h1, Rejected e)
        | Normal h2 =>
            if negb (truthy (skipFormat options)) then
              formatPosition h2 editor false
                {| format_depth := number_or (formatDepth options) 1 |}
            else (h2, Fulfilled isFulfilled)
        end
      else (h1, Fulfilled isFulfilled)
  end.

(** [DocumentModel.edit]: [Throw] is an exception raised before a promise
    exists; [Normal (h', r)] is the promise returned, settled as [r] in
    host state [h']. *)
Definition edit (modelEdits : list ModelEdit) (options : ModelEditOptions)
    (h : Host) : Exc (Host * Settled bool) :=
  let editor := activeTextEditor h in
  let undoStopBefore := truthy (undoStopBefore options) in
  match editor with
  | None => Throw TypeError
  | Some editor =>
      builder ← edit_callback h modelEdits [];
      let '(h1, committed) :=
        editor_edit h editor builder
          {| edit_undoStopBefore := undoStopBefore;
             edit_undoStopAfter := false |} in
      mret (edit_then options editor h1 committed)
  end.

Definition getOffsetForLine (this : DocumentModel) (line : Z) : Z :=
  lim_getOffsetForLine (lineInputModel this) line.

(** **** class MirroredDocument *)

Definition selectionLeft (this : MirroredDocument) (h : Host) : Exc Z :=
  match activeTextEditor h with
  | None => Throw TypeError
  | Some editor =>
      mret (offsetAt (textDocuments h (document this))
              (sel_anchor (editor_selection (editors h editor))))
  end.

Definition selectionRight (this : MirroredDocument) (h : Host) : Exc Z :=
  match activeTextEditor h with
  | None => Throw TypeError
  | Some editor =>
      mret (offsetAt (textDocuments h (document this))
              (sel_active (editor_selection (editors h editor))))
  end.

(** [editor.selection = selection] on an editor object. *)
Definition assign_selection (editor : EditorId) (selection : Selection)
    (h : Host) : Host :=
  let ed := editors h editor in
  {| activeTextEditor := activeTextEditor h;
     editors := <[editor :=
       {| editor_document := editor_document ed;
          editor_selection := selection;
          editor_revealed := editor_revealed ed |}]> (editors h);
     textDocuments := textDocuments h |}.

(** [MirroredDocument.insertString]: the result is the host state once
    the promise of [applyEdit] has settled and its [.then] has run. *)
Definition insertString (this : MirroredDocument) (text : string) (h : Host)
  : Exc Host :=
  match activeTextEditor h with
  | None => Throw TypeError
  | Some editor =>
      let selection := editor_selection (editors h editor) in
      left ← selectionLeft this h;
      let edit :=
        TextEdit_insert (positionAt (textDocuments h (document this)) left) text in
      let wsEdit := [(uri (textDocuments h (document this)), [edit])] in
      let '(h1, applied) := applyEdit h wsEdit in
      match applied with
      | Fulfilled _v => mret (assign_selection editor selection h1)
      | Rejected _ => mret h1
      end
  end.

(** **** module functions *)

(** The three assignments that end [processChanges]. *)
Definition clear_dirtyLines (m : LineInputModel) : LineInputModel :=
  {| lineEndingLength := lineEndingLength m; lines := lines m;
     editQueue := editQueue m;
     dirtyLines := []; insertedLines := insertedLines m;
     deletedLines := deletedLines m |}.

Definition clear_insertedLines (m : LineInputModel) : LineInputModel :=
  {| lineEndingLength := lineEndingLength m; lines := lines m;
     editQueue := editQueue m;
     dirtyLines := dirtyLines m; insertedLines := ∅;
     deletedLines := deletedLines m |}.

Definition clear_deletedLines (m : LineInputModel) : LineInputModel :=
  {| lineEndingLength := lineEndingLength m; lines := lines m;
     editQueue := editQueue m;
     dirtyLines := dirtyLines m; insertedLines := insertedLines m;
     deletedLines := ∅ |}.

(** One turn of the loop of [processChanges]: the model edit built for
    [change] in model state [m], and its submission. *)
Definition change_edit (m : DocumentModel) (change : TextDocumentContentChangeEvent)
  : ModelEdit :=
  let myStartOffset :=
    getOffsetForLine m (line (range_start (change_range change)))
    + character (range_start (change_range change)) in
  let myEndOffset :=
    getOffsetForLine m (line (range_end (change_range change)))
    + character (range_end (change_range change)) in
  ModelEdit_changeRange myStartOffset myEndOffset
    (replace_crlf (change_text change)) None None.

Definition change_step (m : DocumentModel) (change : TextDocumentContentChangeEvent)
  : DocumentModel :=
  {| lineInputModel :=
       lim_edit (lineInputModel m) [change_edit m change] no_options |}.

(** The mirror object is shared with the registry, so what the function
    does to its model is written back under the document's key. *)
Definition processChanges (event : TextDocumentChangeEvent) (st : Registry)
  : Exc Registry :=
  match documents st !! event_document event with
  | None => Throw TypeError
  | Some mirror =>
      let model := fold_left change_step (contentChanges event) (model mirror) in
      let l := lim_flushChanges (lineInputModel model) in
      let l := clear_dirtyLines l in
      let l := clear_insertedLines l in
      let l := clear_deletedLines l in
      mret {| documents :=
                <[event_document event :=
                   {| document := document mirror;
                      model := {| lineInputModel := l |};
                      selectionStack := selectionStack mirror |}]> (documents st);
              registered := registered st |}
  end.

Definition getDocument (doc : DocId) (st : Registry) : option MirroredDocument :=
  documents st !! doc.

Definition getDocumentOffset (doc : DocId) (position : Position) (st : Registry)
  : Exc Z :=
  match getDocument doc st with
  | None => Throw TypeError
  | Some mirror =>
      mret (getOffsetForLine (model mirror) (line position) + character position)
  end.

(** [new MirroredDocument(doc)], with the [LineInputModel] that the
    field initialiser of [DocumentModel] creates. *)
Definition new_MirroredDocument (h : Host) (doc : DocId) : MirroredDocument :=
  {| document := doc;
     model := {| lineInputModel :=
       lim_new match eol (textDocuments h doc) with
               | EndOfLine_CRLF => 2
               | EndOfLine_LF => 1
               end |};
     selectionStack := [] |}.

(** [addDocument(doc)]; [doc] may be [undefined]. *)
Definition addDocument (doc : option DocId) (h : Host) (st : Registry)
  : bool * Registry :=
  match doc with
  | Some d =>
      if String.eqb (languageId (textDocuments h d)) "clojure" then
        if negb (bool_decide (is_Some (documents st !! d))) then
          let created := new_MirroredDocument h d in
          let seeded :=
            {| document := document created;
               model := {| lineInputModel :=
                 lim_insertString (lineInputModel (model created)) 0
                   (getText (textDocuments h d)) |};
               selectionStack := selectionStack created |} in
          (false, {| documents := <[d := seeded]> (documents st);
                     registered := registered st |})
        else (true, st)
      else (false, st)
  | None => (false, st)
  end.

(** The handler that [activate] gives to [onDidChangeTextDocument]. *)
Definition onDidChangeTextDocument (e : TextDocumentChangeEvent) (h : Host)
    (st : Registry) : Exc Registry :=
  let '(tracked, st') := addDocument (Some (event_document e)) h st in
  if tracked then processChanges e st' else mret st'.

(** The handler that [activate] gives to [onDidCloseTextDocument]. *)
Definition onDidCloseTextDocument (e : DocId) (h : Host) (st : Registry)
  : Registry :=
  if String.eqb (languageId (textDocuments h e)) "clojure" then
    {| documents := delete e (documents st); registered := registered st |}
  else st.

End DocMirror.

(** *** Reference collaborators

    The instances below give the interfaces a behaviour, for the examples
    and for the statements that speak of the resulting text. *)

(** **** Text as a string buffer *)

Fixpoint str_take (n : nat) (s : string) : string :=
  match n, s with
  | S n', String c s' => String c (str_take n' s')
  | _, _ => EmptyString
  end.

Fixpoint str_drop (n : nat) (s : string) : string :=
  match n, s with
  | S n', String _ s' => str_drop n' s'
  | _, _ => s
  end.

(** Replace the span from [from] up to [to] of [s] by [t]. *)
Definition splice (s : string) (from to : Z) (t : string) : string :=
  str_take (Z.to_nat from) s +:+ t +:+ str_drop (Z.to_nat to) s.

(** Modelled from the spec: the reference string buffer of section 8 and
    the three edits of section 4.3 on it.  Insert inserts [text] at
    [offset]; Replace replaces the span from [start] up to [end_] with
    [text]; Delete removes the span from [offset] up to [offset + count]. *)
Definition apply_to_buffer (s : string) (e : ModelEdit) : string :=
  match e with
  | ModelEdit_insertString offset text _ _ => splice s offset offset text
  | ModelEdit_changeRange start end_ text _ _ => splice s start end_ text
  | ModelEdit_deleteRange offset count _ _ => splice s offset (offset + count) ""
  | ModelEdit_other => s
  end.

(** Modelled from the spec: the offset/position conversion of the host
    buffer API (section 6).  Line and column of offset [n] in [s], lines
    ending at a line feed; an offset past the end is the position of the
    end. *)
Fixpoint position_of (s : string) (n : nat) : nat * nat :=
  match n, s with
  | S n', String ch s' =>
      let '(l, c) := position_of s' n' in
      if Ascii.eqb ch LF then (S l, c)
      else match l with
           | O => (O, S c)
           | S _ => (l, c)
           end
  | _, _ => (O, O)
  end.

(** Modelled from the spec: the position/offset conversion of the host
    buffer API (section 6).  Offset of line [l], column [c] in [s]; a
    column past the end of the line is the end of the line. *)
Fixpoint offset_of (s : string) (l c : nat) : nat :=
  match s with
  | EmptyString => O
  | String ch s' =>
      match l with
      | S l' => S (offset_of s' (if Ascii.eqb ch LF then l' else l) c)
      | O =>
          match c with
          | O => O
          | S c' => if Ascii.eqb ch LF then O else S (offset_of s' O c')
          end
      end
  end.

Definition ref_positionAt (doc : TextDocument) (offset : Z) : Position :=
  let '(l, c) := position_of (getText doc) (Z.to_nat offset) in
  {| line := Z.of_nat l; character := Z.of_nat c |}.

Definition ref_offsetAt (doc : TextDocument) (p : Position) : Z :=
  Z.of_nat (offset_of (getText doc) (Z.to_nat (line p)) (Z.to_nat (character p))).

(** **** A reference editor *)

Definition with_text (doc : TextDocument) (s : string) : TextDocument :=
  {| uri := uri doc; languageId := languageId doc; getText := s; eol := eol doc |}.

(** The span of a range in the document [doc0]: from the lesser to the
    greater of the offsets of its two ends. *)
Definition ref_span (doc0 : TextDocument) (r : Range) : Z * Z :=
  let a := ref_offsetAt doc0 (range_start r) in
  let b := ref_offsetAt doc0 (range_end r) in
  (Z.min a b, Z.max a b).

(** Modelled from the spec: one call of the scoped edit transaction
    (section 4.3) on the buffer [buf]; the positions are read in the
    document [doc0] as it was when the transaction was opened, and a
    range stands for the span between its two ends. *)
Definition ref_apply_call (doc0 : TextDocument) (buf : string) (c : BuilderCall)
  : string :=
  match c with
  | builder_insert p v =>
      splice buf (ref_offsetAt doc0 p) (ref_offsetAt doc0 p) v
  | builder_replace r v =>
      splice buf (fst (ref_span doc0 r)) (snd (ref_span doc0 r)) v
  | builder_delete r =>
      splice buf (fst (ref_span doc0 r)) (snd (ref_span doc0 r)) ""
  end.

(** Modelled from the spec: the scoped edit transaction of section 4.3,
    committing ([commits = true]) or failing as in section 7. *)
Definition ref_editor_edit (commits : bool) (h : Host) (editor : EditorId)
    (calls : list BuilderCall) (stops : EditStops) : Host * Settled bool :=
  if commits then
    let d := editor_document (editors h editor) in
    let doc0 := textDocuments h d in
    ({| activeTextEditor := activeTextEditor h;
        editors := editors h;
        textDocuments :=
          <[d := with_text doc0 (fold_left (ref_apply_call doc0) calls (getText doc0))]>
            (textDocuments h) |},
     Fulfilled true)
  else (h, Fulfilled false).

Definition ref_apply_TextEdit (doc0 : TextDocument) (buf : string) (e : TextEdit)
  : string :=
  match e with
  | TextEdit_insert p v => splice buf (ref_offsetAt doc0 p) (ref_offsetAt doc0 p) v
  end.

(** Modelled from the spec: workspace-edit application (section 6); the
    edits of an entry go to the documents of that entry's uri. *)
Definition ref_applyEdit (h : Host) (wsEdit : list (string * list TextEdit))
  : Host * Settled bool :=
  ({| activeTextEditor := activeTextEditor h;
      editors := editors h;
      textDocuments := λ d,
        let doc0 := textDocuments h d in
        with_text doc0
          (fold_left (λ buf entry,
             if String.eqb (fst entry) (uri doc0)
             then fold_left (ref_apply_TextEdit doc0) (snd entry) buf
             else buf) wsEdit (getText doc0)) |},
   Fulfilled true).

(** Modelled from the spec: the host buffer API of section 6 as section
    4.3 uses it.  The transaction applies the builder calls one after the
    other, each at the offset its position has in the document as it was
    before the transaction ("in list order against the same pre-edit
    coordinate space"), and resolves to [true]; with [commits = false] it
    is the failed commit of section 7: nothing is applied and the promise
    resolves to [false]. *)
Definition RefHost (commits : bool) : HostAPI :=
  {| positionAt := ref_positionAt;
     offsetAt := ref_offsetAt;
     editor_edit := ref_editor_edit commits;
     applyEdit := ref_applyEdit |}.

(** Modelled from the spec: the formatter of section 6, a promise of a
    boolean.  This one leaves the host as it is and resolves to [answer]. *)
Definition ConstFormatter (answer : bool) : FormatterAPI :=
  {| formatPosition := λ h _ _ _, (h, Fulfilled answer) |}.

(** **** A reference line model *)

Fixpoint split_lines (s : string) : list string :=
  match s with
  | EmptyString => [EmptyString]
  | String c s' =>
      if Ascii.eqb c LF then EmptyString :: split_lines s'
      else match split_lines s' with
           | l :: ls => String c l :: ls
           | [] => [String c EmptyString]
           end
  end.

Fixpoint join_lines (ls : list string) : string :=
  match ls with
  | [] => EmptyString
  | [l] => l
  | l :: ls' => l +:+ String LF (join_lines ls')
  end.

(** Modelled from the spec: offset-for-line of the Line/Offset Model of
    section 6.  A line starts after the lines before it, each followed by
    one terminator of [lineEndingLength] characters (for the lines "abc"
    and "def" with one newline, offsets 0 to 3 and 4 to 7). *)
Definition ref_getOffsetForLine (m : LineInputModel) (l : Z) : Z :=
  fold_left (λ acc s, acc + Z.of_nat (String.length s) + lineEndingLength m)
    (take (Z.to_nat l) (lines m)) 0.

Definition start_offset (e : ModelEdit) : Z :=
  match e with
  | ModelEdit_insertString offset _ _ _ => offset
  | ModelEdit_changeRange start _ _ _ _ => start
  | ModelEdit_deleteRange offset _ _ _ => offset
  | ModelEdit_other => 0
  end.

(** Modelled from the spec: one queued edit applied to the lines, with
    the repaint hints of section 4.2: the line of the edit becomes dirty,
    and is noted as inserted at or deleted at when the number of lines
    grows or shrinks. *)
Definition ref_apply_queued (m : LineInputModel) (e : ModelEdit) : LineInputModel :=
  let before := join_lines (lines m) in
  let after := split_lines (apply_to_buffer before e) in
  let l := Z.of_nat (fst (position_of before (Z.to_nat (start_offset e)))) in
  {| lineEndingLength := lineEndingLength m;
     lines := after;
     editQueue := editQueue m;
     dirtyLines := dirtyLines m ++ [l];
     insertedLines :=
       if (length (lines m) <? length after)%nat
       then {[l]} ∪ insertedLines m else insertedLines m;
     deletedLines :=
       if (length after <? length (lines m))%nat
       then {[l]} ∪ deletedLines m else deletedLines m |}.

(** Modelled from the spec: submit-edit-batch and flush-pending of
    section 6; a batch is queued, a flush applies the queue in order. *)
Definition ref_edit (m : LineInputModel) (edits : list ModelEdit)
    (options : ModelEditOptions) : LineInputModel :=
  {| lineEndingLength := lineEndingLength m; lines := lines m;
     editQueue := editQueue m ++ edits;
     dirtyLines := dirtyLines m; insertedLines := insertedLines m;
     deletedLines := deletedLines m |}.

Definition ref_flushChanges (m : LineInputModel) : LineInputModel :=
  let m' := fold_left ref_apply_queued (editQueue m) m in
  {| lineEndingLength := lineEndingLength m'; lines := lines m';
     editQueue := [];
     dirtyLines := dirtyLines m'; insertedLines := insertedLines m';
     deletedLines := deletedLines m' |}.

Definition ref_new (lineEndingLength : Z) : LineInputModel :=
  {| lineEndingLength := lineEndingLength; lines := [EmptyString];
     editQueue := []; dirtyLines := [];
     insertedLines := ∅; deletedLines := ∅ |}.

(** Modelled from the spec: the Line/Offset Model of sections 2 and 6.
    It owns the text as lines, queues the edits it is given and applies
    them on flush; seeding by insert-string-at-offset is applied at once. *)
Definition RefLineInputModel : LineInputModelAPI :=
  {| lim_new := ref_new;
     lim_insertString := λ m offset text,
       ref_flushChanges (ref_edit m [ModelEdit_insertString offset text None None] no_options);
     lim_edit := ref_edit;
     lim_flushChanges := ref_flushChanges;
     lim_getOffsetForLine := ref_getOffsetForLine |}.

(** *** Vocabulary of the statements *)

(** What one model edit asks of the builder, positions being read in the
    document [doc]: an insert at [offset], a replace of the range between
    the positions of [start] and [end_], a delete of the range between
    the positions of [offset] and [offset + count]; any other edit asks
    nothing. *)
Definition dispatched {host : HostAPI} (doc : TextDocument) (e : ModelEdit)
  : list BuilderCall :=
  match e with
  | ModelEdit_insertString offset text _ _ =>
      [builder_insert (positionAt doc offset) text]
  | ModelEdit_changeRange start end_ text _ _ =>
      [builder_replace (new_Range (positionAt doc start) (positionAt doc end_)) text]
  | ModelEdit_deleteRange offset count _ _ =>
      [builder_delete
         (new_Range (positionAt doc offset) (positionAt doc (offset + count)))]
  | ModelEdit_other => []
  end.

(** The offsets of an edit lie in a text of [len] characters. *)
Definition offsets_within (len : Z) (e : ModelEdit) : Prop :=
  match e with
  | ModelEdit_insertString offset _ _ _ => 0 <= offset <= len
  | ModelEdit_changeRange start end_ _ _ _ => 0 <= start <= len ∧ 0 <= end_ <= len
  | ModelEdit_deleteRange offset count _ _ =>
      0 <= offset <= len ∧ 0 <= offset + count <= len
  | ModelEdit_other => True
  end.

(** The span of an edit runs forward: [start] is not after [end_], and
    [count] is not negative. *)
Definition span_forward (e : ModelEdit) : Prop :=
  match e with
  | ModelEdit_changeRange start end_ _ _ _ => start <= end_
  | ModelEdit_deleteRange _ count _ _ => 0 <= count
  | _ => True
  end.

(** An edit with the two ends of its span in order: what the editor makes
    of the edit, since a range has its ends ordered. *)
Definition between_ends (e : ModelEdit) : ModelEdit :=
  match e with
  | ModelEdit_changeRange start end_ text oldSelection newSelection =>
      ModelEdit_changeRange (Z.min start end_) (Z.max start end_) text
        oldSelection newSelection
  | ModelEdit_deleteRange offset count oldSelection newSelection =>
      ModelEdit_deleteRange (Z.min offset (offset + count)) (Z.abs count)
        oldSelection newSelection
  | _ => e
  end.

(** An edit without its [oldSelection] and [newSelection]. *)
Definition forget_selections (e : ModelEdit) : ModelEdit :=
  match e with
  | ModelEdit_insertString offset text _ _ =>
      ModelEdit_insertString offset text None None
  | ModelEdit_changeRange start end_ text _ _ =>
      ModelEdit_changeRange start end_ text None None
  | ModelEdit_deleteRange offset count _ _ =>
      ModelEdit_deleteRange offset count None None
  | ModelEdit_other => ModelEdit_other
  end.

(** A change without the offset and length that the host computed. *)
Definition forget_host_offsets (c : TextDocumentContentChangeEvent)
  : TextDocumentContentChangeEvent :=
  {| change_range := change_range c; change_rangeOffset := 0;
     change_rangeLength := 0; change_text := change_text c |}.

(** Submission of one model edit to the line model of [m], as the loop of
    [processChanges] does it. *)
Definition submit {lim : LineInputModelAPI} (m : DocumentModel) (e : ModelEdit)
  : DocumentModel :=
  {| lineInputModel := lim_edit (lineInputModel m) [e] no_options |}.

(** What [processChanges] does after its loop: flush, clear the three
    repaint collections, and leave the model in the mirror of [doc]. *)
Definition flushed_and_cleared {lim : LineInputModelAPI} (st : Registry)
    (doc : DocId) (mirror : MirroredDocument) (m : DocumentModel) : Registry :=
  {| documents :=
       <[doc := {| document := document mirror;
                   model := {| lineInputModel :=
                     clear_deletedLines (clear_insertedLines (clear_dirtyLines
                       (lim_flushChanges (lineInputModel m)))) |};
                   selectionStack := selectionStack mirror |}]> (documents st);
     registered := registered st |}.

(** [addDocument(doc)] called once in each of the host states [hs], one
    call after the other: the answers in call order and the registry
    after the last call. *)
Definition addDocument_each {lim : LineInputModelAPI} (d : DocId)
    (hs : list Host) (st : Registry) : list bool * Registry :=
  fold_left (λ acc h, let '(answers, s) := acc in
                      let '(b, s') := addDocument (Some d) h s in
                      (answers ++ [b], s')) hs ([], st).

(** The two edges of a selection in a document, as offsets: the left edge
    is the lesser of the offsets of its anchor and its active end, the
    right edge the greater. *)
Definition left_edge {host : HostAPI} (doc : TextDocument) (s : Selection) : Z :=
  Z.min (offsetAt doc (sel_anchor s)) (offsetAt doc (sel_active s)).

Definition right_edge {host : HostAPI} (doc : TextDocument) (s : Selection) : Z :=
  Z.max (offsetAt doc (sel_anchor s)) (offsetAt doc (sel_active s)).

(** The settled result of a promise-returning call, if it returned one. *)
Definition settled_as {A} (r : Exc (Host * Settled A)) : option (Settled A) :=
  match r with
  | Normal (_, s) => Some s
  | Throw _ => None
  end.

(** The text of document [d] when the promise has settled. *)
Definition text_after {A} (d : DocId) (r : Exc (Host * Settled A)) : option string :=
  match r with
  | Normal (h, _) => Some (getText (textDocuments h d))
  | Throw _ => None
  end.

(** Modelled from the spec: a formatter (section 6, a promise of a
    boolean) that resolves to whether the format depth it was given is
    [d], and leaves the host as it is. *)
Definition DepthProbe (d : Z) : FormatterAPI :=
  {| formatPosition := λ h _ _ config, (h, Fulfilled (format_depth config =? d)) |}.

(** *** Values for the examples *)

Definition demo_document (uri languageId text : string) : TextDocument :=
  {| uri := uri; languageId := languageId;
     getText := text; eol := EndOfLine_LF |}.

(** Editor 7 shows document 1 with the selection from column 1 to column 3
    of line 0, made forward; document 2 is a plain-text document. *)
Definition demo_host (text : string) : Host :=
  {| activeTextEditor := Some 7%positive;
     editors := λ _,
       {| editor_document := 1%positive;
          editor_selection :=
            {| sel_anchor := {| line := 0; character := 1 |};
               sel_active := {| line := 0; character := 3 |} |};
          editor_revealed := None |};
     textDocuments := λ d,
       if decide (d = 2%positive)
       then demo_document "file:///notes.txt" "plaintext" text
       else demo_document "file:///core.clj" "clojure" text |}.

(** The same with the selection made backward: the anchor at column 3,
    the active end at column 1. *)
Definition demo_host_backward (text : string) : Host :=
  {| activeTextEditor := Some 7%positive;
     editors := λ _,
       {| editor_document := 1%positive;
          editor_selection :=
            {| sel_anchor := {| line := 0; character := 3 |};
               sel_active := {| line := 0; character := 1 |} |};
          editor_revealed := None |};
     textDocuments := λ d,
       if decide (d = 2%positive)
       then demo_document "file:///notes.txt" "plaintext" text
       else demo_document "file:///core.clj" "clojure" text |}.

(** A line model holding the lines "abc" and "def" of an LF document,
    with repaint hints left over. *)
Definition demo_model : DocumentModel :=
  {| lineInputModel :=
       {| lineEndingLength := 1; lines := ["abc"; "def"]%string;
          editQueue := []; dirtyLines := [3];
          insertedLines := {[1]}; deletedLines := {[2]} |} |}.

Definition demo_registry : Registry :=
  {| documents :=
       {[ 1%positive := {| document := 1%positive; model := demo_model;
                           selectionStack := [] |} ]};
     registered := true |}.

Definition demo_change (l1 c1 l2 c2 : Z) (text : string)
  : TextDocumentContentChangeEvent :=
  {| change_range :=
       {| range_start := {| line := l1; character := c1 |};
          range_end := {| line := l2; character := c2 |} |};
     change_rangeOffset := c1; change_rangeLength := c2 - c1;
     change_text := text |}.

(** *** src/doc-mirror/index.ts, the rest of the module *)

Section DocMirrorLifecycle.
Context {host : HostAPI} {lim : LineInputModelAPI}.

(** [get selection] of [MirroredDocument]:
    [new ModelEditSelection(this.selectionLeft, this.selectionRight)]. *)
Definition get_selection (this : MirroredDocument) (h : Host)
  : Exc ModelEditSelection :=
  left ← selectionLeft this h;
  right ← selectionRight this h;
  mret {| anchor := left; active := right |}.

(** The handler that [activate] gives to [onDidChangeActiveTextEditor];
    [e] may be [undefined]. *)
Definition onDidChangeActiveTextEditor (e : option EditorId) (h : Host)
    (st : Registry) : Registry :=
  match e with
  | Some editor =>
      let d := editor_document (editors h editor) in
      if String.eqb (languageId (textDocuments h d)) "clojure"
      then snd (addDocument (Some d) h st)
      else st
  | None => st
  end.

(** The handler that [activate] gives to [onDidOpenTextDocument]. *)
Definition onDidOpenTextDocument (doc : DocId) (h : Host) (st : Registry)
  : Registry :=
  snd (addDocument (Some doc) h st).

End DocMirrorLifecycle.

(** The four subscriptions of [activate], each named after the event
    whose handler it carries. *)
Inductive Listener :=
| listener_close
| listener_activeEditor
| listener_open
| listener_change.

(** The module together with what it has subscribed at the editor. *)
Record Extension := {
  ext_registry : Registry;
  ext_listeners : list Listener
}.

(** The events of the editor that the module subscribes to. *)
Inductive HostEvent :=
| DidCloseTextDocument (e : DocId)
| DidChangeActiveTextEditor (e : option EditorId)
| DidOpenTextDocument (doc : DocId)
| DidChangeTextDocument (e : TextDocumentChangeEvent).

Section DocMirrorActivation.
Context {host : HostAPI} {lim : LineInputModelAPI}.

(** [utilities.getDocument({})], a function of ../utilities: the document
    it answers in a host state, [None] for none. *)
Variable util_getDocument : Host → option DocId.

(** [activate()]. *)
Definition activate (h : Host) (ext : Extension) : Extension :=
  if registered (ext_registry ext) then ext
  else
    let st := {| documents := documents (ext_registry ext); registered := true |} in
    let st := snd (addDocument (util_getDocument h) h st) in
    {| ext_registry := st;
       ext_listeners :=
         ext_listeners ext
         ++ [listener_close; listener_activeEditor; listener_open; listener_change] |}.

End DocMirrorActivation.

Section DocMirrorEvents.
Context {host : HostAPI} {lim : LineInputModelAPI}.

(** The handler of the module for an event. *)
Definition handle (ev : HostEvent) (h : Host) (st : Registry) : Exc Registry :=
  match ev with
  | DidCloseTextDocument e => mret (onDidCloseTextDocument e h st)
  | DidChangeActiveTextEditor e => mret (onDidChangeActiveTextEditor e h st)
  | DidOpenTextDocument doc => mret (onDidOpenTextDocument doc h st)
  | DidChangeTextDocument e => onDidChangeTextDocument e h st
  end.

Definition listens (l : Listener) (ev : HostEvent) : bool :=
  match l, ev with
  | listener_close, DidCloseTextDocument _ => true
  | listener_activeEditor, DidChangeActiveTextEditor _ => true
  | listener_open, DidOpenTextDocument _ => true
  | listener_change, DidChangeTextDocument _ => true
  | _, _ => false
  end.

(** Modelled from the spec: event delivery by the host (section 5, events
    are delivered serially, in arrival order).  An event goes to every
    subscription made for it, one after the other, each running the
    handler on the state the one before left. *)
Fixpoint deliver_to (ls : list Listener) (ev : HostEvent) (h : Host)
    (st : Registry) : Exc Registry :=
  match ls with
  | [] => mret st
  | l :: ls' =>
      st' ← (if listens l ev then handle ev h st else mret st);
      deliver_to ls' ev h st'
  end.

Definition deliver (ev : HostEvent) (h : Host) (ext : Extension) : Exc Extension :=
  st ← deliver_to (ext_listeners ext) ev h (ext_registry ext);
  mret {| ext_registry := st; ext_listeners := ext_listeners ext |}.

(** Modelled from the spec: a session of the editor, the events in
    arrival order, each with the host state in which it is delivered. *)
Fixpoint deliver_all (events : list (Host * HostEvent)) (ext : Extension)
  : Exc Extension :=
  match events with
  | [] => mret ext
  | (h, ev) :: rest =>
      ext' ← deliver ev h ext;
      deliver_all rest ext'
  end.

End DocMirrorEvents.

(** Every mirror is registered under the document it mirrors. *)
Definition mirrors_keyed (st : Registry) : Prop :=
  ∀ d mirror, documents st !! d = Some mirror → document mirror = d.

(** An edit that [DocumentModel.edit] dispatches on. *)
Definition is_known_edit (e : ModelEdit) : bool :=
  match e with
  | ModelEdit_other => false
  | _ => true
  end.

(** An extension before its first activation. *)
Definition demo_extension : Extension :=
  {| ext_registry := {| documents := ∅; registered := false |};
     ext_listeners := [] |}.

(** Modelled from the spec: [utilities.getDocument({})], of ../utilities,
    which is not under src/.  The spec does not describe it and the
    theorems take it as a parameter; for the examples it answers the
    document of the active editor. *)
Definition activeDocument (h : Host) : option DocId :=
  match activeTextEditor h with
  | Some editor => Some (editor_document (editors h editor))
  | None => None
  end.

(** *** src/testRunner.ts *)

(** **** JavaScript values of the test runner *)

(** [s.replace(/\r?\n$/, "")]: the replace takes the leftmost place where
    the pattern matches, and the pattern matches at a place when what is
    left of the string from there is a line feed, or a carriage return
    and a line feed. *)
Fixpoint strip_final_newline (s : string) : string :=
  match s with
  | EmptyString => EmptyString
  | String c rest =>
      if (Ascii.eqb c CR && String.eqb rest (String LF EmptyString))
         || (Ascii.eqb c LF && String.eqb rest EmptyString)
      then EmptyString
      else String c (strip_final_newline rest)
  end.

(** [s.endsWith(suffix)] and [s.startsWith(prefix)]. *)
Definition endsWith (s suffix : string) : bool :=
  (String.length suffix <=? String.length s)%nat
  && String.eqb (str_drop (String.length s - String.length suffix) s) suffix.

Definition startsWith (s prefix : string) : bool := String.prefix prefix s.

(** Truthiness of an optional string: [undefined] and [""] are falsy. *)
Definition truthy_string (o : option string) : bool :=
  match o with
  | Some s => negb (String.eqb s "")
  | None => false
  end.

(** The values that the fields of a test result hold: a string, a number,
    or nothing (what the decoded answers of the REPL are made of, lists
    and dictionaries apart, which no field read here holds). *)
Inductive JsVal :=
| js_undefined
| js_string (s : string)
| js_number (n : Z).

(** A number as the arithmetic of the source leaves it: an integer, or
    NaN, which [undefined + n] and [undefined - 1] give. *)
Inductive JsNumber :=
| js_int (n : Z)
| js_NaN.

(** [a + b] on numbers. *)
Definition js_plus (a b : JsNumber) : JsNumber :=
  match a, b with
  | js_int x, js_int y => js_int (x + y)
  | _, _ => js_NaN
  end.

(** [a < b], [n > 0] and [n < 0]; a comparison with NaN is false. *)
Definition js_lt (a b : JsNumber) : bool :=
  match a, b with
  | js_int x, js_int y => x <? y
  | _, _ => false
  end.

Definition js_positive (n : JsNumber) : bool := js_lt (js_int 0) n.

Definition js_negative (n : JsNumber) : bool := js_lt n (js_int 0).

(** A number in a template or a concatenation: decimal digits, with a
    sign when negative (numbers below 10^21 in size). *)
Definition Z_to_string (n : Z) : string := NilEmpty.string_of_int (Z.to_int n).

Definition number_to_string (n : JsNumber) : string :=
  match n with
  | js_int z => Z_to_string z
  | js_NaN => "NaN"
  end.

(** A value in a template, a concatenation or an array [join], and as a
    property key. *)
Definition js_to_string (v : JsVal) : string :=
  match v with
  | js_undefined => "undefined"
  | js_string s => s
  | js_number n => Z_to_string n
  end.

(** A value as a condition. *)
Definition js_truthy (v : JsVal) : bool :=
  match v with
  | js_undefined => false
  | js_string s => negb (String.eqb s "")
  | js_number n => negb (n =? 0)
  end.

(** [v === s] and [v !== s] for a string literal [s]. *)
Definition js_is (v : JsVal) (s : string) : bool :=
  match v with
  | js_string t => String.eqb t s
  | _ => false
  end.

(** [array.join(separator)] on strings. *)
Fixpoint js_join (separator : string) (l : list string) : string :=
  match l with
  | [] => EmptyString
  | [x] => x
  | x :: rest => x +:+ separator +:+ js_join separator rest
  end.

(** The names of the members of [Object.prototype].  Read on an object
    literal that has no own property of that name, each gives the
    inherited member: a function, or the prototype itself for
    [__proto__]; none of them is falsy and none has a [push]. *)
Definition Object_prototype_names : list string :=
  ["constructor"; "__defineGetter__"; "__defineSetter__"; "hasOwnProperty";
   "__lookupGetter__"; "__lookupSetter__"; "isPrototypeOf";
   "propertyIsEnumerable"; "toString"; "valueOf"; "__proto__";
   "toLocaleString"]%string.

(** **** lodash *)

(** [_.isEmpty(v)]: lodash takes a string without characters, a number
    and [undefined] for empty. *)
Definition lodash_isEmpty (v : JsVal) : bool :=
  match v with
  | js_string s => String.eqb s ""
  | _ => true
  end.

Definition MAX_SAFE_INTEGER : Z := 9007199254740991.

(** lodash's [isArrayLike] on an object whose properties are integers:
    the object is array-like when it has a [length] from 0 to
    [MAX_SAFE_INTEGER], and this is then the length [_.each] goes by. *)
Definition array_like_length (object : gmap string Z) : option Z :=
  match object !! "length"%string with
  | Some n => if (0 <=? n) && (n <=? MAX_SAFE_INTEGER) then Some n else None
  | None => None
  end.

(** The property key of the array index [i]. *)
Definition index_key (i : nat) : string := Z_to_string (Z.of_nat i).

(** **** The data of a test run *)

(** [result.summary]: [null], absent, or an object whose properties are
    integers (the counters that the test operation of the REPL answers). *)
Inductive JsSummary :=
| summary_null
| summary_undefined
| summary_object (counters : gmap string Z).

(** One assertion [a] of a test: the fields that [reportTests] reads.
    [line] is a number or absent. *)
Record Assertion := {
  assertion_type : JsVal;
  assertion_line : option Z;
  assertion_file : JsVal;
  assertion_context : JsVal;
  assertion_message : JsVal;
  assertion_expected : JsVal;
  assertion_actual : JsVal;
  assertion_error : JsVal
}.

(** One element of [results]: [result.results] as the lists of its keys,
    in the order of the [for ... in] loops, and [result.summary]. *)
Record TestResult := {
  result_results : list (string * list (string * list Assertion));
  summary : JsSummary
}.

(** The argument [results]: an array that may carry [err] and [ex]. *)
Record TestResults := {
  err : option string;
  ex : option string;
  result_items : list TestResult
}.

(** **** The editor API that [reportTests] uses *)

(** [vscode.DiagnosticSeverity]. *)
Inductive DiagnosticSeverity := Severity_Error | Severity_Warning.

(** A [vscode.Range] made of four numbers. *)
Record NumberRange := {
  startLine : JsNumber;
  startCharacter : JsNumber;
  endLine : JsNumber;
  endCharacter : JsNumber
}.

(** [new vscode.Range(startLine, startCharacter, endLine, endCharacter)]:
    the constructor makes the position of each end, which throws when the
    line or the character is negative (NaN is not), and orders the two
    ends as [new_Range] does. *)
Definition new_Range_of_numbers
    (startLine startCharacter endLine endCharacter : JsNumber) : Exc NumberRange :=
  if js_negative startLine || js_negative startCharacter then Throw IllegalArgument
  else if js_negative endLine || js_negative endCharacter then Throw IllegalArgument
  else
    let before :=
      if js_lt startLine endLine then true
      else if js_lt endLine startLine then false
      else js_lt startCharacter endCharacter in
    if before
    then mret {| startLine := startLine; startCharacter := startCharacter;
                 endLine := endLine; endCharacter := endCharacter |}
    else mret {| startLine := endLine; startCharacter := endCharacter;
                 endLine := startLine; endCharacter := startCharacter |}.

(** [new vscode.Diagnostic(range, message, severity)]; the constructor
    throws for an empty message, which the source never gives. *)
Record Diagnostic := {
  diagnostic_range : NumberRange;
  diagnostic_message : string;
  diagnostic_severity : DiagnosticSeverity
}.

(** **** [reportTests] *)

(** What a call of [reportTests] does and how it ends, the collection
    having been cleared first.  [report_logged]: the reasons given to
    [util.logError]; [report_appended]: the lines given to
    [outputWindow.append], in call order.  [report_set]: the calls
    [diagnosticCollection.set(vscode.Uri.file(fileName), errors)], as the
    map from [fileName] to [errors]; [report_findFiles]: the searches
    [vscode.workspace.findFiles('**/' + fileName)] begun, as the map from
    [fileName] to the [errors] that the search, once resolved, sets for
    the first file found.  Each name is the subject of one call at most;
    the order of the calls is left out.  [report_total_summary]: the
    variable [total_summary] when the call ends.  [report_thrown]: the
    exception that ends the call, [None] when it returns. *)
Record Report := {
  report_logged : list string;
  report_appended : list string;
  report_set : gmap string (list Diagnostic);
  report_findFiles : gmap string (list Diagnostic);
  report_total_summary : gmap string JsNumber;
  report_thrown : option JsError
}.

(** The variables that the loops work on: the lines appended so far, the
    object [diagnostics] and [total_summary]. *)
Record LoopState := {
  loop_appended : list string;
  loop_diagnostics : gmap string (list Diagnostic);
  loop_total_summary : gmap string JsNumber
}.

(** A loop over [items] whose body may throw: the state when the loop
    ends, and the exception that ended it, if one did. *)
Fixpoint for_each {A : Type} (body : A → LoopState → LoopState * option JsError)
    (items : list A) (out : LoopState) : LoopState * option JsError :=
  match items with
  | [] => (out, None)
  | item :: rest =>
      match body item out with
      | (out', None) => for_each body rest out'
      | (out', Some e) => (out', Some e)
      end
  end.

Definition append_line (line : string) (out : LoopState) : LoopState :=
  {| loop_appended := loop_appended out ++ [line];
     loop_diagnostics := loop_diagnostics out;
     loop_total_summary := loop_total_summary out |}.

(** [{ test: 0, error: 0, ns: 0, var: 0, fail: 0 }] *)
Definition initial_total_summary : gmap string JsNumber :=
  <["test" := js_int 0]> (<["error" := js_int 0]> (<["ns" := js_int 0]>
    (<["var" := js_int 0]> (<["fail" := js_int 0]> ∅)))).

(** Lines 27 to 31: every string property of [a] loses its final line
    terminator. *)
Definition strip_value (v : JsVal) : JsVal :=
  match v with
  | js_string s => js_string (strip_final_newline s)
  | _ => v
  end.

Definition strip_assertion (a : Assertion) : Assertion :=
  {| assertion_type := strip_value (assertion_type a);
     assertion_line := assertion_line a;
     assertion_file := strip_value (assertion_file a);
     assertion_context := strip_value (assertion_context a);
     assertion_message := strip_value (assertion_message a);
     assertion_expected := strip_value (assertion_expected a);
     assertion_actual := strip_value (assertion_actual a);
     assertion_error := strip_value (assertion_error a) |}.

(** [resultMessage], lines 32 to 39. *)
Definition resultMessage (resultItem : Assertion) : string :=
  let msg := [] in
  let msg :=
    if negb (lodash_isEmpty (assertion_context resultItem))
       && negb (js_is (assertion_context resultItem) "false")
    then msg ++ [assertion_context resultItem] else msg in
  let msg :=
    if js_truthy (assertion_message resultItem)
    then msg ++ [assertion_message resultItem] else msg in
  if (0 <? length msg)%nat
  then strip_final_newline (js_join ": " (map js_to_string msg))
  else EmptyString.

(** [a.line] in a template, and [a.line - 1]. *)
Definition line_to_string (a : Assertion) : string :=
  match assertion_line a with
  | Some n => Z_to_string n
  | None => "undefined"
  end.

Definition line_minus_one (a : Assertion) : JsNumber :=
  match assertion_line a with
  | Some n => js_int (n - 1)
  | None => js_NaN
  end.

(** The message of line 50. *)
Definition fail_message (test : string) (a : Assertion) : string :=
  "failure in test: " +:+ test +:+ " context: "
  +:+ js_to_string (assertion_context a) +:+ ", expected "
  +:+ js_to_string (assertion_expected a) +:+ ", got: "
  +:+ js_to_string (assertion_actual a).

(** The diagnostic of lines 50 and 51. *)
Definition fail_diagnostic (test : string) (a : Assertion) : Exc Diagnostic :=
  let msg := fail_message test a in
  range ← new_Range_of_numbers (line_minus_one a) (js_int 0)
             (line_minus_one a) (js_int 1000);
  mret {| diagnostic_range := range;
          diagnostic_message := msg;
          diagnostic_severity := Severity_Error |}.

(** Lines 52 to 54: [if (!diagnostics[key]) diagnostics[key] = [];
    diagnostics[key].push(err)].  Under the name of a member of
    [Object.prototype] the read gives that member, and the call of its
    [push] throws. *)
Definition diagnostics_push (key : string) (err : Diagnostic)
    (diagnostics : gmap string (list Diagnostic))
  : Exc (gmap string (list Diagnostic)) :=
  if bool_decide (key ∈ Object_prototype_names) then Throw TypeError
  else mret (<[key := default [] (diagnostics !! key) ++ [err]]> diagnostics).

(** The body of the innermost loop, lines 27 to 62, for the assertion
    [a0] of the test [test] of the namespace [ns]. *)
Definition report_assertion (log : bool) (ns test : string) (a0 : Assertion)
    (out : LoopState) : LoopState * option JsError :=
  let a := strip_assertion a0 in
  let out :=
    if js_is (assertion_type a) "error" && log then
      let rMsg := resultMessage a in
      let out :=
        append_line ("; ERROR in " +:+ ns +:+ "/" +:+ test +:+ " (line "
                     +:+ line_to_string a +:+ "):") out in
      let out :=
        if negb (String.eqb rMsg "")
        then append_line ("; " +:+ resultMessage a) out else out in
      append_line ("; error: " +:+ js_to_string (assertion_error a) +:+ " ("
                   +:+ js_to_string (assertion_file a) +:+ ")"
                   +:+ String LF ("; expected:"
                   +:+ String LF (js_to_string (assertion_expected a)))) out
    else out in
  if js_is (assertion_type a) "fail" then
    let rMsg := resultMessage a in
    match fail_diagnostic test a with
    | Throw e => (out, Some e)
    | Normal err =>
        match diagnostics_push (js_to_string (assertion_file a)) err
                (loop_diagnostics out) with
        | Throw e => (out, Some e)
        | Normal diagnostics =>
            let out :=
              {| loop_appended := loop_appended out;
                 loop_diagnostics := diagnostics;
                 loop_total_summary := loop_total_summary out |} in
            if log then
              let out :=
                append_line ("; FAIL in " +:+ ns +:+ "/" +:+ test +:+ " ("
                             +:+ js_to_string (assertion_file a) +:+ ":"
                             +:+ line_to_string a +:+ "):") out in
              let out :=
                if negb (String.eqb rMsg "")
                then append_line ("; " +:+ resultMessage a) out else out in
              (append_line ("; expected:"
                            +:+ String LF (js_to_string (assertion_expected a)
                            +:+ String LF ("; actual:"
                            +:+ String LF (js_to_string (assertion_actual a))))) out,
               None)
            else (out, None)
        end
    end
  else (out, None).

(** The loops of lines 23 to 65 around that body. *)
Definition report_test (log : bool) (ns : string)
    (entry : string * list Assertion) (out : LoopState)
  : LoopState * option JsError :=
  for_each (report_assertion log ns (fst entry)) (snd entry) out.

Definition report_namespace (log : bool)
    (entry : string * list (string * list Assertion)) (out : LoopState)
  : LoopState * option JsError :=
  for_each (report_test log (fst entry)) (snd entry) out.

(** The function given to [_.each] at line 67, for the key [k]:
    [total_summary[k] = result.summary[k] + (total_summary[k] !==
    undefined ? total_summary[k] : 0)].  An absent [result.summary[k]] is
    [undefined], and the sum is then NaN. *)
Definition add_counter (counters : gmap string Z) (k : string)
    (total_summary : gmap string JsNumber) : gmap string JsNumber :=
  <[k := js_plus match counters !! k with
                 | Some v => js_int v
                 | None => js_NaN
                 end
                 (default (js_int 0) (total_summary !! k))]> total_summary.

(** Lines 66 to 70.  [_.each] visits nothing for [undefined]; for an
    array-like object it calls the function with the indices below the
    length, from 0 on; for any other object it calls it with every key of
    the object, once. *)
Definition add_summary (total_summary : gmap string JsNumber) (result : TestResult)
  : gmap string JsNumber :=
  match summary result with
  | summary_null => total_summary
  | summary_undefined => total_summary
  | summary_object counters =>
      match array_like_length counters with
      | Some length =>
          fold_left (λ total i, add_counter counters (index_key i) total)
            (seq 0 (Z.to_nat length)) total_summary
      | None =>
          map_fold (λ k _ total, add_counter counters k total)
            total_summary counters
      end
  end.

(** The body of the loop over [results], lines 23 to 70. *)
Definition report_result (log : bool) (result : TestResult) (out : LoopState)
  : LoopState * option JsError :=
  match for_each (report_namespace log) (result_results result) out with
  | (out', Some e) => (out', Some e)
  | (out', None) =>
      ({| loop_appended := loop_appended out';
          loop_diagnostics := loop_diagnostics out';
          loop_total_summary := add_summary (loop_total_summary out') result |},
       None)
  end.

(** [total_summary.k] for one of the five counters, which are always
    there ([undefined] would compare and add as NaN does). *)
Definition counter (k : string) (total_summary : gmap string JsNumber) : JsNumber :=
  default js_NaN (total_summary !! k).

(** The line of lines 76 to 81. *)
Definition summary_line (total_summary : gmap string JsNumber) (hasProblems : bool)
  : string :=
  "; "
  +:+ (if js_positive (counter "test" total_summary)
       then number_to_string (counter "test" total_summary) +:+ " tests finished, "
            +:+ (if negb hasProblems then "all passing 👍"
                 else "problems found. 😭" +:+ " errors: "
                      +:+ number_to_string (counter "error" total_summary)
                      +:+ ", failures: "
                      +:+ number_to_string (counter "fail" total_summary))
       else "No tests found. 😱")
  +:+ ", ns: " +:+ number_to_string (counter "ns" total_summary)
  +:+ ", vars: " +:+ number_to_string (counter "var" total_summary).

(** The loops of [reportTests], lines 22 to 71, from the initial values of
    [diagnostics] and [total_summary]. *)
Definition report_loops (results : TestResults) (log : bool)
  : LoopState * option JsError :=
  for_each (report_result log) (result_items results)
    {| loop_appended := []; loop_diagnostics := ∅;
       loop_total_summary := initial_total_summary |}.

(** [reportTests(results, errorStr, log)].  The function given to
    [_.each(diagnostics, ...)] at lines 87 to 95 sets the diagnostics of
    a file whose name starts with '/' at once, and begins a search for
    any other. *)
Definition reportTests (results : TestResults) (errorStr : string) (log : bool)
  : Report :=
  if truthy_string (err results) || truthy_string (ex results) then
    {| report_logged :=
         ["Error " +:+ errorStr +:+ ":"
          +:+ match err results with
              | Some s => s
              | None => "undefined"
              end];
       report_appended := [];
       report_set := ∅;
       report_findFiles := ∅;
       report_total_summary := initial_total_summary;
       report_thrown := None |}
  else
    match report_loops results log with
    | (out, Some e) =>
        {| report_logged := [];
           report_appended := loop_appended out;
           report_set := ∅;
           report_findFiles := ∅;
           report_total_summary := loop_total_summary out;
           report_thrown := Some e |}
    | (out, None) =>
        let total_summary := loop_total_summary out in
        let hasProblems :=
          js_positive (js_plus (counter "error" total_summary)
                               (counter "fail" total_summary)) in
        let appended :=
          if log then loop_appended out ++ [summary_line total_summary hasProblems]
          else loop_appended out in
        let publishes := js_positive (counter "test" total_summary) && hasProblems in
        {| report_logged := [];
           report_appended := appended;
           report_set :=
             if publishes
             then filter (λ entry, startsWith (fst entry) "/" = true)
                    (loop_diagnostics out)
             else ∅;
           report_findFiles :=
             if publishes
             then filter (λ entry, startsWith (fst entry) "/" = false)
                    (loop_diagnostics out)
             else ∅;
           report_total_summary := total_summary;
           report_thrown := None |}
    end.

(** **** Vocabulary of the statements about [reportTests] *)

(** The index that [k] is the property key of, if it is one: [k] is the
    decimal writing of an integer that is not negative. *)
Definition key_index (k : string) : option Z :=
  match NilEmpty.int_of_string k with
  | Some d =>
      let i := Z.of_int d in
      if (0 <=? i) && String.eqb (Z_to_string i) k then Some i else None
  | None => None
  end.

(** What [result] adds to the counter [k] of the totals: nothing when
    its summary is [null] or absent; for a summary with a [length] that
    makes it array-like, the value under [k] when [k] is an index below
    that length (NaN when the summary has no such property), and nothing
    for any other [k]; for any other summary the value under [k], if it
    has one. *)
Definition contribution (k : string) (result : TestResult) : option JsNumber :=
  match summary result with
  | summary_object counters =>
      match array_like_length counters with
      | Some length =>
          match key_index k with
          | Some i =>
              if i <? length
              then Some match counters !! k with
                        | Some v => js_int v
                        | None => js_NaN
                        end
              else None
          | None => None
          end
      | None => js_int <$> counters !! k
      end
  | _ => None
  end.

Definition has_counter (k : string) (result : TestResult) : Prop :=
  is_Some (contribution k result).

(** The sum, from zero, of what the results add to the counter [k]. *)
Definition sum_of_contributions (k : string) (results : list TestResult)
  : JsNumber :=
  foldr (λ result acc,
           js_plus (default (js_int 0) (contribution k result)) acc)
        (js_int 0) results.




(** The assertions of one test, of one namespace, of one result and of
    a run, each with its test, in the order of the loops and as
    [reportTests] sees them after line 31. *)
Definition assertions_of_test (entry : string * list Assertion)
  : list (string * Assertion) :=
  map (λ a, (fst entry, strip_assertion a)) (snd entry).

Definition assertions_of_namespace (entry : string * list (string * list Assertion))
  : list (string * Assertion) :=
  concat (map assertions_of_test (snd entry)).

Definition assertions_of_result (result : TestResult) : list (string * Assertion) :=
  concat (map assertions_of_namespace (result_results result)).

Definition assertions_of (results : TestResults) : list (string * Assertion) :=
  concat (map assertions_of_result (result_items results)).

Definition is_fail (entry : string * Assertion) : bool :=
  js_is (assertion_type (snd entry)) "fail".

Definition file_key (entry : string * Assertion) : string :=
  js_to_string (assertion_file (snd entry)).

(** The exception that an assertion makes lines 51 to 54 throw: a failing
    assertion whose line is 0 or less has no range, and one whose file
    bears the name of a member of [Object.prototype] has no array to be
    pushed on. *)
Definition offence (entry : string * Assertion) : option JsError :=
  if is_fail entry then
    if match assertion_line (snd entry) with
       | Some n => n <=? 0
       | None => false
       end
    then Some IllegalArgument
    else if bool_decide (file_key entry ∈ Object_prototype_names)
         then Some TypeError
         else None
  else None.

(** The diagnostic of a failing assertion that has a range: an error from
    column 0 to column 1000 of the line before [a.line]. *)
Definition diagnostic_of (entry : string * Assertion) : Diagnostic :=
  {| diagnostic_range :=
       {| startLine := line_minus_one (snd entry); startCharacter := js_int 0;
          endLine := line_minus_one (snd entry); endCharacter := js_int 1000 |};
     diagnostic_message := fail_message (fst entry) (snd entry);
     diagnostic_severity := Severity_Error |}.

(** What an assertion that does not offend does to the object
    [diagnostics]: a failing one adds its diagnostic to the array of its
    file, any other adds nothing. *)
Definition collect_step (diagnostics : gmap string (list Diagnostic))
    (entry : string * Assertion) : gmap string (list Diagnostic) :=
  if is_fail entry
  then <[file_key entry :=
           default [] (diagnostics !! file_key entry) ++ [diagnostic_of entry]]>
         diagnostics
  else diagnostics.

(** What the assertions do to [diagnostics] one after the other, up to
    the first that offends, and the exception of that one. *)
Fixpoint collect (entries : list (string * Assertion))
    (diagnostics : gmap string (list Diagnostic))
  : gmap string (list Diagnostic) * option JsError :=
  match entries with
  | [] => (diagnostics, None)
  | entry :: rest =>
      match offence entry with
      | Some e => (diagnostics, Some e)
      | None => collect rest (collect_step diagnostics entry)
      end
  end.

(** The object [diagnostics] when the loops end. *)
Definition collected_diagnostics (results : TestResults) (log : bool)
  : gmap string (list Diagnostic) :=
  loop_diagnostics (fst (report_loops results log)).

(** The total summary that a call returns with: none when the call
    throws. *)
Definition returned_total (report : Report) : option (gmap string JsNumber) :=
  match report_thrown report with
  | Some _ => None
  | None => Some (report_total_summary report)
  end.

(** *** [considerTestNS] *)

Definition DQUOTE : ascii := "034"%char.

(** The methods of [NReplSession] (../nrepl) that [considerTestNS] awaits,
    and [vscode.Uri.parse(p).path]. *)
Class NReplSessionAPI (Session : Type) := {
  (** [(await session.nsPath(ns)).path], a string or nothing *)
  session_nsPath : Session → string → Session * Settled (option string);
  (** [await session.eval(code, ns).value] *)
  session_eval_value : Session → string → string → Session * Settled unit;
  (** [vscode.Uri.parse(p).path] *)
  uri_parse_path : string → string
}.

(** [considerTestNS(ns, session, nss)]: the session when the promise has
    settled, and what it settled as. *)
Definition considerTestNS {Session : Type} {api : NReplSessionAPI Session}
    (ns : string) (session : Session) (nss : list string)
  : Session * Settled (list string) :=
  if negb (endsWith ns "-test") then
    let testNS := ns +:+ "-test" in
    let '(session1, nsPath) := session_nsPath session testNS in
    match nsPath with
    | Rejected e => (session1, Rejected e)
    | Fulfilled testFilePath =>
        match testFilePath with
        | Some p =>
            if negb (String.eqb p "") then
              let filePath := uri_parse_path p in
              let loadForms :=
                "(load-file " +:+ String DQUOTE (filePath +:+ String DQUOTE ")") in
              let '(session2, loaded) :=
                session_eval_value session1 loadForms testNS in
              match loaded with
              | Rejected e => (session2, Rejected e)
              | Fulfilled _ => (session2, Fulfilled (nss ++ [testNS]))
              end
            else (session1, Fulfilled (nss ++ [testNS]))
        | None => (session1, Fulfilled (nss ++ [testNS]))
        end
    end
  else (session, Fulfilled nss).

(** Modelled from the spec: a session (the nREPL client of section 1)
    whose state is the list of the forms it was asked to evaluate; every
    namespace has the file [/src/<ns>.clj]. *)
Definition RecordingSession : NReplSessionAPI (list string) :=
  {| session_nsPath := λ s ns, (s, Fulfilled (Some ("/src/" +:+ ns +:+ ".clj")));
     session_eval_value := λ s code ns, (s ++ [code], Fulfilled tt);
     uri_parse_path := λ p, p |}.

(** A failing assertion at a line of a file. *)
Definition demo_failure_at (line : option Z) (file : string) : Assertion :=
  {| assertion_type := js_string "fail";
     assertion_line := line;
     assertion_file := js_string file;
     assertion_context := js_string "false";
     assertion_message := js_string "sums";
     assertion_expected := js_string "3";
     assertion_actual := js_string "4";
     assertion_error := js_undefined |}.

Definition demo_failure : Assertion :=
  demo_failure_at (Some 12) "/src/core_test.clj".

Definition demo_result (a : Assertion) (counters : gmap string Z) : TestResult :=
  {| result_results := [("core-test"%string, [("adds"%string, [a])])];
     summary := summary_object counters |}.

(** A run of one namespace with one failing assertion, and a summary that
    counts it. *)
Definition demo_run_of (a : Assertion) : TestResults :=
  {| err := None; ex := None;
     result_items := [demo_result a (<["test" := 1]> (<["fail" := 1]> ∅))] |}.

Definition demo_run : TestResults := demo_run_of demo_failure.


(** ** Part II. Properties *)

(** *** Strings *)

Lemma append_cons (c : ascii) (s t : string) :
  String c s +:+ t = String c (s +:+ t).
Proof. reflexivity. Qed.

Lemma replace_crlf_single (c : ascii) :
  replace_crlf (String c EmptyString) = String c EmptyString.
Proof. reflexivity. Qed.

Lemma replace_crlf_cons2 (c c' : ascii) (r : string) :
  replace_crlf (String c (String c' r))
  = if Ascii.eqb c CR && Ascii.eqb c' LF
    then String LF (replace_crlf r)
    else String c (replace_crlf (String c' r)).
Proof. reflexivity. Qed.

Lemma count_crlf_cons2 (c c' : ascii) (r : string) :
  count_crlf (String c (String c' r))
  = if Ascii.eqb c CR && Ascii.eqb c' LF
    then S (count_crlf r)
    else count_crlf (String c' r).
Proof. reflexivity. Qed.

(** A pair at any place of the text becomes one line feed, and the text
    on either side is treated on its own. *)
Lemma replace_crlf_seam (a b : string) :
  replace_crlf (a +:+ String CR (String LF b))
  = replace_crlf a +:+ String LF (replace_crlf b).
Proof.
  enough (Hboth :
    replace_crlf (a +:+ String CR (String LF b))
      = replace_crlf a +:+ String LF (replace_crlf b)
    ∧ ∀ c, replace_crlf (String c a +:+ String CR (String LF b))
      = replace_crlf (String c a) +:+ String LF (replace_crlf b))
    by exact (proj1 Hboth).
  induction a as [|c' a' [IHa IHc]].
  - split; [reflexivity|].
    intros c. rewrite append_cons. change ("" +:+ ?x) with x.
    rewrite replace_crlf_cons2, replace_crlf_single.
    replace (Ascii.eqb CR LF) with false by reflexivity.
    rewrite andb_false_r, replace_crlf_cons2. reflexivity.
  - split; [apply IHc|].
    intros c. rewrite !append_cons, !replace_crlf_cons2.
    destruct (Ascii.eqb c CR && Ascii.eqb c' LF).
    + rewrite append_cons. f_equal. exact IHa.
    + rewrite append_cons. f_equal. rewrite <- append_cons. apply IHc.
Qed.

(** Each pair costs one character. *)
Lemma replace_crlf_length (s : string) :
  (String.length (replace_crlf s) + count_crlf s = String.length s)%nat.
Proof.
  enough (Hboth :
    (String.length (replace_crlf s) + count_crlf s = String.length s)%nat
    ∧ ∀ c, (String.length (replace_crlf (String c s)) + count_crlf (String c s)
            = String.length (String c s))%nat)
    by exact (proj1 Hboth).
  induction s as [|c' s' [IHs IHc]].
  - split; [reflexivity|]. intros c. reflexivity.
  - split; [apply IHc|].
    intros c. rewrite replace_crlf_cons2, count_crlf_cons2.
    destruct (Ascii.eqb c CR && Ascii.eqb c' LF).
    + cbn [String.length]. lia.
    + specialize (IHc c'). cbn [String.length] in IHc |- *. lia.
Qed.

(** A text without a pair is left as it is. *)
Lemma replace_crlf_none (s : string) :
  count_crlf s = O → replace_crlf s = s.
Proof.
  enough (Hboth :
    (count_crlf s = O → replace_crlf s = s)
    ∧ ∀ c, count_crlf (String c s) = O → replace_crlf (String c s) = String c s)
    by exact (proj1 Hboth).
  induction s as [|c' s' [IHs IHc]].
  - split; [reflexivity|]. intros c _. reflexivity.
  - split; [apply IHc|].
    intros c. rewrite replace_crlf_cons2, count_crlf_cons2.
    destruct (Ascii.eqb c CR && Ascii.eqb c' LF); [discriminate|].
    intros Hnone. f_equal. apply IHc, Hnone.
Qed.

(** *** processChanges *)

Section ProcessChangesFacts.
Context {lim : LineInputModelAPI}.

Lemma processChanges_registered (event : TextDocumentChangeEvent)
    (st : Registry) (mirror : MirroredDocument) :
  documents st !! event_document event = Some mirror →
  processChanges event st
  = Normal (flushed_and_cleared st (event_document event) mirror
              (fold_left change_step (contentChanges event) (model mirror))).
Proof.
  intros Hreg. unfold processChanges. rewrite Hreg. reflexivity.
Qed.

Lemma processChanges_unregistered (event : TextDocumentChangeEvent) (st : Registry) :
  documents st !! event_document event = None →
  processChanges event st = Throw TypeError.
Proof.
  intros Hreg. unfold processChanges. rewrite Hreg. reflexivity.
Qed.

(** The loop, cut at one of its changes. *)
Lemma change_loop_at (pre post : list TextDocumentContentChangeEvent)
    (change : TextDocumentContentChangeEvent) (m : DocumentModel) :
  fold_left change_step (pre ++ change :: post) m
  = fold_left change_step post
      (submit (fold_left change_step pre m)
         (change_edit (fold_left change_step pre m) change)).
Proof. rewrite fold_left_app. reflexivity. Qed.

Lemma change_edit_forget_host_offsets (m : DocumentModel)
    (change : TextDocumentContentChangeEvent) :
  change_edit m (forget_host_offsets change) = change_edit m change.
Proof. reflexivity. Qed.

Lemma change_loop_forget_host_offsets
    (changes : list TextDocumentContentChangeEvent) (m : DocumentModel) :
  fold_left change_step (map forget_host_offsets changes) m
  = fold_left change_step changes m.
Proof.
  revert m. induction changes as [|change changes IH]; intros m.
  - reflexivity.
  - cbn [map fold_left]. rewrite IH. reflexivity.
Qed.

End ProcessChangesFacts.

(** C3.  For every change of a change event, [processChanges] submits a
    [changeRange] edit whose start offset is the model's own
    [getOffsetForLine] of the start line plus the start column, and whose
    end offset is the model's [getOffsetForLine] of the end line plus the
    end column, the model being the one the loop has reached.  The offset
    and length that the host computed for the change play no part.  With
    the model lines "abc" and "def", a change from line 1 column 1 to line
    1 column 2 gives the offsets 5 and 6. *)
Theorem processChanges_offsets_from_model_lines
    {lim : LineInputModelAPI} (st : Registry) (event : TextDocumentChangeEvent)
    (mirror : MirroredDocument)
    (pre post : list TextDocumentContentChangeEvent)
    (change : TextDocumentContentChangeEvent) :
  documents st !! event_document event = Some mirror →
  contentChanges event = pre ++ change :: post →
  let m := fold_left change_step pre (model mirror) in
  let r := change_range change in
  processChanges event st
  = Normal (flushed_and_cleared st (event_document event) mirror
      (fold_left change_step post
         (submit m
            (ModelEdit_changeRange
               (lim_getOffsetForLine (lineInputModel m) (line (range_start r))
                + character (range_start r))
               (lim_getOffsetForLine (lineInputModel m) (line (range_end r))
                + character (range_end r))
               (replace_crlf (change_text change)) None None))))
  ∧ processChanges
      {| event_document := event_document event;
         contentChanges := map forget_host_offsets (contentChanges event) |} st
    = processChanges event st
  ∧ ∀ text,
      change_edit (lim := RefLineInputModel) demo_model (demo_change 1 1 1 2 text)
      = ModelEdit_changeRange 5 6 (replace_crlf text) None None.
Proof.
  intros Hreg Hchanges m r. split; [|split].
  - rewrite (processChanges_registered _ _ _ Hreg), Hchanges, change_loop_at.
    reflexivity.
  - unfold processChanges. cbn [event_document contentChanges].
    destruct (documents st !! event_document event); [|reflexivity].
    rewrite change_loop_forget_host_offsets. reflexivity.
  - intros text. reflexivity.
Qed.

Lemma processChanges_offsets_from_model_lines_witness :
  documents demo_registry !! 1%positive
  = Some {| document := 1%positive; model := demo_model; selectionStack := [] |}
  ∧ [demo_change 1 1 1 2 "X"] = [] ++ demo_change 1 1 1 2 "X" :: []
  ∧ processChanges (lim := RefLineInputModel)
      {| event_document := 1%positive;
         contentChanges := [demo_change 1 1 1 2 "X"] |} demo_registry
    = Normal (flushed_and_cleared (lim := RefLineInputModel) demo_registry 1%positive
        {| document := 1%positive; model := demo_model; selectionStack := [] |}
        (submit (lim := RefLineInputModel) demo_model
           (ModelEdit_changeRange 5 6 "X" None None))).
Proof.
  split; [reflexivity|]. split; [reflexivity|].
  exact (proj1 (processChanges_offsets_from_model_lines (lim := RefLineInputModel)
    demo_registry
    {| event_document := 1%positive; contentChanges := [demo_change 1 1 1 2 "X"] |}
    {| document := 1%positive; model := demo_model; selectionStack := [] |}
    [] [] (demo_change 1 1 1 2 "X") eq_refl eq_refl)).
Defined.

(** C4.  For every change of a change event, the text of the edit that
    [processChanges] submits is the replacement text of the change with
    every carriage-return/line-feed pair replaced by one line feed: a
    pair at any place of the text becomes one line feed, the result is
    shorter by one character for each pair, and the rest of the text is
    kept.  The replacement text "a\r\nb" gives the edit text "a\nb". *)
Theorem processChanges_normalizes_crlf
    {lim : LineInputModelAPI} (st : Registry) (event : TextDocumentChangeEvent)
    (mirror : MirroredDocument)
    (pre post : list TextDocumentContentChangeEvent)
    (change : TextDocumentContentChangeEvent) :
  documents st !! event_document event = Some mirror →
  contentChanges event = pre ++ change :: post →
  let m := fold_left change_step pre (model mirror) in
  (∃ start end_,
     processChanges event st
     = Normal (flushed_and_cleared st (event_document event) mirror
         (fold_left change_step post
            (submit m
               (ModelEdit_changeRange start end_
                  (replace_crlf (change_text change)) None None)))))
  ∧ (∀ a b, change_text change = a +:+ String CR (String LF b) →
       replace_crlf (change_text change)
       = replace_crlf a +:+ String LF (replace_crlf b))
  ∧ (String.length (replace_crlf (change_text change))
     + count_crlf (change_text change)
     = String.length (change_text change))%nat
  ∧ (count_crlf (change_text change) = O →
       replace_crlf (change_text change) = change_text change)
  ∧ replace_crlf (String "a" (String CR (String LF "b")))
    = String "a" (String LF "b").
Proof.
  intros Hreg Hchanges m. repeat split.
  - eexists _, _.
    rewrite (processChanges_registered _ _ _ Hreg), Hchanges, change_loop_at.
    reflexivity.
  - intros a b ->. apply replace_crlf_seam.
  - apply replace_crlf_length.
  - apply replace_crlf_none.
Qed.

Lemma processChanges_normalizes_crlf_witness :
  documents demo_registry !! 1%positive
  = Some {| document := 1%positive; model := demo_model; selectionStack := [] |}
  ∧ [demo_change 1 1 1 2 (String "a" (String CR (String LF "b")))]
    = [] ++ demo_change 1 1 1 2 (String "a" (String CR (String LF "b"))) :: []
  ∧ ∃ start end_,
      processChanges (lim := RefLineInputModel)
        {| event_document := 1%positive;
           contentChanges :=
             [demo_change 1 1 1 2 (String "a" (String CR (String LF "b")))] |}
        demo_registry
      = Normal (flushed_and_cleared (lim := RefLineInputModel) demo_registry 1%positive
          {| document := 1%positive; model := demo_model; selectionStack := [] |}
          (submit (lim := RefLineInputModel) demo_model
             (ModelEdit_changeRange start end_
                (String "a" (String LF "b")) None None))).
Proof.
  split; [reflexivity|]. split; [reflexivity|].
  exact (proj1 (processChanges_normalizes_crlf (lim := RefLineInputModel)
    demo_registry
    {| event_document := 1%positive;
       contentChanges :=
         [demo_change 1 1 1 2 (String "a" (String CR (String LF "b")))] |}
    {| document := 1%positive; model := demo_model; selectionStack := [] |}
    [] [] (demo_change 1 1 1 2 (String "a" (String CR (String LF "b"))))
    eq_refl eq_refl)).
Defined.

(** C7.  After every call of [processChanges] that returns, the dirty-line
    list, the inserted-line set and the deleted-line set of the model of
    the event's document are empty, whatever they held before the call
    and whatever the edits and the flush put into them; and the call
    returns whenever the document is registered. *)
Theorem processChanges_clears_repaint_cache
    {lim : LineInputModelAPI} (st : Registry) (event : TextDocumentChangeEvent) :
  (is_Some (documents st !! event_document event) →
     ∃ st', processChanges event st = Normal st')
  ∧ ∀ st', processChanges event st = Normal st' →
      ∃ mirror',
        documents st' !! event_document event = Some mirror'
        ∧ dirtyLines (lineInputModel (model mirror')) = []
        ∧ insertedLines (lineInputModel (model mirror')) = ∅
        ∧ deletedLines (lineInputModel (model mirror')) = ∅.
Proof.
  split.
  - intros [mirror Hreg]. eexists. apply processChanges_registered, Hreg.
  - intros st' Hrun.
    destruct (documents st !! event_document event) as [mirror|] eqn:Hreg.
    + rewrite (processChanges_registered _ _ _ Hreg) in Hrun.
      injection Hrun as <-.
      eexists. split; [apply lookup_insert_eq|]. repeat split.
    + rewrite (processChanges_unregistered _ _ Hreg) in Hrun. discriminate.
Qed.

Lemma processChanges_clears_repaint_cache_witness :
  is_Some (documents demo_registry !! 1%positive)
  ∧ ∃ st',
      processChanges (lim := RefLineInputModel)
        {| event_document := 1%positive;
           contentChanges := [demo_change 0 3 1 0 "X"] |} demo_registry
      = Normal st'
      ∧ ∃ mirror',
          documents st' !! 1%positive = Some mirror'
          ∧ dirtyLines (lineInputModel (model mirror')) = []
          ∧ insertedLines (lineInputModel (model mirror')) = ∅
          ∧ deletedLines (lineInputModel (model mirror')) = ∅.
Proof.
  split; [eexists; reflexivity|].
  eexists. split; [reflexivity|].
  exact (proj2 (processChanges_clears_repaint_cache (lim := RefLineInputModel)
    demo_registry
    {| event_document := 1%positive;
       contentChanges := [demo_change 0 3 1 0 "X"] |}) _ eq_refl).
Defined.

(** *** addDocument *)

Section AddDocumentFacts.
Context {lim : LineInputModelAPI}.

Lemma addDocument_tracked (h : Host) (st : Registry) (d : DocId) :
  languageId (textDocuments h d) = "clojure"%string →
  is_Some (documents st !! d) →
  addDocument (Some d) h st = (true, st).
Proof.
  intros Hlang Hreg. unfold addDocument.
  rewrite Hlang, String.eqb_refl, (bool_decide_eq_true_2 _ Hreg).
  reflexivity.
Qed.

Lemma addDocument_other_language (h : Host) (st : Registry) (d : DocId) :
  languageId (textDocuments h d) ≠ "clojure"%string →
  addDocument (Some d) h st = (false, st).
Proof.
  intros Hlang. unfold addDocument.
  apply String.eqb_neq in Hlang. rewrite Hlang. reflexivity.
Qed.

(** However often a tracked document is registered again, the answer is
    [true] and the registry stays as it is. *)
Lemma addDocument_again (hs : list Host) (st : Registry) (d : DocId) :
  is_Some (documents st !! d) →
  Forall (λ h, languageId (textDocuments h d) = "clojure"%string) hs →
  addDocument_each d hs st = (map (λ _, true) hs, st).
Proof.
  intros Hreg Hall. unfold addDocument_each.
  enough (Hgen : ∀ answers,
    fold_left (λ acc h, let '(answers, s) := acc in
                        let '(b, s') := addDocument (Some d) h s in
                        (answers ++ [b], s')) hs (answers, st)
    = (answers ++ map (λ _, true) hs, st)) by exact (Hgen []).
  induction Hall as [|h hs Hh Hall IH]; intros answers.
  - cbn. rewrite app_nil_r. reflexivity.
  - cbn [fold_left map]. rewrite (addDocument_tracked _ _ _ Hh Hreg), IH.
    rewrite <- app_assoc. reflexivity.
Qed.

(** The change handler calls [processChanges] for registered documents
    only, so the lookup of the mirror in it does not fail. *)
Lemma onDidChangeTextDocument_returns (e : TextDocumentChangeEvent) (h : Host)
    (st : Registry) :
  ∃ st', onDidChangeTextDocument e h st = Normal st'.
Proof.
  unfold onDidChangeTextDocument, addDocument.
  destruct (String.eqb _ _); [|eexists; reflexivity].
  destruct (documents st !! event_document e) as [mirror|] eqn:Hreg.
  - rewrite bool_decide_eq_true_2 by (eexists; reflexivity).
    cbn [negb]. rewrite (processChanges_registered _ _ _ Hreg).
    eexists. reflexivity.
  - rewrite bool_decide_eq_false_2 by (intros [? ?]; discriminate).
    eexists. reflexivity.
Qed.

End AddDocumentFacts.

(** C5.  Registering a document of language "clojure" that is not
    registered stores a mirror whose line model is a new [LineInputModel]
    seeded by one [insertString] of the document's whole text at offset
    0, and answers [false]; the registry grows by that one mirror.
    Registering a registered document of the language again answers
    [true] and changes nothing, so the mirror stays the one that was
    stored.  Registering a document of another language, or no document,
    answers [false] and changes nothing. *)
Theorem addDocument_registers_once
    {lim : LineInputModelAPI} (h : Host) (st : Registry) (d : DocId) :
  let seeded :=
    {| document := d;
       model := {| lineInputModel :=
         lim_insertString
           (lim_new match eol (textDocuments h d) with
                    | EndOfLine_CRLF => 2
                    | EndOfLine_LF => 1
                    end)
           0 (getText (textDocuments h d)) |};
       selectionStack := [] |} in
  let st1 := {| documents := <[d := seeded]> (documents st);
                registered := registered st |} in
  (languageId (textDocuments h d) = "clojure"%string →
   documents st !! d = None →
     addDocument (Some d) h st = (false, st1)
     ∧ documents st1 !! d = Some seeded
     ∧ size (documents st1) = S (size (documents st))
     ∧ (∀ h', languageId (textDocuments h' d) = "clojure"%string →
          addDocument (Some d) h' st1 = (true, st1))
     ∧ (∀ hs, Forall (λ h', languageId (textDocuments h' d) = "clojure"%string) hs →
          addDocument_each d hs st1 = (map (λ _, true) hs, st1)))
  ∧ (∀ st2 h', languageId (textDocuments h' d) = "clojure"%string →
       is_Some (documents st2 !! d) →
       addDocument (Some d) h' st2 = (true, st2))
  ∧ (languageId (textDocuments h d) ≠ "clojure"%string →
       addDocument (Some d) h st = (false, st))
  ∧ addDocument None h st = (false, st).
Proof.
  intros seeded st1. split; [|split; [|split]].
  - intros Hlang Hnew.
    assert (Hstored : is_Some (documents st1 !! d))
      by (exists seeded; apply lookup_insert_eq).
    split; [|split; [|split; [|split]]].
    + unfold addDocument.
      rewrite Hlang, String.eqb_refl, Hnew.
      rewrite bool_decide_eq_false_2 by (intros [? ?]; discriminate).
      reflexivity.
    + apply lookup_insert_eq.
    + apply map_size_insert_None, Hnew.
    + intros h' Hlang'. apply addDocument_tracked; assumption.
    + intros hs Hall. apply addDocument_again; assumption.
  - intros st2 h' Hlang' Hreg. apply addDocument_tracked; assumption.
  - apply addDocument_other_language.
  - reflexivity.
Qed.

Lemma addDocument_registers_once_witness :
  (languageId (textDocuments (demo_host "(inc 1)") 1%positive) = "clojure"%string
   ∧ documents {| documents := ∅; registered := true |} !! 1%positive = None
   ∧ fst (addDocument (lim := RefLineInputModel) (Some 1%positive)
            (demo_host "(inc 1)") {| documents := ∅; registered := true |})
     = false)
  ∧ (languageId (textDocuments (demo_host "(inc 1)") 1%positive) = "clojure"%string
     ∧ is_Some (documents demo_registry !! 1%positive)
     ∧ addDocument (lim := RefLineInputModel) (Some 1%positive)
         (demo_host "(inc 1)") demo_registry
       = (true, demo_registry))
  ∧ (languageId (textDocuments (demo_host "(inc 1)") 2%positive) ≠ "clojure"%string
     ∧ addDocument (lim := RefLineInputModel) (Some 2%positive)
         (demo_host "(inc 1)") demo_registry
       = (false, demo_registry)).
Proof.
  split; [|split].
  - split; [reflexivity|]. split; [reflexivity|].
    exact (f_equal fst (proj1 (proj1 (addDocument_registers_once
      (lim := RefLineInputModel) (demo_host "(inc 1)")
      {| documents := ∅; registered := true |} 1%positive) eq_refl eq_refl))).
  - split; [reflexivity|].
    assert (Hreg : is_Some (documents demo_registry !! 1%positive))
      by (eexists; reflexivity).
    split; [exact Hreg|].
    exact (proj1 (proj2 (addDocument_registers_once
      (lim := RefLineInputModel) (demo_host "(inc 1)")
      demo_registry 1%positive)) demo_registry (demo_host "(inc 1)") eq_refl Hreg).
  - assert (Hlang : languageId (textDocuments (demo_host "(inc 1)") 2%positive)
                    ≠ "clojure"%string) by discriminate.
    split; [exact Hlang|].
    exact (proj1 (proj2 (proj2 (addDocument_registers_once
      (lim := RefLineInputModel) (demo_host "(inc 1)")
      demo_registry 2%positive))) Hlang).
Defined.

(** *** DocumentModel.edit *)

Section EditFacts.
Context {host : HostAPI} {fmt : FormatterAPI}.

(** The callback leaves in the builder, after what was there, what each
    model edit asks, in the order of the list; every position is read in
    the document that the active editor shows when the callback runs. *)
Lemma edit_callback_calls (h : Host) (ed : EditorId) (edits : list ModelEdit)
    (builder : list BuilderCall) :
  activeTextEditor h = Some ed →
  edit_callback h edits builder
  = Normal (builder
            ++ concat (map (dispatched (textDocuments h (editor_document (editors h ed))))
                         edits)).
Proof.
  intros Hed. revert builder.
  induction edits as [|e edits IH]; intros builder.
  - cbn. rewrite app_nil_r. reflexivity.
  - cbn [edit_callback map concat].
    destruct e; unfold insertEdit, replaceEdit, deleteEdit;
      rewrite ?Hed; cbn [editorDocument mbind Exc_bind mret Exc_ret dispatched];
      rewrite IH, <- ?app_assoc; reflexivity.
Qed.

Lemma edit_active (h : Host) (ed : EditorId) (edits : list ModelEdit)
    (options : ModelEditOptions) :
  activeTextEditor h = Some ed →
  edit edits options h
  = Normal (edit_then options ed
      (fst (editor_edit h ed
              (concat (map (dispatched (textDocuments h (editor_document (editors h ed))))
                         edits))
              {| edit_undoStopBefore := default false (undoStopBefore options);
                 edit_undoStopAfter := false |}))
      (snd (editor_edit h ed
              (concat (map (dispatched (textDocuments h (editor_document (editors h ed))))
                         edits))
              {| edit_undoStopBefore := default false (undoStopBefore options);
                 edit_undoStopAfter := false |}))).
Proof.
  intros Hed. unfold edit. rewrite Hed, (edit_callback_calls _ _ _ _ Hed).
  cbn [mbind Exc_bind app]. unfold truthy.
  destruct (editor_edit _ _ _ _) as [h1 committed]. reflexivity.
Qed.

Lemma edit_inactive (h : Host) (edits : list ModelEdit) (options : ModelEditOptions) :
  activeTextEditor h = None →
  edit edits options h = Throw TypeError.
Proof. intros Hed. unfold edit. rewrite Hed. reflexivity. Qed.

(** The handlers do not read the selections of an edit. *)
Lemma edit_callback_forget_selections (h : Host) (edits : list ModelEdit)
    (builder : list BuilderCall) :
  edit_callback h (map forget_selections edits) builder
  = edit_callback h edits builder.
Proof.
  revert builder. induction edits as [|e edits IH]; intros builder.
  - reflexivity.
  - cbn [map edit_callback].
    destruct e; cbn [forget_selections];
      unfold insertEdit, replaceEdit, deleteEdit;
      destruct (editorDocument h (activeTextEditor h));
      cbn [mbind Exc_bind mret Exc_ret]; try reflexivity; apply IH.
Qed.

End EditFacts.

(** C8.  For every two edit batches that differ only in the
    [oldSelection] and [newSelection] of their edits, every options and
    every host state, [DocumentModel.edit] behaves the same: the same
    calls reach the editor, and the host state and the result of the
    promise (or the exception) are the same. *)
Theorem edit_ignores_edit_selections
    {host : HostAPI} {fmt : FormatterAPI}
    (edits1 edits2 : list ModelEdit) (options : ModelEditOptions) (h : Host) :
  map forget_selections edits1 = map forget_selections edits2 →
  edit_callback h edits1 [] = edit_callback h edits2 []
  ∧ edit edits1 options h = edit edits2 options h.
Proof.
  intros Hsame.
  assert (Hcalls : edit_callback h edits1 [] = edit_callback h edits2 []).
  { rewrite <- (edit_callback_forget_selections h edits1),
            <- (edit_callback_forget_selections h edits2), Hsame.
    reflexivity. }
  split; [exact Hcalls|].
  unfold edit. rewrite Hcalls. reflexivity.
Qed.

Lemma edit_ignores_edit_selections_witness :
  map forget_selections
    [ModelEdit_insertString 0 "X" (Some (0, 0)) (Some (1, 1));
     ModelEdit_deleteRange 2 1 None (Some (2, 2))]
  = map forget_selections
      [ModelEdit_insertString 0 "X" None (Some (5, 7));
       ModelEdit_deleteRange 2 1 (Some (0, 3)) None]
  ∧ edit (host := RefHost true) (fmt := ConstFormatter true)
      [ModelEdit_insertString 0 "X" (Some (0, 0)) (Some (1, 1));
       ModelEdit_deleteRange 2 1 None (Some (2, 2))]
      no_options (demo_host "(inc 1)")
    = edit (host := RefHost true) (fmt := ConstFormatter true)
        [ModelEdit_insertString 0 "X" None (Some (5, 7));
         ModelEdit_deleteRange 2 1 (Some (0, 3)) None]
        no_options (demo_host "(inc 1)").
Proof.
  split; [reflexivity|].
  exact (proj2 (edit_ignores_edit_selections
    (host := RefHost true) (fmt := ConstFormatter true)
    [ModelEdit_insertString 0 "X" (Some (0, 0)) (Some (1, 1));
     ModelEdit_deleteRange 2 1 None (Some (2, 2))]
    [ModelEdit_insertString 0 "X" None (Some (5, 7));
     ModelEdit_deleteRange 2 1 (Some (0, 3)) None]
    no_options (demo_host "(inc 1)") eq_refl)).
Defined.

(** *** The reference collaborators *)

Lemma append_empty (s : string) : s +:+ EmptyString = s.
Proof.
  induction s as [|c s IH]; [reflexivity|].
  rewrite append_cons, IH. reflexivity.
Qed.

Lemma join_lines_cons (c : ascii) (l : string) (ls : list string) :
  join_lines (String c l :: ls) = String c (join_lines (l :: ls)).
Proof. destruct ls; reflexivity. Qed.

Lemma split_lines_cons (s : string) : ∃ l ls, split_lines s = l :: ls.
Proof.
  destruct s as [|c s]; cbn [split_lines]; [eauto|].
  destruct (Ascii.eqb c LF); [eauto|].
  destruct (split_lines s); eauto.
Qed.

(** Splitting a text into lines and joining them gives the text back. *)
Lemma join_split_lines (s : string) : join_lines (split_lines s) = s.
Proof.
  induction s as [|c s IH]; [reflexivity|].
  cbn [split_lines].
  destruct (split_lines_cons s) as (l & ls & Hsplit). rewrite Hsplit in *.
  destruct (Ascii.eqb c LF) eqn:Hc.
  - apply Ascii.eqb_eq in Hc. subst c.
    change (join_lines (EmptyString :: l :: ls))
      with (String LF (join_lines (l :: ls))).
    rewrite IH. reflexivity.
  - rewrite join_lines_cons, IH. reflexivity.
Qed.

(** Section 8 of the spec, round trip: a reference line model seeded with
    a text holds that text. *)
Lemma ref_seed_round_trip (lineEndingLength : Z) (text : string) :
  join_lines
    (lines (lim_insertString (LineInputModelAPI := RefLineInputModel)
              (lim_new (LineInputModelAPI := RefLineInputModel) lineEndingLength)
              0 text))
  = text.
Proof.
  cbn. unfold splice. cbn. rewrite append_empty. apply join_split_lines.
Qed.

Lemma offset_of_position_of (s : string) (n : nat) :
  (n ≤ String.length s)%nat →
  offset_of s (fst (position_of s n)) (snd (position_of s n)) = n.
Proof.
  revert n. induction s as [|ch s' IH]; intros n Hn.
  - cbn in Hn. replace n with O by lia. reflexivity.
  - destruct n as [|n']; [reflexivity|].
    cbn [String.length] in Hn. specialize (IH n' ltac:(lia)).
    cbn [position_of]. destruct (position_of s' n') as [l c].
    cbn [fst snd] in IH.
    destruct (Ascii.eqb ch LF) eqn:Hch.
    + cbn [fst snd offset_of]. rewrite Hch, IH. reflexivity.
    + destruct l as [|l0]; cbn [fst snd offset_of]; rewrite Hch, IH; reflexivity.
Qed.

Lemma ref_offsetAt_positionAt (doc : TextDocument) (offset : Z) :
  0 <= offset <= Z.of_nat (String.length (getText doc)) →
  ref_offsetAt doc (ref_positionAt doc offset) = offset.
Proof.
  intros Hrange. unfold ref_offsetAt, ref_positionAt.
  pose proof (offset_of_position_of (getText doc) (Z.to_nat offset)
                ltac:(lia)) as Hround.
  destruct (position_of (getText doc) (Z.to_nat offset)) as [l c].
  cbn [fst snd line character] in Hround |- *.
  rewrite !Nat2Z.id, Hround. lia.
Qed.

Lemma new_Range_same (p : Position) :
  new_Range p p = {| range_start := p; range_end := p |}.
Proof.
  unfold new_Range, isBefore. rewrite !Z.ltb_irrefl. reflexivity.
Qed.

(** A range made of the positions of two offsets of the text spans the
    text between the two offsets, in whichever order they were given. *)
Lemma ref_span_new_Range (doc0 : TextDocument) (a b : Z) :
  0 <= a <= Z.of_nat (String.length (getText doc0)) →
  0 <= b <= Z.of_nat (String.length (getText doc0)) →
  ref_span doc0 (new_Range (ref_positionAt doc0 a) (ref_positionAt doc0 b))
  = (Z.min a b, Z.max a b).
Proof.
  intros Ha Hb. unfold ref_span, new_Range.
  destruct (isBefore _ _); cbn [range_start range_end];
    rewrite !ref_offsetAt_positionAt by assumption.
  - reflexivity.
  - f_equal; lia.
Qed.

Lemma between_ends_forward (e : ModelEdit) :
  span_forward e → between_ends e = e.
Proof.
  destruct e as [| start end_ text ? ? | offset count ? ? |];
    cbn [span_forward between_ends]; intros Hforward; try reflexivity.
  - rewrite Z.min_l, Z.max_r by lia. reflexivity.
  - rewrite Z.min_l, Z.abs_eq by lia. reflexivity.
Qed.

Lemma ref_apply_dispatched (commits : bool) (doc0 : TextDocument) (buf : string)
    (e : ModelEdit) :
  offsets_within (Z.of_nat (String.length (getText doc0))) e →
  fold_left (ref_apply_call doc0) (dispatched (host := RefHost commits) doc0 e) buf
  = apply_to_buffer buf (between_ends e).
Proof.
  destruct e as [offset text ? ?|start end_ text ? ?|offset count ? ?|];
    cbn [offsets_within dispatched fold_left ref_apply_call apply_to_buffer
         between_ends positionAt RefHost].
  - intros Hoff. rewrite !ref_offsetAt_positionAt by exact Hoff. reflexivity.
  - intros [Hstart Hend]. rewrite ref_span_new_Range by assumption.
    reflexivity.
  - intros [Hoff Hend]. rewrite ref_span_new_Range by assumption.
    cbn [fst snd].
    replace (Z.min offset (offset + count) + Z.abs count)
      with (Z.max offset (offset + count)) by lia.
    reflexivity.
  - reflexivity.
Qed.

(** The reference transaction on the calls of a batch is the batch
    applied to the buffer edit after edit, each edit between the two ends
    of its span. *)
Lemma ref_commit_sequential (commits : bool) (doc0 : TextDocument)
    (edits : list ModelEdit) (buf : string) :
  Forall (offsets_within (Z.of_nat (String.length (getText doc0)))) edits →
  fold_left (ref_apply_call doc0)
    (concat (map (dispatched (host := RefHost commits) doc0) edits)) buf
  = fold_left apply_to_buffer (map between_ends edits) buf.
Proof.
  intros Hall. revert buf.
  induction Hall as [|e edits He Hall IH]; intros buf.
  - reflexivity.
  - cbn [map concat fold_left].
    rewrite fold_left_app, (ref_apply_dispatched _ _ _ _ He). apply IH.
Qed.

Lemma map_between_ends_forward (edits : list ModelEdit) :
  Forall span_forward edits → map between_ends edits = edits.
Proof.
  induction 1 as [|e edits He _ IH]; [reflexivity|].
  cbn [map]. rewrite (between_ends_forward e He), IH. reflexivity.
Qed.

(** C2.  For every list of model edits, the calls that reach the editor's
    transaction are what the edits ask, one after the other in the order
    of the list: an insert of [text] at [offset], a replace of the range
    between [start] and [end_] by [text], a delete of the range between
    [offset] and [offset + count].  Every offset is turned into a
    position in the document as it is before the transaction, so no edit
    shifts a later one.  With the reference editor, which applies the
    calls one after the other, the text of a batch whose offsets lie in
    the text and whose spans run forward becomes the batch applied edit
    after edit to the buffer: Replace replaces the span from [start] up
    to [end_], Delete removes the span from [offset] up to
    [offset + count].  (A span given backward is taken between its two
    ends, since the editor orders the ends of a range.)  The batch of an
    insert of "X" at 0 and an insert of "Y" at 0 puts "YX" before the
    text. *)
Theorem edit_applies_batch_in_list_order
    {host : HostAPI} {fmt : FormatterAPI}
    (edits : list ModelEdit) (options : ModelEditOptions) (h : Host)
    (ed : EditorId) :
  activeTextEditor h = Some ed →
  let d := editor_document (editors h ed) in
  let doc := textDocuments h d in
  let stops := {| edit_undoStopBefore := default false (undoStopBefore options);
                  edit_undoStopAfter := false |} in
  edit_callback h edits [] = Normal (concat (map (dispatched doc) edits))
  ∧ (∀ more,
       edit_callback h (edits ++ more) []
       = Normal (concat (map (dispatched doc) edits)
                 ++ concat (map (dispatched doc) more)))
  ∧ edit edits options h
    = Normal (edit_then options ed
        (fst (editor_edit h ed (concat (map (dispatched doc) edits)) stops))
        (snd (editor_edit h ed (concat (map (dispatched doc) edits)) stops)))
  ∧ (Forall (offsets_within (Z.of_nat (String.length (getText doc)))) edits →
     Forall span_forward edits →
     selection options = None →
     skipFormat options = Some true →
       text_after d (edit (host := RefHost true) edits options h)
       = Some (fold_left apply_to_buffer edits (getText doc)))
  ∧ (Forall (offsets_within (Z.of_nat (String.length (getText doc)))) edits →
     selection options = None →
     skipFormat options = Some true →
       text_after d (edit (host := RefHost true) edits options h)
       = Some (fold_left apply_to_buffer (map between_ends edits) (getText doc)))
  ∧ text_after d
      (edit (host := RefHost true)
         [ModelEdit_insertString 0 "X" None None;
          ModelEdit_insertString 0 "Y" None None]
         {| undoStopBefore := None; formatDepth := None;
            skipFormat := Some true; selection := None |} h)
    = Some ("YX" +:+ getText doc).
Proof.
  intros Hed d doc stops.
  assert (Hseq : ∀ batch opts,
    Forall (offsets_within (Z.of_nat (String.length (getText doc)))) batch →
    selection opts = None →
    skipFormat opts = Some true →
    text_after d (edit (host := RefHost true) batch opts h)
    = Some (fold_left apply_to_buffer (map between_ends batch) (getText doc))).
  { intros batch opts Hall Hsel Hskip.
    rewrite (edit_active (host := RefHost true) _ _ _ _ Hed).
    cbn [editor_edit RefHost ref_editor_edit fst snd].
    unfold edit_then, edit_then_selection, truthy.
    rewrite Hsel, Hskip.
    cbn [mret Exc_ret from_option id negb text_after textDocuments].
    fold d. rewrite fn_lookup_insert. cbn [with_text getText].
    f_equal. apply ref_commit_sequential, Hall. }
  split; [|split; [|split; [|split; [|split]]]].
  - exact (edit_callback_calls h ed edits [] Hed).
  - intros more. rewrite (edit_callback_calls _ _ _ _ Hed), map_app, concat_app.
    reflexivity.
  - apply edit_active, Hed.
  - intros Hall Hforward Hsel Hskip.
    rewrite (Hseq _ _ Hall Hsel Hskip), (map_between_ends_forward _ Hforward).
    reflexivity.
  - apply Hseq.
  - rewrite Hseq; [reflexivity| |reflexivity|reflexivity].
    repeat constructor; cbn; lia.
Qed.

Lemma edit_applies_batch_in_list_order_witness :
  let batch := [ModelEdit_changeRange 1 4 "dec" None None;
                ModelEdit_insertString 0 "X" None None;
                ModelEdit_deleteRange 6 1 None None] in
  let options := {| undoStopBefore := None; formatDepth := None;
                    skipFormat := Some true; selection := None |} in
  activeTextEditor (demo_host "(inc 1)") = Some 7%positive
  ∧ Forall (offsets_within 7) batch
  ∧ Forall span_forward batch
  ∧ edit_callback (host := RefHost true) (demo_host "(inc 1)") batch []
    = Normal
        [builder_replace {| range_start := {| line := 0; character := 1 |};
                            range_end := {| line := 0; character := 4 |} |} "dec";
         builder_insert {| line := 0; character := 0 |} "X";
         builder_delete {| range_start := {| line := 0; character := 6 |};
                           range_end := {| line := 0; character := 7 |} |}]
  ∧ text_after 1%positive
      (edit (host := RefHost true) (fmt := ConstFormatter true) batch options
         (demo_host "(inc 1)"))
    = Some "X(dec )"%string
  ∧ Forall (offsets_within 7) [ModelEdit_changeRange 4 1 "dec" None None]
  ∧ text_after 1%positive
      (edit (host := RefHost true) (fmt := ConstFormatter true)
         [ModelEdit_changeRange 4 1 "dec" None None] options (demo_host "(inc 1)"))
    = Some "(dec 1)"%string.
Proof.
  intros batch options.
  assert (Hbackward :
    Forall (offsets_within 7) [ModelEdit_changeRange 4 1 "dec" None None])
    by (repeat constructor; cbn; lia).
  assert (Hwithin : Forall (offsets_within 7) batch)
    by (repeat constructor; cbn; lia).
  assert (Hforward : Forall span_forward batch)
    by (repeat constructor; cbn; lia).
  split; [reflexivity|]. split; [exact Hwithin|]. split; [exact Hforward|].
  split.
  - exact (proj1 (edit_applies_batch_in_list_order
      (host := RefHost true) (fmt := ConstFormatter true)
      batch options (demo_host "(inc 1)") 7%positive eq_refl)).
  - split; [|split; [exact Hbackward|]].
    + exact (proj1 (proj2 (proj2 (proj2 (edit_applies_batch_in_list_order
        (host := RefHost true) (fmt := ConstFormatter true)
        batch options (demo_host "(inc 1)") 7%positive eq_refl))))
        Hwithin Hforward eq_refl eq_refl).
    + exact (proj1 (proj2 (proj2 (proj2 (proj2 (edit_applies_batch_in_list_order
        (host := RefHost true) (fmt := ConstFormatter true)
        [ModelEdit_changeRange 4 1 "dec" None None] options
        (demo_host "(inc 1)") 7%positive eq_refl)))))
        Hbackward eq_refl eq_refl).
Defined.

(** *** The selection setter and what follows the commit *)

Section AfterCommitFacts.
Context {host : HostAPI} {fmt : FormatterAPI}.

Lemma set_selection_active (s : ModelEditSelection) (h1 : Host) (ed1 : EditorId) :
  activeTextEditor h1 = Some ed1 →
  let doc1 := textDocuments h1 (editor_document (editors h1 ed1)) in
  ∃ h2,
    set_selection s h1 = Normal h2
    ∧ editor_selection (editors h2 ed1)
      = {| sel_anchor := positionAt doc1 (anchor s);
           sel_active := positionAt doc1 (active s) |}
    ∧ editor_revealed (editors h2 ed1)
      = Some {| range_start := positionAt doc1 (active s);
                range_end := positionAt doc1 (active s) |}
    ∧ editor_document (editors h2 ed1) = editor_document (editors h1 ed1)
    ∧ (∀ e, e ≠ ed1 → editors h2 e = editors h1 e)
    ∧ textDocuments h2 = textDocuments h1
    ∧ activeTextEditor h2 = activeTextEditor h1.
Proof.
  intros Hed doc1. unfold set_selection. rewrite Hed.
  eexists. split; [reflexivity|].
  cbn [editors textDocuments activeTextEditor].
  rewrite fn_lookup_insert.
  cbn [editor_selection editor_revealed editor_document].
  rewrite new_Range_same.
  repeat split.
  intros e Hne. apply fn_lookup_insert_ne. congruence.
Qed.

Lemma set_selection_inactive (s : ModelEditSelection) (h1 : Host) :
  activeTextEditor h1 = None → set_selection s h1 = Throw TypeError.
Proof. intros Hed. unfold set_selection. rewrite Hed. reflexivity. Qed.

Lemma edit_then_failed (options : ModelEditOptions) (ed : EditorId) (h1 : Host) :
  edit_then options ed h1 (Fulfilled false) = (h1, Fulfilled false).
Proof. reflexivity. Qed.

Lemma edit_then_committed (options : ModelEditOptions) (ed : EditorId)
    (h1 h2 : Host) :
  edit_then_selection options h1 = Normal h2 →
  edit_then options ed h1 (Fulfilled true)
  = if default false (skipFormat options)
    then (h2, Fulfilled true)
    else formatPosition h2 ed false
           {| format_depth := number_or (formatDepth options) 1 |}.
Proof.
  intros Hsel. unfold edit_then, truthy. rewrite Hsel.
  destruct (default false (skipFormat options)); reflexivity.
Qed.

End AfterCommitFacts.

(** The promise of [edit] can resolve to [false] although the host
    transaction committed: the reference editor commits the insert, the
    formatter's promise resolves to [false], and so does the promise of
    [edit]. *)
Lemma edit_resolves_false_after_commit :
  snd (editor_edit (HostAPI := RefHost true) (demo_host "(inc 1)") 7%positive
         [builder_insert {| line := 0; character := 0 |} "X"]
         {| edit_undoStopBefore := false; edit_undoStopAfter := false |})
  = Fulfilled true
  ∧ text_after 1%positive
      (edit (host := RefHost true) (fmt := ConstFormatter false)
         [ModelEdit_insertString 0 "X" None None] no_options (demo_host "(inc 1)"))
    = Some "X(inc 1)"%string
  ∧ settled_as
      (edit (host := RefHost true) (fmt := ConstFormatter false)
         [ModelEdit_insertString 0 "X" None None] no_options (demo_host "(inc 1)"))
    = Some (Fulfilled false).
Proof. repeat split. Qed.

(** C1, as the code has it.  With an editor active at the call, [edit]
    returns a promise.  When the host transaction resolves to [false],
    the promise resolves to [false] in the host state the transaction
    left.  When the transaction resolves to [true] and the selection step
    has run, the promise resolves to [true] if [options.skipFormat] is
    set, and otherwise settles as the promise of
    [formatter.formatPosition] does.  When the promise of the transaction
    is rejected, so is the promise of [edit]. *)
Theorem edit_resolves_to_commit_or_formatter
    {host : HostAPI} {fmt : FormatterAPI}
    (edits : list ModelEdit) (options : ModelEditOptions) (h : Host)
    (ed : EditorId) :
  activeTextEditor h = Some ed →
  let doc := textDocuments h (editor_document (editors h ed)) in
  let calls := concat (map (dispatched doc) edits) in
  let stops := {| edit_undoStopBefore := default false (undoStopBefore options);
                  edit_undoStopAfter := false |} in
  (∃ promise, edit edits options h = Normal promise)
  ∧ (∀ h1 isFulfilled,
      editor_edit h ed calls stops = (h1, Fulfilled isFulfilled) →
      (isFulfilled = false →
         edit edits options h = Normal (h1, Fulfilled false))
      ∧ (isFulfilled = true →
         ∀ h2, edit_then_selection options h1 = Normal h2 →
           (default false (skipFormat options) = true →
              edit edits options h = Normal (h2, Fulfilled true))
           ∧ (default false (skipFormat options) = false →
              edit edits options h
              = Normal (formatPosition h2 ed false
                          {| format_depth := number_or (formatDepth options) 1 |}))))
  ∧ (∀ h1 e,
      editor_edit h ed calls stops = (h1, Rejected e) →
      edit edits options h = Normal (h1, Rejected e)).
Proof.
  intros Hed doc calls stops.
  rewrite (edit_active _ _ _ _ Hed). fold doc calls stops.
  split; [eexists; reflexivity|]. split.
  - intros h1 isFulfilled Hcommit. rewrite Hcommit. cbn [fst snd].
    split.
    + intros ->. reflexivity.
    + intros -> h2 Hsel. rewrite (edit_then_committed _ _ _ _ Hsel).
      split; intros ->; reflexivity.
  - intros h1 e Hcommit. rewrite Hcommit. reflexivity.
Qed.

Lemma edit_resolves_to_commit_or_formatter_witness :
  activeTextEditor (demo_host "(inc 1)") = Some 7%positive
  ∧ editor_edit (HostAPI := RefHost false) (demo_host "(inc 1)") 7%positive
      [builder_insert {| line := 0; character := 0 |} "X"]
      {| edit_undoStopBefore := false; edit_undoStopAfter := false |}
    = (demo_host "(inc 1)", Fulfilled false)
  ∧ edit (host := RefHost false) (fmt := ConstFormatter true)
      [ModelEdit_insertString 0 "X" None None] no_options (demo_host "(inc 1)")
    = Normal (demo_host "(inc 1)", Fulfilled false).
Proof.
  split; [reflexivity|]. split; [reflexivity|].
  exact (proj1 (proj1 (proj2 (edit_resolves_to_commit_or_formatter
    (host := RefHost false) (fmt := ConstFormatter true)
    [ModelEdit_insertString 0 "X" None None] no_options (demo_host "(inc 1)")
    7%positive eq_refl)) (demo_host "(inc 1)") false eq_refl) eq_refl).
Defined.

(** With [options.formatDepth] equal to 0 the formatter is not given the
    depth 0: the transaction commits, the probing formatter for depth 0
    answers [false] and the one for depth 1 answers [true]. *)
Lemma edit_formatDepth_zero_formats_at_depth_one :
  let options := {| undoStopBefore := None; formatDepth := Some 0;
                    skipFormat := None; selection := None |} in
  snd (editor_edit (HostAPI := RefHost true) (demo_host "(inc 1)") 7%positive
         [builder_insert {| line := 0; character := 0 |} "X"]
         {| edit_undoStopBefore := false; edit_undoStopAfter := false |})
  = Fulfilled true
  ∧ settled_as
      (edit (host := RefHost true) (fmt := DepthProbe 0)
         [ModelEdit_insertString 0 "X" None None] options (demo_host "(inc 1)"))
    = Some (Fulfilled false)
  ∧ settled_as
      (edit (host := RefHost true) (fmt := DepthProbe 1)
         [ModelEdit_insertString 0 "X" None None] options (demo_host "(inc 1)"))
    = Some (Fulfilled true).
Proof. intros options. repeat split; reflexivity. Qed.

(** C6, as the code has it.  The transaction is opened with
    [undoStopBefore] as given, [false] when absent, and no undo stop
    after.  When it commits: a selection in the options is given to the
    editor that is active at that time, as the positions of its anchor
    and active offsets in that editor's document, and the empty range at
    the active position is revealed; then, unless [skipFormat] is set,
    the formatter is called with the editor of the call, [false], and a
    format depth that is [formatDepth] when this is present and not 0,
    and 1 otherwise.  When the transaction does not commit, the promise
    resolves to [false] in the host state the transaction left: no
    selection is set and the formatter is not called.  (A selection with
    no editor active at that time rejects the promise.) *)
Theorem edit_after_commit
    {host : HostAPI} {fmt : FormatterAPI}
    (edits : list ModelEdit) (options : ModelEditOptions) (h : Host)
    (ed : EditorId) :
  activeTextEditor h = Some ed →
  let doc := textDocuments h (editor_document (editors h ed)) in
  let calls := concat (map (dispatched doc) edits) in
  let stops := {| edit_undoStopBefore := default false (undoStopBefore options);
                  edit_undoStopAfter := false |} in
  let depth := match formatDepth options with
               | Some n => if n =? 0 then 1 else n
               | None => 1
               end in
  (undoStopBefore options = None → edit_undoStopBefore stops = false)
  ∧ (formatDepth options = None → depth = 1)
  ∧ ∀ h1 isFulfilled,
      editor_edit h ed calls stops = (h1, Fulfilled isFulfilled) →
      (isFulfilled = false →
         edit edits options h = Normal (h1, Fulfilled false))
      ∧ (isFulfilled = true → selection options = None →
         edit edits options h
         = Normal (if default false (skipFormat options)
                   then (h1, Fulfilled true)
                   else formatPosition h1 ed false {| format_depth := depth |}))
      ∧ (isFulfilled = true →
         ∀ s ed1, selection options = Some s → activeTextEditor h1 = Some ed1 →
           let doc1 := textDocuments h1 (editor_document (editors h1 ed1)) in
           ∃ h2,
             editor_selection (editors h2 ed1)
             = {| sel_anchor := positionAt doc1 (anchor s);
                  sel_active := positionAt doc1 (active s) |}
             ∧ editor_revealed (editors h2 ed1)
               = Some {| range_start := positionAt doc1 (active s);
                         range_end := positionAt doc1 (active s) |}
             ∧ editor_document (editors h2 ed1) = editor_document (editors h1 ed1)
             ∧ (∀ e, e ≠ ed1 → editors h2 e = editors h1 e)
             ∧ textDocuments h2 = textDocuments h1
             ∧ activeTextEditor h2 = activeTextEditor h1
             ∧ edit edits options h
               = Normal (if default false (skipFormat options)
                         then (h2, Fulfilled true)
                         else formatPosition h2 ed false {| format_depth := depth |}))
      ∧ (isFulfilled = true →
         ∀ s, selection options = Some s → activeTextEditor h1 = None →
           edit edits options h = Normal (h1, Rejected TypeError)).
Proof.
  intros Hed doc calls stops depth.
  split; [intros Hstop; subst stops; rewrite Hstop; reflexivity|].
  split; [intros Hdepth; subst depth; rewrite Hdepth; reflexivity|].
  intros h1 isFulfilled Hcommit.
  rewrite (edit_active _ _ _ _ Hed). fold doc calls stops.
  rewrite Hcommit. cbn [fst snd].
  split; [|split; [|split]]; cycle 3.
  - intros -> s Hsel Hnone. unfold edit_then, edit_then_selection.
    rewrite Hsel, (set_selection_inactive _ _ Hnone). reflexivity.
  - intros ->. reflexivity.
  - intros -> Hsel.
    rewrite (edit_then_committed _ _ h1 h1)
      by (unfold edit_then_selection; rewrite Hsel; reflexivity).
    reflexivity.
  - intros -> s ed1 Hsel Hed1. cbv zeta.
    destruct (set_selection_active s h1 ed1 Hed1)
      as (h2 & Hset & Hselection & Hrevealed & Hdoc & Hothers & Hdocs & Hactive).
    exists h2. repeat (split; [assumption|]).
    rewrite (edit_then_committed _ _ h1 h2)
      by (unfold edit_then_selection; rewrite Hsel; exact Hset).
    reflexivity.
Qed.

Lemma edit_after_commit_witness :
  let options := {| undoStopBefore := None; formatDepth := Some 3;
                    skipFormat := None;
                    selection := Some {| anchor := 2; active := 4 |} |} in
  let h1 := fst (editor_edit (HostAPI := RefHost true) (demo_host "(inc 1)")
                   7%positive
                   [builder_insert {| line := 0; character := 0 |} "X"]
                   {| edit_undoStopBefore := false; edit_undoStopAfter := false |}) in
  activeTextEditor (demo_host "(inc 1)") = Some 7%positive
  ∧ editor_edit (HostAPI := RefHost true) (demo_host "(inc 1)") 7%positive
      [builder_insert {| line := 0; character := 0 |} "X"]
      {| edit_undoStopBefore := false; edit_undoStopAfter := false |}
    = (h1, Fulfilled true)
  ∧ selection options = Some {| anchor := 2; active := 4 |}
  ∧ activeTextEditor h1 = Some 7%positive
  ∧ ∃ h2,
      editor_selection (editors h2 7%positive)
      = {| sel_anchor := {| line := 0; character := 2 |};
           sel_active := {| line := 0; character := 4 |} |}
      ∧ editor_revealed (editors h2 7%positive)
        = Some {| range_start := {| line := 0; character := 4 |};
                  range_end := {| line := 0; character := 4 |} |}
      ∧ edit (host := RefHost true) (fmt := DepthProbe 3)
          [ModelEdit_insertString 0 "X" None None] options (demo_host "(inc 1)")
        = Normal (h2, Fulfilled true).
Proof.
  intros options h1.
  split; [reflexivity|]. split; [reflexivity|].
  split; [reflexivity|]. split; [reflexivity|].
  destruct (proj1 (proj2 (proj2 (proj2 (proj2 (edit_after_commit
    (host := RefHost true) (fmt := DepthProbe 3)
    [ModelEdit_insertString 0 "X" None None] options (demo_host "(inc 1)")
    7%positive eq_refl)) h1 true eq_refl))) eq_refl
    {| anchor := 2; active := 4 |} 7%positive eq_refl eq_refl)
    as (h2 & Hselection & Hrevealed & _ & _ & _ & _ & Hedit).
  exists h2. split; [exact Hselection|]. split; [exact Hrevealed|].
  exact Hedit.
Defined.

(** *** MirroredDocument.insertString *)

Lemma offset_of_le (s : string) (l c : nat) :
  (offset_of s l c ≤ String.length s)%nat.
Proof.
  revert l c. induction s as [|ch s' IH]; intros l c; [cbn; lia|].
  cbn [offset_of String.length].
  destruct l as [|l'].
  - destruct c as [|c']; [lia|].
    destruct (Ascii.eqb ch LF); [lia|]. specialize (IH O c'). lia.
  - specialize (IH (if Ascii.eqb ch LF then l' else S l') c). lia.
Qed.

Lemma ref_offsetAt_range (doc : TextDocument) (p : Position) :
  0 <= ref_offsetAt doc p <= Z.of_nat (String.length (getText doc)).
Proof.
  unfold ref_offsetAt.
  pose proof (offset_of_le (getText doc) (Z.to_nat (line p))
                (Z.to_nat (character p))).
  lia.
Qed.

(** The text does not go to the left edge of a selection made backward:
    with the anchor at offset 3 and the active end at offset 1 of
    "(inc 1)", the left edge is 1, [selectionLeft] is 3, and the text is
    inserted at 3, the right edge. *)
Lemma insertString_at_right_edge_of_backward_selection :
  let this := {| document := 1%positive; model := demo_model; selectionStack := [] |} in
  let h := demo_host_backward "(inc 1)" in
  let doc := textDocuments h 1%positive in
  left_edge (host := RefHost true) doc (editor_selection (editors h 7%positive)) = 1
  ∧ right_edge (host := RefHost true) doc (editor_selection (editors h 7%positive)) = 3
  ∧ selectionLeft (host := RefHost true) this h = Normal 3
  ∧ ∃ h',
      insertString (host := RefHost true) this "comment " h = Normal h'
      ∧ getText (textDocuments h' 1%positive) = "(incomment c 1)"%string
      ∧ getText (textDocuments h' 1%positive)
        ≠ splice "(inc 1)" 1 1 "comment ".
Proof.
  intros this h doc.
  split; [reflexivity|]. split; [reflexivity|]. split; [reflexivity|].
  eexists. split; [reflexivity|]. split; [reflexivity|]. discriminate.
Qed.

(** C9, as the code has it.  For every text and every selection of the
    active editor, [insertString] asks the workspace for one edit of the
    mirror's document: the insert of the text at the position of
    [selectionLeft], which is the offset of the selection's anchor.  For
    a selection made forward this is its left edge; for one made
    backward it is its right edge, and not the left one.  Once the
    promise of that edit is fulfilled, the editor is given the selection
    it had before: the selection after the operation is the selection
    before it, and nothing else of the state the workspace edit left is
    touched.  When the promise is rejected, the state is left as the
    workspace edit left it.  With the reference editor the text of the
    document has the inserted text at the anchor's offset. *)
Theorem insertString_restores_selection
    {host : HostAPI} (this : MirroredDocument) (text : string) (h : Host)
    (ed : EditorId) :
  activeTextEditor h = Some ed →
  let before := editor_selection (editors h ed) in
  let doc := textDocuments h (document this) in
  let at_anchor := offsetAt doc (sel_anchor before) in
  let at_active := offsetAt doc (sel_active before) in
  let wsEdit := [(uri doc, [TextEdit_insert (positionAt doc at_anchor) text])] in
  selectionLeft this h = Normal at_anchor
  ∧ (at_anchor <= at_active →
     selectionLeft this h = Normal (left_edge doc before))
  ∧ (at_active < at_anchor →
     selectionLeft this h = Normal (right_edge doc before)
     ∧ selectionLeft this h ≠ Normal (left_edge doc before))
  ∧ (∀ h1 v, applyEdit h wsEdit = (h1, Fulfilled v) →
     ∃ h',
       insertString this text h = Normal h'
       ∧ editor_selection (editors h' ed) = before
       ∧ editor_document (editors h' ed) = editor_document (editors h1 ed)
       ∧ editor_revealed (editors h' ed) = editor_revealed (editors h1 ed)
       ∧ (∀ e, e ≠ ed → editors h' e = editors h1 e)
       ∧ textDocuments h' = textDocuments h1
       ∧ activeTextEditor h' = activeTextEditor h1)
  ∧ (∀ h1 e, applyEdit h wsEdit = (h1, Rejected e) →
     insertString this text h = Normal h1)
  ∧ ∃ h',
      insertString (host := RefHost true) this text h = Normal h'
      ∧ editor_selection (editors h' ed) = before
      ∧ getText (textDocuments h' (document this))
        = splice (getText doc)
            (ref_offsetAt doc (sel_anchor before))
            (ref_offsetAt doc (sel_anchor before)) text.
Proof.
  intros Hed before doc at_anchor at_active wsEdit.
  assert (Hleft : selectionLeft this h = Normal at_anchor).
  { unfold selectionLeft. rewrite Hed. reflexivity. }
  split; [exact Hleft|]. split; [|split; [|split; [|split]]].
  - intros Hforward. rewrite Hleft. unfold left_edge.
    fold doc at_anchor at_active. rewrite Z.min_l by exact Hforward.
    reflexivity.
  - intros Hbackward. rewrite Hleft. unfold left_edge, right_edge.
    fold doc at_anchor at_active.
    rewrite Z.max_l, Z.min_r by lia.
    split; [reflexivity|]. intros Hsame. injection Hsame as Hsame. lia.
  - intros h1 v Happlied. unfold insertString. rewrite Hed, Hleft.
    cbn [mbind Exc_bind mret Exc_ret].
    fold before doc. fold wsEdit. rewrite Happlied.
    eexists. split; [reflexivity|].
    unfold assign_selection. cbn [editors textDocuments activeTextEditor].
    rewrite fn_lookup_insert. repeat split.
    intros e Hne. apply fn_lookup_insert_ne. congruence.
  - intros h1 e Happlied. unfold insertString. rewrite Hed, Hleft.
    cbn [mbind Exc_bind mret Exc_ret].
    fold before doc. fold wsEdit. rewrite Happlied. reflexivity.
  - unfold insertString, selectionLeft.
    rewrite Hed. cbn [mbind Exc_bind mret Exc_ret applyEdit RefHost ref_applyEdit].
    eexists. split; [reflexivity|].
    unfold assign_selection. cbn [editors textDocuments activeTextEditor].
    rewrite fn_lookup_insert. split; [reflexivity|].
    cbn [with_text getText fold_left fst snd positionAt offsetAt RefHost
         ref_apply_TextEdit].
    fold doc. rewrite String.eqb_refl.
    rewrite ref_offsetAt_positionAt by apply ref_offsetAt_range.
    reflexivity.
Qed.

Lemma insertString_restores_selection_witness :
  let this := {| document := 1%positive; model := demo_model; selectionStack := [] |} in
  let before := {| sel_anchor := {| line := 0; character := 1 |};
                   sel_active := {| line := 0; character := 3 |} |} in
  let backward := {| sel_anchor := {| line := 0; character := 3 |};
                     sel_active := {| line := 0; character := 1 |} |} in
  activeTextEditor (demo_host "(inc 1)") = Some 7%positive
  ∧ snd (applyEdit (HostAPI := RefHost true) (demo_host "(inc 1)")
           [("file:///core.clj"%string,
             [TextEdit_insert {| line := 0; character := 1 |} "comment "])])
    = Fulfilled true
  ∧ (∃ h',
      insertString (host := RefHost true) this "comment " (demo_host "(inc 1)")
      = Normal h'
      ∧ editor_selection (editors h' 7%positive) = before
      ∧ getText (textDocuments h' 1%positive) = "(comment inc 1)"%string)
  ∧ activeTextEditor (demo_host_backward "(inc 1)") = Some 7%positive
  ∧ snd (applyEdit (HostAPI := RefHost true) (demo_host_backward "(inc 1)")
           [("file:///core.clj"%string,
             [TextEdit_insert {| line := 0; character := 3 |} "comment "])])
    = Fulfilled true
  ∧ ∃ h',
      insertString (host := RefHost true) this "comment "
        (demo_host_backward "(inc 1)")
      = Normal h'
      ∧ editor_selection (editors h' 7%positive) = backward
      ∧ getText (textDocuments h' 1%positive) = "(incomment c 1)"%string.
Proof.
  intros this before backward.
  split; [reflexivity|]. split; [reflexivity|]. split.
  - destruct (proj1 (proj2 (proj2 (proj2 (insertString_restores_selection
      (host := RefHost true)
      this "comment " (demo_host "(inc 1)") 7%positive eq_refl))))
      _ true eq_refl)
      as (h' & Hrun & Hselection & _ & _ & _ & Hdocs & _).
    exists h'. split; [exact Hrun|]. split; [exact Hselection|].
    rewrite Hdocs. reflexivity.
  - split; [reflexivity|]. split; [reflexivity|].
    destruct (proj1 (proj2 (proj2 (proj2 (insertString_restores_selection
      (host := RefHost true)
      this "comment " (demo_host_backward "(inc 1)") 7%positive eq_refl))))
      _ true eq_refl)
      as (h' & Hrun & Hselection & _ & _ & _ & Hdocs & _).
    exists h'. split; [exact Hrun|]. split; [exact Hselection|].
    rewrite Hdocs. reflexivity.
Defined.

(** *** The registry over the life of the documents *)

Section LifecycleFacts.
Context {host : HostAPI} {lim : LineInputModelAPI}.

Lemma addDocument_registered (doc : option DocId) (h : Host) (st : Registry) :
  registered (snd (addDocument doc h st)) = registered st.
Proof.
  unfold addDocument. destruct doc as [d|]; [|reflexivity].
  destruct (String.eqb _ _); [|reflexivity].
  destruct (negb _); reflexivity.
Qed.

Lemma addDocument_keyed (doc : option DocId) (h : Host) (st : Registry) :
  mirrors_keyed st → mirrors_keyed (snd (addDocument doc h st)).
Proof.
  intros Hkeyed. unfold addDocument. destruct doc as [d|]; [|exact Hkeyed].
  destruct (String.eqb _ _); [|exact Hkeyed].
  destruct (negb _); [|exact Hkeyed].
  intros d' mirror. cbn [snd documents].
  destruct (decide (d = d')) as [->|Hne].
  - rewrite lookup_insert_eq. intros [= <-]. reflexivity.
  - rewrite lookup_insert_ne by exact Hne. apply Hkeyed.
Qed.

Lemma onDidCloseTextDocument_keyed (e : DocId) (h : Host) (st : Registry) :
  mirrors_keyed st → mirrors_keyed (onDidCloseTextDocument e h st).
Proof.
  intros Hkeyed. unfold onDidCloseTextDocument.
  destruct (String.eqb _ _); [|exact Hkeyed].
  intros d mirror. cbn [documents].
  destruct (decide (e = d)) as [->|Hne].
  - rewrite lookup_delete_eq. discriminate.
  - rewrite lookup_delete_ne by exact Hne. apply Hkeyed.
Qed.

Lemma flushed_and_cleared_keyed (st : Registry) (d : DocId)
    (mirror : MirroredDocument) (m : DocumentModel) :
  mirrors_keyed st → documents st !! d = Some mirror →
  mirrors_keyed (flushed_and_cleared st d mirror m).
Proof.
  intros Hkeyed Hreg d' mirror'. unfold flushed_and_cleared. cbn [documents].
  destruct (decide (d = d')) as [->|Hne].
  - rewrite lookup_insert_eq. intros [= <-]. cbn [document].
    apply Hkeyed, Hreg.
  - rewrite lookup_insert_ne by exact Hne. apply Hkeyed.
Qed.

Lemma handle_keyed (ev : HostEvent) (h : Host) (st : Registry) :
  mirrors_keyed st →
  ∃ st', handle ev h st = Normal st'
         ∧ mirrors_keyed st'
         ∧ registered st' = registered st.
Proof.
  intros Hkeyed. destruct ev as [e|e|doc|e]; cbn [handle].
  - eexists. split; [reflexivity|]. split.
    + apply onDidCloseTextDocument_keyed, Hkeyed.
    + unfold onDidCloseTextDocument. destruct (String.eqb _ _); reflexivity.
  - eexists. split; [reflexivity|]. unfold onDidChangeActiveTextEditor.
    destruct e as [editor|]; [|split; [exact Hkeyed|reflexivity]].
    destruct (String.eqb _ _); [|split; [exact Hkeyed|reflexivity]].
    split; [apply addDocument_keyed, Hkeyed|apply addDocument_registered].
  - eexists. split; [reflexivity|]. unfold onDidOpenTextDocument.
    split; [apply addDocument_keyed, Hkeyed|apply addDocument_registered].
  - unfold onDidChangeTextDocument.
    pose proof (addDocument_keyed (Some (event_document e)) h st Hkeyed) as Hadd.
    pose proof (addDocument_registered (Some (event_document e)) h st) as Hflag.
    unfold addDocument in *.
    destruct (String.eqb _ _); [|eexists; split; [reflexivity|split; assumption]].
    destruct (documents st !! event_document e) as [mirror|] eqn:Hreg.
    + rewrite bool_decide_eq_true_2 by (eexists; reflexivity).
      cbn [negb]. rewrite (processChanges_registered _ _ _ Hreg).
      eexists. split; [reflexivity|]. split.
      * apply flushed_and_cleared_keyed; assumption.
      * reflexivity.
    + rewrite bool_decide_eq_false_2 in * by (intros [? ?]; discriminate).
      cbn [negb] in *.
      eexists. split; [reflexivity|]. split; assumption.
Qed.

Lemma deliver_to_keyed (ls : list Listener) (ev : HostEvent) (h : Host)
    (st : Registry) :
  mirrors_keyed st →
  ∃ st', deliver_to ls ev h st = Normal st'
         ∧ mirrors_keyed st'
         ∧ registered st' = registered st.
Proof.
  revert st. induction ls as [|l ls IH]; intros st Hkeyed.
  - eexists. split; [reflexivity|]. split; [exact Hkeyed|reflexivity].
  - cbn [deliver_to]. destruct (listens l ev).
    + destruct (handle_keyed ev h st Hkeyed) as (st1 & -> & Hkeyed1 & Hflag1).
      cbn [mbind Exc_bind].
      destruct (IH st1 Hkeyed1) as (st2 & -> & Hkeyed2 & Hflag2).
      eexists. split; [reflexivity|]. split; [exact Hkeyed2|congruence].
    + cbn [mbind Exc_bind mret Exc_ret]. apply IH, Hkeyed.
Qed.

End LifecycleFacts.

(** X1.  Whatever events the editor delivers, in whatever host states and
    to whatever subscriptions, no handler of the module throws: the
    session returns; every mirror stays registered under the document it
    mirrors; the subscriptions and the [registered] flag stay as they
    were. *)
Theorem deliver_all_returns
    {lim : LineInputModelAPI}
    (events : list (Host * HostEvent)) (ext : Extension) :
  mirrors_keyed (ext_registry ext) →
  ∃ ext',
    deliver_all events ext = Normal ext'
    ∧ mirrors_keyed (ext_registry ext')
    ∧ ext_listeners ext' = ext_listeners ext
    ∧ registered (ext_registry ext') = registered (ext_registry ext).
Proof.
  revert ext. induction events as [|[h ev] events IH]; intros ext Hkeyed.
  - eexists. split; [reflexivity|]. split; [exact Hkeyed|]. split; reflexivity.
  - cbn [deliver_all]. unfold deliver.
    destruct (deliver_to_keyed (ext_listeners ext) ev h _ Hkeyed)
      as (st1 & -> & Hkeyed1 & Hflag1).
    cbn [mbind Exc_bind mret Exc_ret].
    destruct (IH {| ext_registry := st1; ext_listeners := ext_listeners ext |}
                Hkeyed1) as (ext' & -> & Hkeyed' & Hls & Hflag').
    eexists. split; [reflexivity|]. split; [exact Hkeyed'|].
    split; [exact Hls|]. cbn [ext_registry] in Hflag'. congruence.
Qed.

Lemma demo_registry_keyed : mirrors_keyed demo_registry.
Proof.
  intros d mirror Hreg. unfold demo_registry in Hreg. cbn [documents] in Hreg.
  apply lookup_singleton_Some in Hreg as [<- <-]. reflexivity.
Qed.

Lemma deliver_all_returns_witness :
  let ext :=
    {| ext_registry := demo_registry;
       ext_listeners :=
         [listener_close; listener_activeEditor; listener_open; listener_change] |} in
  let events :=
    [(demo_host "abc", DidChangeTextDocument
        {| event_document := 1%positive;
           contentChanges := [demo_change 0 1 0 2 "X"] |});
     (demo_host "aXc", DidCloseTextDocument 1%positive);
     (demo_host "aXc", DidChangeTextDocument
        {| event_document := 1%positive;
           contentChanges := [demo_change 7 0 7 0 "Y"] |});
     (demo_host "aXc", DidOpenTextDocument 2%positive)] in
  mirrors_keyed (ext_registry ext)
  ∧ ∃ ext',
      deliver_all (lim := RefLineInputModel) events ext
      = Normal ext'
      ∧ mirrors_keyed (ext_registry ext')
      ∧ ext_listeners ext' = ext_listeners ext
      ∧ registered (ext_registry ext') = registered (ext_registry ext).
Proof.
  intros ext events.
  split; [exact demo_registry_keyed|].
  exact (deliver_all_returns (lim := RefLineInputModel)
           events ext demo_registry_keyed).
Defined.

Section ActivationFacts.
Context {host : HostAPI} {lim : LineInputModelAPI}.

Lemma deliver_to_activated (ev : HostEvent) (h : Host) (st : Registry) :
  deliver_to [listener_close; listener_activeEditor; listener_open; listener_change]
    ev h st
  = handle ev h st.
Proof.
  destruct ev; cbn [deliver_to listens mbind Exc_bind mret Exc_ret handle];
    try reflexivity.
  destruct (onDidChangeTextDocument e h st); reflexivity.
Qed.

End ActivationFacts.

(** X2.  [activate] does its work once.  On an extension that is not yet
    registered and has no subscription, the first call sets the flag and
    subscribes one handler for each of the four events; any later call,
    in any host state, changes nothing.  So however often the extension
    is activated, each event the editor delivers is handled exactly once. *)
Theorem activate_subscribes_once
    {lim : LineInputModelAPI}
    (util_getDocument : Host → option DocId) (h1 : Host) (ext : Extension) :
  registered (ext_registry ext) = false →
  ext_listeners ext = [] →
  let ext1 := activate util_getDocument h1 ext in
  registered (ext_registry ext1) = true
  ∧ ext_registry ext1
    = snd (addDocument (util_getDocument h1) h1
             {| documents := documents (ext_registry ext); registered := true |})
  ∧ (∀ hs, fold_left (λ e h, activate util_getDocument h e) hs ext1 = ext1)
  ∧ (∀ ev h,
       deliver ev h ext1
       = st ← handle ev h (ext_registry ext1);
         mret {| ext_registry := st; ext_listeners := ext_listeners ext1 |}).
Proof.
  intros Hflag Hnone ext1.
  assert (Hreg1 : registered (ext_registry ext1) = true).
  { subst ext1. unfold activate. rewrite Hflag. cbn [ext_registry].
    rewrite addDocument_registered. reflexivity. }
  split; [exact Hreg1|]. split; [|split].
  - subst ext1. unfold activate. rewrite Hflag. reflexivity.
  - intros hs. induction hs as [|h hs IH]; [reflexivity|].
    cbn [fold_left]. unfold activate at 2. rewrite Hreg1. exact IH.
  - intros ev h. unfold deliver.
    replace (ext_listeners ext1)
      with [listener_close; listener_activeEditor; listener_open; listener_change]
      by (subst ext1; unfold activate; rewrite Hflag, Hnone; reflexivity).
    rewrite deliver_to_activated. reflexivity.
Qed.

Lemma activate_subscribes_once_witness :
  registered (ext_registry demo_extension) = false
  ∧ ext_listeners demo_extension = []
  ∧ ext_listeners
      (activate (lim := RefLineInputModel) activeDocument (demo_host "abc")
         (activate (lim := RefLineInputModel) activeDocument (demo_host "abc")
            demo_extension))
    = [listener_close; listener_activeEditor; listener_open; listener_change].
Proof.
  split; [reflexivity|]. split; [reflexivity|].
  exact (f_equal ext_listeners
    (proj1 (proj2 (proj2 (activate_subscribes_once
       (lim := RefLineInputModel)
       activeDocument (demo_host "abc") demo_extension eq_refl eq_refl)))
       [demo_host "abc"])).
Defined.

(** X3.  Closing a document of language "clojure" removes its mirror and
    no other: the lookup of the document answers nothing, so
    [getDocumentOffset] and [processChanges] throw for it, while every
    other document keeps its mirror; registering the document again
    answers [false] and stores a mirror anew.  Closing a document whose
    language is not "clojure" at that time changes nothing, so a mirror
    registered for it stays. *)
Theorem onDidCloseTextDocument_forgets
    {lim : LineInputModelAPI} (d : DocId) (h : Host) (st : Registry) :
  (languageId (textDocuments h d) = "clojure"%string →
     let st' := onDidCloseTextDocument d h st in
     getDocument d st' = None
     ∧ (∀ d', d' ≠ d → getDocument d' st' = getDocument d' st)
     ∧ (∀ position, getDocumentOffset d position st' = Throw TypeError)
     ∧ (∀ changes,
          processChanges {| event_document := d; contentChanges := changes |} st'
          = Throw TypeError)
     ∧ (∀ h', languageId (textDocuments h' d) = "clojure"%string →
          fst (addDocument (Some d) h' st') = false
          ∧ is_Some (getDocument d (snd (addDocument (Some d) h' st')))))
  ∧ (languageId (textDocuments h d) ≠ "clojure"%string →
     onDidCloseTextDocument d h st = st).
Proof.
  split.
  - intros Hlang st'.
    assert (Hgone : documents st' !! d = None).
    { subst st'. unfold onDidCloseTextDocument.
      rewrite Hlang, String.eqb_refl. apply lookup_delete_eq. }
    split; [exact Hgone|]. split; [|split; [|split]].
    + intros d' Hne. subst st'. unfold getDocument, onDidCloseTextDocument.
      rewrite Hlang, String.eqb_refl. apply lookup_delete_ne. congruence.
    + intros position. unfold getDocumentOffset, getDocument.
      rewrite Hgone. reflexivity.
    + intros changes. apply processChanges_unregistered. exact Hgone.
    + intros h' Hlang'. unfold addDocument, getDocument.
      rewrite Hlang', String.eqb_refl, Hgone.
      rewrite bool_decide_eq_false_2 by (intros [? ?]; discriminate).
      cbn [negb fst snd documents]. split; [reflexivity|].
      rewrite lookup_insert_eq. eexists. reflexivity.
  - intros Hlang. unfold onDidCloseTextDocument.
    apply String.eqb_neq in Hlang. rewrite Hlang. reflexivity.
Qed.

Lemma onDidCloseTextDocument_forgets_witness :
  (languageId (textDocuments (demo_host "abc") 1%positive) = "clojure"%string
   ∧ getDocument 1%positive
       (onDidCloseTextDocument 1%positive (demo_host "abc") demo_registry)
     = None)
  ∧ (languageId (textDocuments (demo_host "abc") 2%positive) ≠ "clojure"%string
     ∧ onDidCloseTextDocument 2%positive (demo_host "abc") demo_registry
       = demo_registry).
Proof.
  split.
  - split; [reflexivity|].
    exact (proj1 (proj1 (onDidCloseTextDocument_forgets (lim := RefLineInputModel)
      1%positive (demo_host "abc") demo_registry) eq_refl)).
  - assert (Hlang : languageId (textDocuments (demo_host "abc") 2%positive)
                    ≠ "clojure"%string) by discriminate.
    split; [exact Hlang|].
    exact (proj2 (onDidCloseTextDocument_forgets (lim := RefLineInputModel)
      2%positive (demo_host "abc") demo_registry) Hlang).
Defined.

(** X4.  What the change handler does with an event depends on the
    document alone.  For a document whose language is not "clojure" it
    does nothing, even when the document has a mirror.  For a "clojure"
    document without a mirror it registers one, seeded with the text the
    document has now, and submits none of the event's changes.  For a
    "clojure" document with a mirror it is [processChanges]. *)
Theorem onDidChangeTextDocument_cases
    {lim : LineInputModelAPI} (e : TextDocumentChangeEvent) (h : Host)
    (st : Registry) :
  let d := event_document e in
  (languageId (textDocuments h d) ≠ "clojure"%string →
     onDidChangeTextDocument e h st = Normal st)
  ∧ (languageId (textDocuments h d) = "clojure"%string →
     documents st !! d = None →
     ∃ st' mirror,
       onDidChangeTextDocument e h st = Normal st'
       ∧ documents st' !! d = Some mirror
       ∧ lineInputModel (model mirror)
         = lim_insertString
             (lim_new match eol (textDocuments h d) with
                      | EndOfLine_CRLF => 2
                      | EndOfLine_LF => 1
                      end)
             0 (getText (textDocuments h d))
       ∧ ∀ d', d' ≠ d → documents st' !! d' = documents st !! d')
  ∧ (languageId (textDocuments h d) = "clojure"%string →
     is_Some (documents st !! d) →
     onDidChangeTextDocument e h st = processChanges e st).
Proof.
  intros d. unfold onDidChangeTextDocument. split; [|split].
  - intros Hlang. rewrite (addDocument_other_language _ _ _ Hlang). reflexivity.
  - intros Hlang Hnew. unfold addDocument. fold d.
    rewrite Hlang, String.eqb_refl, Hnew.
    rewrite bool_decide_eq_false_2 by (intros [? ?]; discriminate).
    cbn [negb]. eexists _, _. split; [reflexivity|].
    cbn [documents]. split; [apply lookup_insert_eq|]. split; [reflexivity|].
    intros d' Hne. apply lookup_insert_ne. congruence.
  - intros Hlang Hreg. rewrite (addDocument_tracked _ _ _ Hlang Hreg).
    reflexivity.
Qed.

Lemma onDidChangeTextDocument_cases_witness :
  let e := {| event_document := 1%positive;
              contentChanges := [demo_change 0 1 0 2 "X"] |} in
  languageId (textDocuments (demo_host "aXc") 1%positive) = "clojure"%string
  ∧ documents {| documents := ∅; registered := true |} !! 1%positive = None
  ∧ ∃ st' mirror,
      onDidChangeTextDocument (lim := RefLineInputModel) e (demo_host "aXc")
        {| documents := ∅; registered := true |}
      = Normal st'
      ∧ documents st' !! 1%positive = Some mirror
      ∧ lines (lineInputModel (model mirror)) = ["aXc"%string].
Proof.
  intros e. split; [reflexivity|]. split; [reflexivity|].
  assert (Hnew : documents {| documents := ∅; registered := true |}
                 !! event_document e = None) by reflexivity.
  destruct (proj1 (proj2 (onDidChangeTextDocument_cases (lim := RefLineInputModel)
    e (demo_host "aXc") {| documents := ∅; registered := true |}))
    eq_refl Hnew) as (st' & mirror & Hrun & Hreg & Hseed & _).
  exists st', mirror. split; [exact Hrun|]. split; [exact Hreg|].
  rewrite Hseed. reflexivity.
Defined.

(** X5.  [processChanges] touches the line model of the event's document
    and nothing else: the [registered] flag, the set of registered
    documents and the mirror of every other document stay as they were,
    and the mirror of the event's document keeps its document and its
    selection stack. *)
Theorem processChanges_frame
    {lim : LineInputModelAPI} (event : TextDocumentChangeEvent)
    (st st' : Registry) :
  processChanges event st = Normal st' →
  registered st' = registered st
  ∧ dom (documents st') = dom (documents st)
  ∧ (∀ d, d ≠ event_document event → documents st' !! d = documents st !! d)
  ∧ ∃ mirror mirror',
      documents st !! event_document event = Some mirror
      ∧ documents st' !! event_document event = Some mirror'
      ∧ document mirror' = document mirror
      ∧ selectionStack mirror' = selectionStack mirror.
Proof.
  intros Hrun.
  destruct (documents st !! event_document event) as [mirror|] eqn:Hreg.
  - rewrite (processChanges_registered _ _ _ Hreg) in Hrun.
    injection Hrun as <-. unfold flushed_and_cleared. cbn [registered documents].
    split; [reflexivity|]. split; [|split].
    + apply dom_insert_lookup_L. eexists. exact Hreg.
    + intros d Hne. apply lookup_insert_ne. congruence.
    + eexists _, _. split; [reflexivity|]. split; [apply lookup_insert_eq|].
      split; reflexivity.
  - rewrite (processChanges_unregistered _ _ Hreg) in Hrun. discriminate.
Qed.

Lemma processChanges_frame_witness :
  let event := {| event_document := 1%positive;
                  contentChanges := [demo_change 0 1 0 2 "X"] |} in
  ∃ st',
    processChanges (lim := RefLineInputModel) event demo_registry = Normal st'
    ∧ registered st' = registered demo_registry
    ∧ dom (documents st') = dom (documents demo_registry).
Proof.
  intros event. eexists. split; [reflexivity|].
  pose proof (processChanges_frame (lim := RefLineInputModel) event
                demo_registry _ eq_refl) as (Hflag & Hdom & _).
  split; [exact Hflag|exact Hdom].
Defined.

(** X6.  Setting the selection of a mirror and reading it back gives the
    selection that was set, when the active editor shows the mirror's
    document and the editor's offset/position conversion is exact at the
    two offsets.  With the reference editor this holds for every
    selection whose offsets lie in the text.  Without an active editor
    both the setter and the getter throw. *)
Theorem selection_set_then_get
    {host : HostAPI} (this : MirroredDocument) (s : ModelEditSelection)
    (h : Host) :
  (∀ ed, activeTextEditor h = Some ed →
     editor_document (editors h ed) = document this →
     let doc := textDocuments h (document this) in
     offsetAt doc (positionAt doc (anchor s)) = anchor s →
     offsetAt doc (positionAt doc (active s)) = active s →
     ∃ h2, set_selection s h = Normal h2
           ∧ get_selection this h2 = Normal s)
  ∧ (∀ ed, activeTextEditor h = Some ed →
     editor_document (editors h ed) = document this →
     let len := Z.of_nat (String.length (getText (textDocuments h (document this)))) in
     0 <= anchor s <= len → 0 <= active s <= len →
     ∃ h2, set_selection (host := RefHost true) s h = Normal h2
           ∧ get_selection (host := RefHost true) this h2 = Normal s)
  ∧ (activeTextEditor h = None →
     set_selection s h = Throw TypeError
     ∧ get_selection this h = Throw TypeError).
Proof.
  assert (Hgen : ∀ (api : HostAPI) ed,
    activeTextEditor h = Some ed →
    editor_document (editors h ed) = document this →
    @offsetAt api (textDocuments h (document this))
      (@positionAt api (textDocuments h (document this)) (anchor s)) = anchor s →
    @offsetAt api (textDocuments h (document this))
      (@positionAt api (textDocuments h (document this)) (active s)) = active s →
    ∃ h2, set_selection (host := api) s h = Normal h2
          ∧ get_selection (host := api) this h2 = Normal s).
  { intros api ed Hed Hdoc Hanchor Hactive.
    unfold set_selection. rewrite Hed. eexists. split; [reflexivity|].
    unfold get_selection, selectionLeft, selectionRight.
    cbn [activeTextEditor editors textDocuments mbind Exc_bind mret Exc_ret].
    rewrite fn_lookup_insert.
    cbn [editor_selection sel_anchor sel_active]. rewrite Hdoc.
    rewrite Hanchor, Hactive. destruct s. reflexivity. }
  split; [|split].
  - intros ed Hed Hdoc doc. apply (Hgen host ed); assumption.
  - intros ed Hed Hdoc len Hanchor Hactive.
    apply (Hgen (RefHost true) ed Hed Hdoc);
      cbn [offsetAt positionAt RefHost]; apply ref_offsetAt_positionAt; assumption.
  - intros Hnone. split.
    + apply set_selection_inactive, Hnone.
    + unfold get_selection, selectionLeft. rewrite Hnone. reflexivity.
Qed.

Lemma selection_set_then_get_witness :
  let this := {| document := 1%positive; model := demo_model; selectionStack := [] |} in
  let s := {| anchor := 5; active := 2 |} in
  activeTextEditor (demo_host "(inc 1)") = Some 7%positive
  ∧ editor_document (editors (demo_host "(inc 1)") 7%positive) = document this
  ∧ 0 <= anchor s <= 7 ∧ 0 <= active s <= 7
  ∧ ∃ h2, set_selection (host := RefHost true) s (demo_host "(inc 1)") = Normal h2
          ∧ get_selection (host := RefHost true) this h2 = Normal s.
Proof.
  intros this s.
  assert (Hanchor : 0 <= anchor s <= 7) by (cbn; lia).
  assert (Hactive : 0 <= active s <= 7) by (cbn; lia).
  split; [reflexivity|]. split; [reflexivity|].
  split; [exact Hanchor|]. split; [exact Hactive|].
  exact (proj1 (proj2 (selection_set_then_get (host := RefHost true)
    this s (demo_host "(inc 1)"))) 7%positive eq_refl eq_refl Hanchor Hactive).
Defined.

Section UnknownEditFacts.
Context {host : HostAPI}.

Lemma edit_callback_known (h : Host) (edits : list ModelEdit)
    (builder : list BuilderCall) :
  edit_callback h (List.filter is_known_edit edits) builder
  = edit_callback h edits builder.
Proof.
  revert builder. induction edits as [|e edits IH]; intros builder.
  - reflexivity.
  - destruct e; cbn [List.filter is_known_edit edit_callback];
      try (destruct (insertEdit _ _ _ _ _ _) as [b|err] ||
           destruct (replaceEdit _ _ _ _ _ _ _) as [b|err] ||
           destruct (deleteEdit _ _ _ _ _ _) as [b|err]);
      cbn [mbind Exc_bind mret Exc_ret]; try reflexivity; apply IH.
Qed.

End UnknownEditFacts.

(** X7.  An edit whose [editFn] is none of 'insertString', 'changeRange'
    and 'deleteRange' is passed over in silence: a batch behaves as the
    batch without such edits, and a batch of such edits only opens a
    transaction without any call. *)
Theorem edit_passes_over_unknown_edits
    {host : HostAPI} {fmt : FormatterAPI}
    (edits : list ModelEdit) (options : ModelEditOptions) (h : Host) :
  edit (List.filter is_known_edit edits) options h = edit edits options h
  ∧ (Forall (λ e, e = ModelEdit_other) edits →
     edit edits options h = edit [] options h
     ∧ ∀ builder, edit_callback h edits builder = Normal builder).
Proof.
  split.
  - unfold edit. rewrite edit_callback_known. reflexivity.
  - intros Hall.
    assert (Hnone : List.filter is_known_edit edits = []).
    { induction Hall as [|e edits -> Hall IH]; [reflexivity|exact IH]. }
    split.
    + unfold edit. rewrite <- (edit_callback_known h edits), Hnone. reflexivity.
    + intros builder. rewrite <- edit_callback_known, Hnone. reflexivity.
Qed.

Lemma edit_passes_over_unknown_edits_witness :
  Forall (λ e, e = ModelEdit_other) [ModelEdit_other; ModelEdit_other]
  ∧ text_after 1%positive
      (edit (host := RefHost true) (fmt := ConstFormatter true)
         [ModelEdit_other; ModelEdit_other] no_options (demo_host "(inc 1)"))
    = Some "(inc 1)"%string.
Proof.
  assert (Hall : Forall (λ e, e = ModelEdit_other) [ModelEdit_other; ModelEdit_other])
    by (repeat constructor).
  split; [exact Hall|].
  rewrite (proj1 (proj2 (edit_passes_over_unknown_edits
    (host := RefHost true) (fmt := ConstFormatter true)
    [ModelEdit_other; ModelEdit_other] no_options (demo_host "(inc 1)")) Hall)).
  reflexivity.
Defined.

(** *** Strings of the test runner *)

Lemma length_append (s t : string) :
  String.length (s +:+ t) = (String.length s + String.length t)%nat.
Proof.
  induction s as [|c s IH]; [reflexivity|].
  rewrite append_cons. cbn [String.length]. rewrite IH. reflexivity.
Qed.

Lemma append_longer (t u v : string) :
  (String.length v < String.length u)%nat → String.eqb (t +:+ u) v = false.
Proof.
  intros Hlen. apply String.eqb_neq. intros Heq.
  apply (f_equal String.length) in Heq. rewrite length_append in Heq. lia.
Qed.

Lemma strip_final_newline_cons (c : ascii) (rest : string) :
  strip_final_newline (String c rest)
  = if (Ascii.eqb c CR && String.eqb rest (String LF EmptyString))
       || (Ascii.eqb c LF && String.eqb rest EmptyString)
    then EmptyString
    else String c (strip_final_newline rest).
Proof. reflexivity. Qed.

(** X8.  The replace [/\r?\n$/ -> ""] of [reportTests] removes one final
    line terminator and nothing else: a text followed by a carriage
    return and a line feed gives the text; a text that does not end with a
    carriage return, followed by a line feed, gives the text; a text that
    does not end with a line feed is left as it is.  Only one terminator
    goes: of two final line feeds the first stays. *)
Theorem strip_final_newline_removes_one_terminator (t : string) :
  strip_final_newline (t +:+ String CR (String LF EmptyString)) = t
  ∧ ((∀ u, t ≠ u +:+ String CR EmptyString) →
     strip_final_newline (t +:+ String LF EmptyString) = t)
  ∧ ((∀ u, t ≠ u +:+ String LF EmptyString) →
     strip_final_newline t = t)
  ∧ strip_final_newline (t +:+ String LF (String LF EmptyString))
    = t +:+ String LF EmptyString.
Proof.
  split; [|split; [|split]].
  - induction t as [|c t IH]; [reflexivity|].
    rewrite append_cons, strip_final_newline_cons.
    rewrite !append_longer by (cbn; lia).
    rewrite !andb_false_r. cbn [orb]. rewrite IH. reflexivity.
  - induction t as [|c t IH]; intros Hend; [reflexivity|].
    rewrite append_cons, strip_final_newline_cons.
    rewrite (append_longer t _ EmptyString) by (cbn; lia).
    rewrite andb_false_r, orb_false_r.
    destruct (Ascii.eqb c CR && String.eqb (t +:+ String LF EmptyString)
                                   (String LF EmptyString)) eqn:Hcr.
    + apply andb_true_iff in Hcr as [Hc Ht].
      apply Ascii.eqb_eq in Hc. apply String.eqb_eq in Ht. subst c.
      destruct t as [|c' t'].
      * exfalso. apply (Hend EmptyString). reflexivity.
      * apply (f_equal String.length) in Ht.
        rewrite append_cons in Ht. cbn [String.length] in Ht.
        rewrite length_append in Ht. cbn in Ht. lia.
    + rewrite IH; [reflexivity|].
      intros u ->. apply (Hend (String c u)). reflexivity.
  - induction t as [|c t IH]; intros Hend; [reflexivity|].
    rewrite strip_final_newline_cons.
    destruct ((Ascii.eqb c CR && String.eqb t (String LF EmptyString))
              || (Ascii.eqb c LF && String.eqb t EmptyString)) eqn:Hmatch.
    + exfalso. apply orb_true_iff in Hmatch as [H|H];
        apply andb_true_iff in H as [Hc Ht];
        apply Ascii.eqb_eq in Hc; apply String.eqb_eq in Ht; subst c t.
      * apply (Hend (String CR EmptyString)). reflexivity.
      * apply (Hend EmptyString). reflexivity.
    + rewrite IH; [reflexivity|].
      intros u ->. apply (Hend (String c u)). reflexivity.
  - induction t as [|c t IH]; [reflexivity|].
    rewrite !append_cons, strip_final_newline_cons.
    rewrite !append_longer by (cbn; lia).
    rewrite !andb_false_r. cbn [orb]. rewrite IH. reflexivity.
Qed.

Lemma strip_final_newline_removes_one_terminator_witness :
  (∀ u, "expected: 1"%string ≠ u +:+ String CR EmptyString)
  ∧ strip_final_newline ("expected: 1" +:+ String LF EmptyString)
    = "expected: 1"%string.
Proof.
  assert (Hend : ∀ u, "expected: 1"%string ≠ u +:+ String CR EmptyString).
  { intros u Heq.
    do 11 (destruct u as [|? u]; [discriminate|injection Heq as _ Heq]).
    destruct u; discriminate. }
  split; [exact Hend|].
  exact (proj1 (proj2 (strip_final_newline_removes_one_terminator "expected: 1"))
           Hend).
Defined.

Lemma str_drop_append (s t : string) :
  str_drop (String.length s) (s +:+ t) = t.
Proof.
  induction s as [|c s IH]; [destruct t; reflexivity|].
  rewrite append_cons. cbn [String.length str_drop]. exact IH.
Qed.

Lemma endsWith_append (s t : string) : endsWith (s +:+ t) t = true.
Proof.
  unfold endsWith. rewrite length_append.
  replace (String.length s + String.length t - String.length t)%nat
    with (String.length s) by lia.
  rewrite str_drop_append, String.eqb_refl, andb_true_r.
  apply Nat.leb_le. lia.
Qed.

(** X9.  [considerTestNS] adds at most the one namespace [ns + '-test'],
    and adds it last.  For a namespace that ends with '-test' it resolves
    to the list it was given without asking the session anything; so it
    adds nothing for a namespace it has added.  Whenever it resolves for
    another namespace, the list has grown by [ns + '-test'], and when
    the session rejects, so does the promise. *)
Theorem considerTestNS_adds_test_namespace_once
    {Session : Type} {api : NReplSessionAPI Session}
    (ns : string) (session : Session) (nss : list string) :
  (endsWith ns "-test" = true →
     considerTestNS ns session nss = (session, Fulfilled nss))
  ∧ considerTestNS (ns +:+ "-test") session nss = (session, Fulfilled nss)
  ∧ (endsWith ns "-test" = false →
     ∀ session' nss',
       considerTestNS ns session nss = (session', Fulfilled nss') →
       nss' = nss ++ [ns +:+ "-test"]
       ∧ ∀ session'',
           considerTestNS (ns +:+ "-test") session'' nss'
           = (session'', Fulfilled nss'))
  ∧ (∀ session1 e,
       endsWith ns "-test" = false →
       session_nsPath session (ns +:+ "-test") = (session1, Rejected e) →
       considerTestNS ns session nss = (session1, Rejected e)).
Proof.
  assert (Hadded : ∀ s l,
    considerTestNS (ns +:+ "-test") s l = (s, Fulfilled l)).
  { intros s l. unfold considerTestNS. rewrite endsWith_append. reflexivity. }
  split; [|split; [|split]].
  - intros Hends. unfold considerTestNS. rewrite Hends. reflexivity.
  - apply Hadded.
  - intros Hends session' nss' Hrun. split; [|intros; apply Hadded].
    unfold considerTestNS in Hrun. rewrite Hends in Hrun. cbn [negb] in Hrun.
    destruct (session_nsPath session (ns +:+ "-test")) as [session1 [[p|]|e]];
      [|congruence|discriminate].
    destruct (negb (String.eqb p "")); [|congruence].
    destruct (session_eval_value _ _ _) as [session2 [[]|e]];
      [congruence|discriminate].
  - intros session1 e Hends Hpath. unfold considerTestNS.
    rewrite Hends, Hpath. reflexivity.
Qed.

Lemma considerTestNS_adds_test_namespace_once_witness :
  endsWith "app.core" "-test" = false
  ∧ considerTestNS (api := RecordingSession) "app.core" [] ["app.core"%string]
    = ([String.append "(load-file "
          (String DQUOTE (String.append "/src/app.core-test.clj"
             (String DQUOTE ")")))],
       Fulfilled ["app.core"; "app.core-test"]%string)
  ∧ ∀ session'',
      considerTestNS (api := RecordingSession) "app.core-test" session''
        ["app.core"; "app.core-test"]%string
      = (session'', Fulfilled ["app.core"; "app.core-test"]%string).
Proof.
  split; [reflexivity|]. split; [reflexivity|].
  exact (proj2 (proj1 (proj2 (proj2 (considerTestNS_adds_test_namespace_once
    (api := RecordingSession) "app.core" [] ["app.core"%string])))
    eq_refl _ _ eq_refl)).
Defined.

(** *** Numbers and property keys *)

Lemma js_plus_comm (a b : JsNumber) : js_plus a b = js_plus b a.
Proof. destruct a, b; cbn; try reflexivity. f_equal. lia. Qed.

Lemma js_plus_assoc (a b c : JsNumber) :
  js_plus a (js_plus b c) = js_plus (js_plus a b) c.
Proof. destruct a, b, c; cbn; try reflexivity. f_equal. lia. Qed.

Lemma js_plus_0_l (a : JsNumber) : js_plus (js_int 0) a = a.
Proof. destruct a; reflexivity. Qed.

Lemma js_plus_0_r (a : JsNumber) : js_plus a (js_int 0) = a.
Proof. rewrite js_plus_comm. apply js_plus_0_l. Qed.

(** The key of an index is read back as that index, and a key that is
    read as an index is the key of that index. *)
Lemma key_index_of_Z (i : Z) : 0 <= i → key_index (Z_to_string i) = Some i.
Proof.
  intros Hi. unfold key_index, Z_to_string.
  rewrite NilEmpty.isi. cbv zeta. rewrite DecimalZ.of_to.
  rewrite String.eqb_refl, andb_true_r.
  destruct (Z.leb_spec 0 i); [reflexivity|lia].
Qed.

Lemma key_index_Some (k : string) (i : Z) :
  key_index k = Some i → 0 <= i ∧ k = Z_to_string i.
Proof.
  unfold key_index. destruct (NilEmpty.int_of_string k) as [d|]; [|discriminate].
  cbv zeta. destruct (Z.leb_spec 0 (Z.of_int d)); cbn [andb]; [|discriminate].
  destruct (String.eqb_spec (Z_to_string (Z.of_int d)) k); [|discriminate].
  intros [= <-]. split; [assumption|congruence].
Qed.

Lemma key_index_index_key (i : nat) : key_index (index_key i) = Some (Z.of_nat i).
Proof. apply key_index_of_Z. lia. Qed.


(** *** The totals of [reportTests] *)

Lemma add_counter_lookup (counters : gmap string Z) (k k' : string)
    (total : gmap string JsNumber) :
  add_counter counters k total !! k'
  = if decide (k = k')
    then Some (js_plus match counters !! k with
                       | Some v => js_int v
                       | None => js_NaN
                       end
                       (default (js_int 0) (total !! k)))
    else total !! k'.
Proof.
  unfold add_counter. destruct (decide (k = k')) as [->|Hne].
  - apply lookup_insert_eq.
  - apply lookup_insert_ne, Hne.
Qed.

(** The array-like iteration touches the keys of the indices below the
    length, each once, and no other key. *)
Lemma add_indices_lookup (counters : gmap string Z) (n : nat)
    (total : gmap string JsNumber) (k : string) :
  fold_left (λ total i, add_counter counters (index_key i) total) (seq 0 n) total !! k
  = match key_index k with
    | Some i =>
        if i <? Z.of_nat n
        then Some (js_plus match counters !! k with
                           | Some v => js_int v
                           | None => js_NaN
                           end
                           (default (js_int 0) (total !! k)))
        else total !! k
    | None => total !! k
    end.
Proof.
  induction n as [|n IH].
  - cbn [seq fold_left]. destruct (key_index k) as [i|] eqn:Hk; [|reflexivity].
    apply key_index_Some in Hk as [Hi _].
    destruct (Z.ltb_spec i (Z.of_nat 0)); [lia|reflexivity].
  - rewrite seq_S, fold_left_app. cbn [fold_left Nat.add].
    rewrite add_counter_lookup.
    destruct (decide (index_key n = k)) as [<-|Hne].
    + rewrite IH, key_index_index_key, Z.ltb_irrefl.
      destruct (Z.ltb_spec (Z.of_nat n) (Z.of_nat (S n))); [reflexivity|lia].
    + rewrite IH. destruct (key_index k) as [i|] eqn:Hk; [|reflexivity].
      apply key_index_Some in Hk as [Hi ->].
      assert (i ≠ Z.of_nat n) by (intros ->; apply Hne; reflexivity).
      destruct (Z.ltb_spec i (Z.of_nat n)), (Z.ltb_spec i (Z.of_nat (S n)));
        try reflexivity; lia.
Qed.

(** The iteration over the keys of an object touches each of its keys
    once, and no other key. *)
Lemma add_keys_lookup (counters : gmap string Z) (total : gmap string JsNumber)
    (k : string) :
  map_fold (λ k _ total, add_counter counters k total) total counters !! k
  = match counters !! k with
    | Some v => Some (js_plus (js_int v) (default (js_int 0) (total !! k)))
    | None => total !! k
    end.
Proof.
  enough (Hgen : ∀ k,
    map_fold (λ k _ total, add_counter counters k total) total counters !! k
    = match counters !! k with
      | Some _ => Some (js_plus match counters !! k with
                                | Some v => js_int v
                                | None => js_NaN
                                end
                                (default (js_int 0) (total !! k)))
      | None => total !! k
      end).
  { rewrite Hgen. destruct (counters !! k); reflexivity. }
  clear k.
  apply (map_fold_weak_ind
    (λ r m, ∀ k, r !! k
                 = match m !! k with
                   | Some _ => Some (js_plus match counters !! k with
                                             | Some v => js_int v
                                             | None => js_NaN
                                             end
                                             (default (js_int 0) (total !! k)))
                   | None => total !! k
                   end)).
  - intros k. rewrite lookup_empty. reflexivity.
  - intros i x m r Hfresh IH k. rewrite add_counter_lookup.
    destruct (decide (i = k)) as [->|Hne].
    + rewrite lookup_insert_eq, IH, Hfresh. reflexivity.
    + rewrite lookup_insert_ne by exact Hne. apply IH.
Qed.

Lemma array_like_length_range (counters : gmap string Z) (n : Z) :
  array_like_length counters = Some n →
  counters !! "length"%string = Some n ∧ 0 <= n <= MAX_SAFE_INTEGER.
Proof.
  unfold array_like_length. destruct (counters !! "length"%string) as [m|];
    [|discriminate].
  destruct (Z.leb_spec 0 m), (Z.leb_spec m MAX_SAFE_INTEGER); cbn [andb];
    try discriminate.
  intros [= <-]. split; [reflexivity|lia].
Qed.

(** What lines 66 to 70 do to a counter of the totals. *)
Lemma add_summary_lookup (total : gmap string JsNumber) (result : TestResult)
    (k : string) :
  add_summary total result !! k
  = match contribution k result with
    | Some c => Some (js_plus c (default (js_int 0) (total !! k)))
    | None => total !! k
    end.
Proof.
  unfold add_summary, contribution.
  destruct (summary result) as [| |counters]; [reflexivity|reflexivity|].
  destruct (array_like_length counters) as [n|] eqn:Hlength.
  - apply array_like_length_range in Hlength as [_ Hn].
    rewrite add_indices_lookup, Z2Nat.id by lia.
    destruct (key_index k) as [i|]; [|reflexivity].
    destruct (i <? n); reflexivity.
  - rewrite add_keys_lookup. destruct (counters !! k); reflexivity.
Qed.

Lemma has_counter_dec (k : string) (result : TestResult) :
  {has_counter k result} + {¬ has_counter k result}.
Proof.
  unfold has_counter. destruct (contribution k result).
  - left. eexists. reflexivity.
  - right. intros [? ?]. discriminate.
Qed.

Lemma Exists_has_counter_dec (k : string) (l : list TestResult) :
  {Exists (has_counter k) l} + {¬ Exists (has_counter k) l}.
Proof. apply Exists_dec. intros r. apply has_counter_dec. Qed.

Lemma sum_of_contributions_cons (k : string) (r : TestResult)
    (l : list TestResult) :
  sum_of_contributions k (r :: l)
  = js_plus (default (js_int 0) (contribution k r)) (sum_of_contributions k l).
Proof. reflexivity. Qed.




(** A counter that has a value keeps one: the value it has plus what the
    remaining results add. *)
Lemma fold_add_summary_present (results : list TestResult)
    (total : gmap string JsNumber) (k : string) (t : JsNumber) :
  total !! k = Some t →
  fold_left add_summary results total !! k
  = Some (js_plus t (sum_of_contributions k results)).
Proof.
  revert total t. induction results as [|result results IH]; intros total t Ht.
  - cbn. rewrite Ht, js_plus_0_r. reflexivity.
  - cbn [fold_left]. rewrite sum_of_contributions_cons.
    destruct (contribution k result) as [c|] eqn:Hc.
    + rewrite (IH _ (js_plus c t)).
      * cbn [default from_option id].
        rewrite !js_plus_assoc, (js_plus_comm c t). reflexivity.
      * rewrite add_summary_lookup, Hc, Ht. reflexivity.
    + rewrite (IH _ t) by (rewrite add_summary_lookup, Hc; exact Ht).
      cbn [default from_option id]. rewrite js_plus_0_l. reflexivity.
Qed.

(** A counter without a value gets one from the first result that adds
    to it, and has none as long as no result does. *)
Lemma fold_add_summary_absent (results : list TestResult)
    (total : gmap string JsNumber) (k : string) :
  total !! k = None →
  (Exists (has_counter k) results →
     fold_left add_summary results total !! k
     = Some (sum_of_contributions k results))
  ∧ (¬ Exists (has_counter k) results →
     fold_left add_summary results total !! k = None).
Proof.
  revert total. induction results as [|result results IH]; intros total Hnone.
  - split.
    + intros Hex. inversion Hex.
    + intros _. exact Hnone.
  - cbn [fold_left]. rewrite sum_of_contributions_cons.
    destruct (contribution k result) as [c|] eqn:Hc.
    + split.
      * intros _. rewrite (fold_add_summary_present _ _ _ c).
        -- reflexivity.
        -- rewrite add_summary_lookup, Hc, Hnone.
           cbn [default from_option id]. rewrite js_plus_0_r. reflexivity.
      * intros Hex. exfalso. apply Hex. constructor.
        unfold has_counter. rewrite Hc. eauto.
    + destruct (IH (add_summary total result)) as [IHsome IHnone].
      { rewrite add_summary_lookup, Hc. exact Hnone. }
      cbn [default from_option id]. rewrite js_plus_0_l.
      split.
      * intros Hex. apply IHsome.
        inversion Hex as [? ? Hhead|? ? Htail]; subst; [|exact Htail].
        unfold has_counter in Hhead. rewrite Hc in Hhead.
        destruct Hhead as [? ?]. discriminate.
      * intros Hex. apply IHnone. intros Hrest. apply Hex.
        constructor 2. exact Hrest.
Qed.

Lemma initial_total_summary_lookup (k : string) :
  (k ∈ ["test"; "error"; "ns"; "var"; "fail"]%string →
     initial_total_summary !! k = Some (js_int 0))
  ∧ (k ∉ ["test"; "error"; "ns"; "var"; "fail"]%string →
     initial_total_summary !! k = None).
Proof.
  split.
  - intros Hin. repeat (apply elem_of_cons in Hin as [->|Hin]; [reflexivity|]).
    inversion Hin.
  - intros Hout. unfold initial_total_summary.
    rewrite !lookup_insert_ne, lookup_empty; [reflexivity|..];
      intros <-; apply Hout; set_solver.
Qed.

(** The lookups of the totals of a list of results. *)
Lemma totals_lookup (l : list TestResult) (k : string) :
  fold_left add_summary l initial_total_summary !! k
  = if decide (k ∈ ["test"; "error"; "ns"; "var"; "fail"]%string)
    then Some (sum_of_contributions k l)
    else if Exists_has_counter_dec k l
         then Some (sum_of_contributions k l)
         else None.
Proof.
  destruct (initial_total_summary_lookup k) as [Hin Hout].
  destruct (decide _) as [Hfive|Hother].
  - rewrite (fold_add_summary_present _ _ _ (js_int 0) (Hin Hfive)), js_plus_0_l.
    reflexivity.
  - destruct (Exists_has_counter_dec k l) as [Hex|Hno].
    + apply (proj1 (fold_add_summary_absent _ _ _ (Hout Hother))), Hex.
    + apply (proj2 (fold_add_summary_absent _ _ _ (Hout Hother))), Hno.
Qed.

Lemma counter_of_totals (k : string) (l : list TestResult) :
  k ∈ ["test"; "error"; "ns"; "var"; "fail"]%string →
  counter k (fold_left add_summary l initial_total_summary)
  = sum_of_contributions k l.
Proof.
  intros Hfive. unfold counter. rewrite totals_lookup.
  destruct (decide _); [reflexivity|contradiction].
Qed.



(** *** The loops of [reportTests] *)

Lemma collect_app (l1 l2 : list (string * Assertion))
    (d : gmap string (list Diagnostic)) :
  collect (l1 ++ l2) d
  = match collect l1 d with
    | (d', None) => collect l2 d'
    | (d', Some e) => (d', Some e)
    end.
Proof.
  revert d. induction l1 as [|entry l1 IH]; intros d; [reflexivity|].
  cbn [app collect]. destruct (offence entry); [reflexivity|apply IH].
Qed.

Lemma collect_no_offence (entries : list (string * Assertion))
    (d : gmap string (list Diagnostic)) :
  Forall (λ entry, offence entry = None) entries →
  collect entries d = (fold_left collect_step entries d, None).
Proof.
  intros Hnone. revert d.
  induction Hnone as [|entry entries Hentry _ IH]; intros d; [reflexivity|].
  cbn [collect fold_left]. rewrite Hentry. apply IH.
Qed.

Lemma collect_offence (before after : list (string * Assertion))
    (entry : string * Assertion) (e : JsError)
    (d : gmap string (list Diagnostic)) :
  Forall (λ entry, offence entry = None) before →
  offence entry = Some e →
  collect (before ++ entry :: after) d = (fold_left collect_step before d, Some e).
Proof.
  intros Hnone Hentry.
  rewrite collect_app, (collect_no_offence _ _ Hnone).
  cbn [collect]. rewrite Hentry. reflexivity.
Qed.

Lemma collect_returns (entries : list (string * Assertion))
    (d : gmap string (list Diagnostic)) :
  snd (collect entries d) = None ↔ Forall (λ entry, offence entry = None) entries.
Proof.
  revert d. induction entries as [|entry entries IH]; intros d.
  - cbn. split; [constructor|reflexivity].
  - cbn [collect]. destruct (offence entry) as [e|] eqn:Hentry.
    + cbn. split; [discriminate|].
      intros Hall. inversion Hall; subst. congruence.
    + rewrite IH. split.
      * intros Hall. constructor; assumption.
      * intros Hall. inversion Hall; subst. assumption.
Qed.

(** An exception of the loops is the exception of some assertion. *)
Lemma collect_throws (entries : list (string * Assertion))
    (d : gmap string (list Diagnostic)) (e : JsError) :
  snd (collect entries d) = Some e →
  ∃ before entry after,
    entries = before ++ entry :: after
    ∧ Forall (λ entry, offence entry = None) before
    ∧ offence entry = Some e.
Proof.
  revert d. induction entries as [|entry entries IH]; intros d; [discriminate|].
  cbn [collect]. destruct (offence entry) as [e'|] eqn:Hentry.
  - cbn. intros [= <-]. exists [], entry, entries. repeat split.
    + constructor.
    + exact Hentry.
  - intros Hthrows. destruct (IH _ Hthrows) as (before & x & after & -> & Hnone & Hx).
    exists (entry :: before), x, after. repeat split.
    + constructor; assumption.
    + exact Hx.
Qed.

Lemma fail_is_no_error (v : JsVal) : js_is v "fail" = true → js_is v "error" = false.
Proof.
  destruct v as [|s|n]; cbn; try discriminate.
  intros Hfail. apply String.eqb_eq in Hfail. subst s. reflexivity.
Qed.

(** Lines 50 and 51: the range is made, as given, unless the line before
    [a.line] is negative. *)
Lemma fail_diagnostic_spec (test : string) (a : Assertion) :
  fail_diagnostic test a
  = if match assertion_line a with
       | Some n => n <=? 0
       | None => false
       end
    then Throw IllegalArgument
    else Normal (diagnostic_of (test, a)).
Proof.
  unfold fail_diagnostic, new_Range_of_numbers, line_minus_one, diagnostic_of.
  cbn [fst snd]. unfold line_minus_one.
  destruct (assertion_line a) as [n|]; cbn.
  - destruct (Z.leb_spec n 0), (Z.ltb_spec (n - 1) 0); try lia; cbn;
      [reflexivity|].
    rewrite Z.ltb_irrefl. reflexivity.
  - reflexivity.
Qed.

Lemma report_assertion_collects (log : bool) (ns test : string) (a : Assertion)
    (out : LoopState) :
  (loop_diagnostics (fst (report_assertion log ns test a out)),
   snd (report_assertion log ns test a out))
  = collect [(test, strip_assertion a)] (loop_diagnostics out)
  ∧ loop_total_summary (fst (report_assertion log ns test a out))
    = loop_total_summary out
  ∧ (log = false →
     loop_appended (fst (report_assertion log ns test a out)) = loop_appended out).
Proof.
  unfold report_assertion. cbn [collect]. unfold offence, is_fail, file_key.
  cbn [fst snd]. rewrite fail_diagnostic_spec. unfold diagnostics_push, collect_step.
  unfold is_fail, file_key. cbn [fst snd].
  destruct (js_is (assertion_type (strip_assertion a)) "fail") eqn:Hfail.
  - rewrite (fail_is_no_error _ Hfail). cbn [andb].
    destruct (match assertion_line (strip_assertion a) with
              | Some n => n <=? 0
              | None => false
              end); [repeat split|].
    destruct (bool_decide _); [repeat split|].
    cbn [mret Exc_ret].
    destruct log; cbn [fst snd loop_diagnostics loop_total_summary loop_appended].
    + split; [|split; [|discriminate]].
      * destruct (negb _); reflexivity.
      * destruct (negb _); reflexivity.
    + repeat split.
  - destruct log.
    + rewrite andb_true_r.
      destruct (js_is (assertion_type (strip_assertion a)) "error");
        cbn [fst snd]; [|repeat split].
      split; [|split; [|discriminate]].
      * destruct (negb _); reflexivity.
      * destruct (negb _); reflexivity.
    + rewrite andb_false_r. repeat split.
Qed.

Section LoopFacts.
Context {A : Type}.
Variable log : bool.
Variable body : A → LoopState → LoopState * option JsError.
Variable entries_of : A → list (string * Assertion).

Hypothesis body_collects : ∀ item out,
  (loop_diagnostics (fst (body item out)), snd (body item out))
  = collect (entries_of item) (loop_diagnostics out)
  ∧ loop_total_summary (fst (body item out)) = loop_total_summary out
  ∧ (log = false → loop_appended (fst (body item out)) = loop_appended out).

(** A loop whose body does to [diagnostics] what [collect] does on the
    assertions of an item does what [collect] does on the assertions of
    all the items, leaves the totals alone, and appends nothing when
    its body does not. *)
Lemma for_each_collects (items : list A) (out : LoopState) :
  (loop_diagnostics (fst (for_each body items out)),
   snd (for_each body items out))
  = collect (concat (map entries_of items)) (loop_diagnostics out)
  ∧ loop_total_summary (fst (for_each body items out)) = loop_total_summary out
  ∧ (log = false → loop_appended (fst (for_each body items out)) = loop_appended out).
Proof.
  revert out. induction items as [|item items IH]; intros out.
  - cbn. repeat split.
  - cbn [for_each map concat]. rewrite collect_app.
    destruct (body_collects item out) as (Hcollect & Htotal & Hsilent).
    destruct (body item out) as [out' [e|]]; cbn [fst snd] in *;
      rewrite <- Hcollect.
    + repeat split; assumption.
    + destruct (IH out') as (IHcollect & IHtotal & IHsilent).
      rewrite IHcollect, IHtotal, Htotal.
      split; [reflexivity|]. split; [reflexivity|].
      intros Hlog. rewrite IHsilent, Hsilent by exact Hlog. reflexivity.
Qed.

End LoopFacts.

Lemma concat_map_singleton {A B : Type} (f : A → B) (l : list A) :
  concat (map (λ x, [f x]) l) = map f l.
Proof. induction l as [|x l IH]; [reflexivity|]. cbn. rewrite IH. reflexivity. Qed.

Lemma report_test_collects (log : bool) (ns : string)
    (entry : string * list Assertion) (out : LoopState) :
  (loop_diagnostics (fst (report_test log ns entry out)),
   snd (report_test log ns entry out))
  = collect (assertions_of_test entry) (loop_diagnostics out)
  ∧ loop_total_summary (fst (report_test log ns entry out)) = loop_total_summary out
  ∧ (log = false →
     loop_appended (fst (report_test log ns entry out)) = loop_appended out).
Proof.
  unfold report_test, assertions_of_test.
  rewrite <- (concat_map_singleton (λ a, (fst entry, strip_assertion a))).
  apply for_each_collects. intros a out'. apply report_assertion_collects.
Qed.

Lemma report_namespace_collects (log : bool)
    (entry : string * list (string * list Assertion)) (out : LoopState) :
  (loop_diagnostics (fst (report_namespace log entry out)),
   snd (report_namespace log entry out))
  = collect (assertions_of_namespace entry) (loop_diagnostics out)
  ∧ loop_total_summary (fst (report_namespace log entry out))
    = loop_total_summary out
  ∧ (log = false →
     loop_appended (fst (report_namespace log entry out)) = loop_appended out).
Proof.
  unfold report_namespace, assertions_of_namespace.
  apply for_each_collects. intros test out'. apply report_test_collects.
Qed.

(** One turn of the loop over the results: the assertions of the result
    are collected, and when none offends the summary is added to the
    totals. *)
Lemma report_result_collects (log : bool) (result : TestResult)
    (out : LoopState) :
  (loop_diagnostics (fst (report_result log result out)),
   snd (report_result log result out))
  = collect (assertions_of_result result) (loop_diagnostics out)
  ∧ loop_total_summary (fst (report_result log result out))
    = match snd (report_result log result out) with
      | None => add_summary (loop_total_summary out) result
      | Some _ => loop_total_summary out
      end
  ∧ (log = false →
     loop_appended (fst (report_result log result out)) = loop_appended out).
Proof.
  unfold report_result, assertions_of_result.
  destruct (for_each_collects log (report_namespace log) assertions_of_namespace
              (report_namespace_collects log) (result_results result) out)
    as (Hcollect & Htotal & Hsilent).
  destruct (for_each (report_namespace log) (result_results result) out)
    as [out' [e|]]; cbn [fst snd loop_diagnostics loop_total_summary loop_appended] in *.
  - repeat split; assumption.
  - rewrite Htotal. repeat split; assumption.
Qed.

(** The loop over the results, from any state. *)
Lemma report_results_collects (log : bool) (items : list TestResult)
    (out : LoopState) :
  (loop_diagnostics (fst (for_each (report_result log) items out)),
   snd (for_each (report_result log) items out))
  = collect (concat (map assertions_of_result items)) (loop_diagnostics out)
  ∧ (snd (for_each (report_result log) items out) = None →
     loop_total_summary (fst (for_each (report_result log) items out))
     = fold_left add_summary items (loop_total_summary out))
  ∧ (log = false →
     loop_appended (fst (for_each (report_result log) items out))
     = loop_appended out).
Proof.
  revert out. induction items as [|result items IH]; intros out.
  - cbn. repeat split.
  - cbn [for_each map concat fold_left]. rewrite collect_app.
    destruct (report_result_collects log result out)
      as (Hcollect & Htotal & Hsilent).
    destruct (report_result log result out) as [out' [e|]];
      cbn [fst snd] in *; rewrite <- Hcollect.
    + split; [reflexivity|]. split; [discriminate|exact Hsilent].
    + destruct (IH out') as (IHcollect & IHtotal & IHsilent).
      rewrite IHcollect. split; [reflexivity|]. split.
      * intros Hreturns. rewrite (IHtotal Hreturns), Htotal. reflexivity.
      * intros Hlog. rewrite IHsilent, Hsilent by exact Hlog. reflexivity.
Qed.

(** The loops of [reportTests] from their initial state. *)
Lemma report_loops_collects (results : TestResults) (log : bool) :
  (loop_diagnostics (fst (report_loops results log)),
   snd (report_loops results log))
  = collect (assertions_of results) ∅
  ∧ (snd (report_loops results log) = None →
     loop_total_summary (fst (report_loops results log))
     = fold_left add_summary (result_items results) initial_total_summary)
  ∧ (log = false → loop_appended (fst (report_loops results log)) = []).
Proof.
  unfold report_loops, assertions_of.
  exact (report_results_collects log (result_items results)
           {| loop_appended := []; loop_diagnostics := ∅;
              loop_total_summary := initial_total_summary |}).
Qed.


Lemma collect_step_lookup (f : string) (d : gmap string (list Diagnostic))
    (entry : string * Assertion) :
  collect_step d entry !! f
  = if is_fail entry && String.eqb (file_key entry) f
    then Some (default [] (d !! f) ++ [diagnostic_of entry])
    else d !! f.
Proof.
  unfold collect_step. destruct (is_fail entry); cbn [andb]; [|reflexivity].
  destruct (String.eqb_spec (file_key entry) f) as [->|Hne].
  - apply lookup_insert_eq.
  - apply lookup_insert_ne, Hne.
Qed.

(** Under a file name, the assertions leave the diagnostics of the
    failing ones among them that bear the name, in their order, after
    what was there. *)
Lemma collected_lookup (f : string) (entries : list (string * Assertion))
    (d : gmap string (list Diagnostic)) :
  fold_left collect_step entries d !! f
  = match map diagnostic_of
            (List.filter (λ e, is_fail e && String.eqb (file_key e) f) entries)
    with
    | [] => d !! f
    | errs => Some (default [] (d !! f) ++ errs)
    end.
Proof.
  revert d. induction entries as [|e entries IH]; intros d; [reflexivity|].
  cbn [fold_left List.filter]. rewrite IH, collect_step_lookup.
  destruct (is_fail e && String.eqb (file_key e) f); [|reflexivity].
  cbn [map default from_option id].
  destruct (map _ (List.filter _ entries)) as [|err errs].
  - reflexivity.
  - rewrite <- app_assoc. reflexivity.
Qed.

Lemma collected_empty (entries : list (string * Assertion))
    (d : gmap string (list Diagnostic)) :
  fold_left collect_step entries d = ∅
  ↔ d = ∅ ∧ List.filter is_fail entries = [].
Proof.
  revert d. induction entries as [|e entries IH]; intros d; [cbn; tauto|].
  cbn [fold_left List.filter]. rewrite IH. unfold collect_step.
  destruct (is_fail e).
  - split; [|intros [_ ?]; discriminate].
    intros [Hpush _]. exfalso. exact (insert_non_empty _ _ _ Hpush).
  - tauto.
Qed.

(** The two ways in which [reportTests] gives the diagnostics to the
    editor divide the object [diagnostics] by the first character of the
    file name. *)
Lemma filter_by_slash_lookup (d : gmap string (list Diagnostic)) (f : string) :
  filter (λ entry, startsWith (fst entry) "/" = true) d !! f
  = (if startsWith f "/" then d !! f else None)
  ∧ filter (λ entry, startsWith (fst entry) "/" = false) d !! f
    = (if startsWith f "/" then None else d !! f).
Proof.
  rewrite !map_lookup_filter. cbn [fst].
  destruct (d !! f) as [errs|]; cbn [mbind option_bind];
    [|destruct (startsWith f "/"); split; reflexivity].
  destruct (startsWith f "/"); split;
    first [rewrite option_guard_True by reflexivity
          |rewrite option_guard_False by discriminate];
    reflexivity.
Qed.

Lemma filter_by_slash_empty (d : gmap string (list Diagnostic)) :
  filter (λ entry, startsWith (fst entry) "/" = true) d = ∅
  ∧ filter (λ entry, startsWith (fst entry) "/" = false) d = ∅
  ↔ d = ∅.
Proof.
  split.
  - intros [Hset Hfind]. apply map_empty. intros f.
    pose proof (filter_by_slash_lookup d f) as [Hs Hf].
    rewrite Hset, lookup_empty in Hs. rewrite Hfind, lookup_empty in Hf.
    destruct (startsWith f "/"); congruence.
  - intros ->. split; apply map_filter_empty.
Qed.

(** How a call of [reportTests] on results without [err] and [ex] ends. *)
Lemma reportTests_ends (results : TestResults) (errorStr : string) (log : bool) :
  truthy_string (err results) || truthy_string (ex results) = false →
  let report := reportTests results errorStr log in
  let collected := collect (assertions_of results) ∅ in
  let total := fold_left add_summary (result_items results) initial_total_summary in
  let hasProblems :=
    js_positive (js_plus (counter "error" total) (counter "fail" total)) in
  let publishes := js_positive (counter "test" total) && hasProblems in
  report_thrown report = snd collected
  ∧ collected_diagnostics results log = fst collected
  ∧ report_logged report = []
  ∧ (log = false → report_appended report = [])
  ∧ (snd collected = None →
     report_total_summary report = total
     ∧ (log = true →
        last (report_appended report) = Some (summary_line total hasProblems))
     ∧ report_set report
       = (if publishes
          then filter (λ entry, startsWith (fst entry) "/" = true) (fst collected)
          else ∅)
     ∧ report_findFiles report
       = (if publishes
          then filter (λ entry, startsWith (fst entry) "/" = false) (fst collected)
          else ∅))
  ∧ (snd collected ≠ None →
     report_set report = ∅ ∧ report_findFiles report = ∅).
Proof.
  intros Herr. cbv zeta. unfold reportTests, collected_diagnostics.
  rewrite Herr.
  destruct (report_loops_collects results log) as (Hcollect & Htotal & Hsilent).
  destruct (report_loops results log) as [out [e|]];
    cbn [fst snd] in *; rewrite <- Hcollect;
    cbn [fst snd report_thrown report_logged report_appended report_set
         report_findFiles report_total_summary].
  - split; [reflexivity|]. split; [reflexivity|]. split; [reflexivity|].
    split; [exact Hsilent|]. split; [discriminate|].
    intros _. split; reflexivity.
  - rewrite (Htotal eq_refl).
    split; [reflexivity|]. split; [reflexivity|]. split; [reflexivity|].
    split; [intros ->; apply Hsilent; reflexivity|].
    split; [|intros Hthrown; contradiction].
    intros _. split; [reflexivity|]. split; [|split; reflexivity].
    intros ->. apply last_snoc.
Qed.

(** With [err] or [ex] the call logs one error and does nothing else. *)
Lemma reportTests_err (results : TestResults) (errorStr : string) (log : bool) :
  truthy_string (err results) || truthy_string (ex results) = true →
  reportTests results errorStr log
  = {| report_logged :=
         ["Error " +:+ errorStr +:+ ":"
          +:+ match err results with
              | Some s => s
              | None => "undefined"
              end];
       report_appended := [];
       report_set := ∅;
       report_findFiles := ∅;
       report_total_summary := initial_total_summary;
       report_thrown := None |}.
Proof. intros Herr. unfold reportTests. rewrite Herr. reflexivity. Qed.

(** The total summary that a call returns with. *)
Lemma returned_total_spec (results : TestResults) (errorStr : string)
    (log : bool) :
  returned_total (reportTests results errorStr log)
  = if truthy_string (err results) || truthy_string (ex results)
    then Some initial_total_summary
    else match snd (collect (assertions_of results) ∅) with
         | None =>
             Some (fold_left add_summary (result_items results)
                     initial_total_summary)
         | Some _ => None
         end.
Proof.
  destruct (truthy_string (err results) || truthy_string (ex results)) eqn:Herr.
  - rewrite (reportTests_err _ _ _ Herr). reflexivity.
  - destruct (reportTests_ends results errorStr log Herr)
      as (Hthrown & _ & _ & _ & Hreturns & _).
    unfold returned_total. rewrite Hthrown.
    destruct (snd (collect (assertions_of results) ∅)); [reflexivity|].
    rewrite (proj1 (Hreturns eq_refl)). reflexivity.
Qed.




(** *** The totals of several results *)







(** *** The diagnostics of [reportTests] *)

(** X12.  On results without [err] and [ex], the loops of [reportTests]
    go through the assertions in order.  An assertion of type 'fail'
    whose line is 0 or less makes the call throw the editor's error for
    an illegal argument, and one whose file bears the name of a member of
    [Object.prototype] makes it throw a TypeError; the call then gives no
    diagnostics to the editor, and [diagnostics] holds what the
    assertions before that one left.  When no assertion does so, the call
    returns and [diagnostics] holds, under each file name, the
    diagnostics of the failing assertions of that file in the order of
    the loops, and no other key: one diagnostic for every assertion of
    type 'fail', an error from column 0 to column 1000 of the line before
    [a.line], and none for an assertion of any other type. *)
Theorem reportTests_collects_failures (results : TestResults)
    (errorStr : string) (log : bool) :
  truthy_string (err results) || truthy_string (ex results) = false →
  (Forall (λ entry, offence entry = None) (assertions_of results) →
     report_thrown (reportTests results errorStr log) = None
     ∧ ∀ f,
         collected_diagnostics results log !! f
         = match List.filter (λ e, is_fail e && String.eqb (file_key e) f)
                   (assertions_of results)
           with
           | [] => None
           | failing => Some (map diagnostic_of failing)
           end)
  ∧ (∀ before entry after e,
       assertions_of results = before ++ entry :: after →
       Forall (λ entry, offence entry = None) before →
       offence entry = Some e →
       report_thrown (reportTests results errorStr log) = Some e
       ∧ report_set (reportTests results errorStr log) = ∅
       ∧ report_findFiles (reportTests results errorStr log) = ∅
       ∧ collected_diagnostics results log = fold_left collect_step before ∅)
  ∧ (∀ e, report_thrown (reportTests results errorStr log) = Some e →
       ∃ before entry after,
         assertions_of results = before ++ entry :: after
         ∧ Forall (λ entry, offence entry = None) before
         ∧ offence entry = Some e).
Proof.
  intros Herr.
  destruct (reportTests_ends results errorStr log Herr)
    as (Hthrown & Hcollected & _ & _ & _ & Hempty).
  rewrite Hthrown, Hcollected. split; [|split].
  - intros Hnone. rewrite (collect_no_offence _ _ Hnone). cbn [fst snd].
    split; [reflexivity|].
    intros f. rewrite collected_lookup, lookup_empty.
    destruct (List.filter _ _); reflexivity.
  - intros before entry after e Hsplit Hnone Hentry.
    assert (Hcollect : collect (assertions_of results) ∅
                       = (fold_left collect_step before ∅, Some e))
      by (rewrite Hsplit; apply collect_offence; assumption).
    rewrite Hcollect in Hempty |- *. cbn [fst snd] in *.
    destruct (Hempty ltac:(discriminate)) as [Hset Hfind].
    repeat split; assumption.
  - intros e. apply collect_throws.
Qed.

Lemma reportTests_collects_failures_witness :
  (Forall (λ entry, offence entry = None) (assertions_of demo_run)
   ∧ report_thrown (reportTests demo_run "Running tests" true) = None
   ∧ collected_diagnostics demo_run true !! "/src/core_test.clj"%string
     = Some [ {| diagnostic_range :=
                   {| startLine := js_int 11; startCharacter := js_int 0;
                      endLine := js_int 11; endCharacter := js_int 1000 |};
                 diagnostic_message :=
                   "failure in test: adds context: false, expected 3, got: 4";
                 diagnostic_severity := Severity_Error |} ])
  ∧ (offence ("adds"%string, demo_failure_at (Some 0) "/src/core_test.clj")
     = Some IllegalArgument
     ∧ report_thrown
         (reportTests (demo_run_of (demo_failure_at (Some 0) "/src/core_test.clj"))
            "Running tests" true)
       = Some IllegalArgument)
  ∧ (offence ("adds"%string, demo_failure_at (Some 3) "constructor")
     = Some TypeError
     ∧ report_thrown
         (reportTests (demo_run_of (demo_failure_at (Some 3) "constructor"))
            "Running tests" true)
       = Some TypeError).
Proof.
  assert (Hnone : Forall (λ entry, offence entry = None) (assertions_of demo_run))
    by (repeat constructor).
  split; [|split].
  - split; [exact Hnone|].
    destruct (proj1 (reportTests_collects_failures demo_run "Running tests" true
                       eq_refl) Hnone) as [Hreturns Hlookup].
    split; [exact Hreturns|].
    exact (Hlookup "/src/core_test.clj"%string).
  - split; [reflexivity|].
    exact (proj1 (proj1 (proj2 (reportTests_collects_failures
      (demo_run_of (demo_failure_at (Some 0) "/src/core_test.clj"))
      "Running tests" true eq_refl))
      [] ("adds"%string, demo_failure_at (Some 0) "/src/core_test.clj") [] _
      eq_refl (Forall_nil_2 _) eq_refl)).
  - split; [reflexivity|].
    exact (proj1 (proj1 (proj2 (reportTests_collects_failures
      (demo_run_of (demo_failure_at (Some 3) "constructor"))
      "Running tests" true eq_refl))
      [] ("adds"%string, demo_failure_at (Some 3) "constructor") [] _
      eq_refl (Forall_nil_2 _) eq_refl)).
Defined.

(** X13.  The argument [log] of [reportTests] decides about the output
    and about nothing else: with [log] off nothing is appended to the
    output window, and what is logged as an error, what is given to the
    editor as diagnostics, how the call ends and the totals are the same
    as with [log] on. *)
Theorem reportTests_log_decides_output_only (results : TestResults)
    (errorStr : string) :
  report_appended (reportTests results errorStr false) = []
  ∧ report_set (reportTests results errorStr false)
    = report_set (reportTests results errorStr true)
  ∧ report_findFiles (reportTests results errorStr false)
    = report_findFiles (reportTests results errorStr true)
  ∧ report_logged (reportTests results errorStr false)
    = report_logged (reportTests results errorStr true)
  ∧ report_thrown (reportTests results errorStr false)
    = report_thrown (reportTests results errorStr true)
  ∧ returned_total (reportTests results errorStr false)
    = returned_total (reportTests results errorStr true)
  ∧ collected_diagnostics results false = collected_diagnostics results true.
Proof.
  assert (Htotal : returned_total (reportTests results errorStr false)
                   = returned_total (reportTests results errorStr true))
    by (rewrite !returned_total_spec; reflexivity).
  destruct (truthy_string (err results) || truthy_string (ex results)) eqn:Herr.
  - rewrite !(reportTests_err _ _ _ Herr).
    cbn [report_appended report_set report_findFiles report_logged report_thrown].
    repeat (split; [reflexivity|]).
    unfold collected_diagnostics.
    rewrite (f_equal fst (proj1 (report_loops_collects results false))
             : loop_diagnostics (fst (report_loops results false)) = _).
    rewrite (f_equal fst (proj1 (report_loops_collects results true))
             : loop_diagnostics (fst (report_loops results true)) = _).
    reflexivity.
  - destruct (reportTests_ends results errorStr false Herr)
      as (Hthrown & Hcollected & Hlogged & Hsilent & Hreturns & Hthrows).
    destruct (reportTests_ends results errorStr true Herr)
      as (Hthrown' & Hcollected' & Hlogged' & _ & Hreturns' & Hthrows').
    rewrite Hthrown, Hthrown', Hcollected, Hcollected', Hlogged, Hlogged'.
    split; [apply Hsilent; reflexivity|].
    destruct (snd (collect (assertions_of results) ∅)) as [e|] eqn:Hends.
    + destruct (Hthrows ltac:(discriminate)) as [-> ->].
      destruct (Hthrows' ltac:(discriminate)) as [-> ->].
      repeat split. exact Htotal.
    + destruct (Hreturns eq_refl) as (_ & _ & -> & ->).
      destruct (Hreturns' eq_refl) as (_ & _ & -> & ->).
      repeat split. exact Htotal.
Qed.

Lemma five_named (k : string) :
  k = "test"%string ∨ k = "error"%string ∨ k = "fail"%string →
  k ∈ ["test"; "error"; "ns"; "var"; "fail"]%string.
Proof. intros [-> | [-> | ->] ]; set_solver. Qed.

(** X14.  [reportTests] gives diagnostics to the editor exactly when
    [results] has neither [err] nor [ex], no assertion makes the call
    throw, the summaries count at least one test and at least one error
    or failure, and some assertion has the type 'fail'.  It then gives
    every entry of [diagnostics]: it sets the entry of a file whose name
    starts with '/' under the file itself, and begins a search for any
    other name.  So a failing assertion gives no diagnostic when the
    summaries count no test or no problem.  With [err] or [ex] the call
    logs one error, appends nothing, gives no diagnostics and returns. *)
Theorem reportTests_publishes_iff (results : TestResults) (errorStr : string)
    (log : bool) :
  let total k := sum_of_contributions k (result_items results) in
  let report := reportTests results errorStr log in
  (report_set report ≠ ∅ ∨ report_findFiles report ≠ ∅
   ↔ truthy_string (err results) || truthy_string (ex results) = false
     ∧ Forall (λ entry, offence entry = None) (assertions_of results)
     ∧ js_positive (total "test"%string) = true
     ∧ js_positive (js_plus (total "error"%string) (total "fail"%string)) = true
     ∧ List.filter is_fail (assertions_of results) ≠ [])
  ∧ (report_set report ≠ ∅ ∨ report_findFiles report ≠ ∅ →
     ∀ f,
       report_set report !! f
       = (if startsWith f "/" then collected_diagnostics results log !! f
          else None)
       ∧ report_findFiles report !! f
         = (if startsWith f "/" then None
            else collected_diagnostics results log !! f))
  ∧ (truthy_string (err results) || truthy_string (ex results) = true →
     report_set report = ∅
     ∧ report_findFiles report = ∅
     ∧ report_appended report = []
     ∧ length (report_logged report) = 1%nat
     ∧ report_thrown report = None).
Proof.
  intros total report. subst report.
  destruct (truthy_string (err results) || truthy_string (ex results)) eqn:Herr.
  - rewrite (reportTests_err _ _ _ Herr).
    cbn [report_set report_findFiles report_appended report_logged report_thrown].
    split; [|split].
    + split; [intros [H|H]; contradiction|intros [H _]; discriminate].
    + intros [H|H]; contradiction.
    + intros _. repeat split.
  - destruct (reportTests_ends results errorStr log Herr)
      as (_ & Hcollected & _ & _ & Hreturns & Hthrows).
    rewrite Hcollected.
    rewrite !counter_of_totals in Hreturns by (apply five_named; tauto).
    fold (total "test"%string) (total "error"%string) (total "fail"%string)
      in Hreturns.
    split; [|split; [|discriminate]].
    + destruct (snd (collect (assertions_of results) ∅)) as [e|] eqn:Hends.
      * destruct (Hthrows ltac:(discriminate)) as [-> ->].
        split; [intros [H|H]; contradiction|].
        intros (_ & Hnone & _). apply (collect_returns _ ∅) in Hnone.
        congruence.
      * destruct (Hreturns eq_refl) as (_ & _ & -> & ->).
        pose proof (proj1 (collect_returns _ ∅) Hends) as Hnone.
        rewrite (collect_no_offence _ _ Hnone). cbn [fst].
        destruct (js_positive (total "test"%string));
          [|split; [intros [H|H]; contradiction|intros (_ & _ & H & _); discriminate]].
        destruct (js_positive (js_plus (total "error"%string) (total "fail"%string)));
          [|split; [intros [H|H]; contradiction
                   |intros (_ & _ & _ & H & _); discriminate]].
        cbn [andb].
        pose proof (filter_by_slash_empty
                      (fold_left collect_step (assertions_of results) ∅))
          as Hfilters.
        rewrite collected_empty in Hfilters.
        split.
        -- intros Hpublished. repeat (split; [assumption || reflexivity|]).
           intros Hnofail.
           destruct (proj2 Hfilters (conj eq_refl Hnofail)) as [Hset Hfind].
           destruct Hpublished; contradiction.
        -- intros (_ & _ & _ & _ & Hfail).
           destruct (decide (filter (λ entry, startsWith (fst entry) "/" = true)
                               (fold_left collect_step (assertions_of results) ∅)
                             = ∅)) as [Hset|Hset]; [|left; exact Hset].
           right. intros Hfind. apply Hfail.
           exact (proj2 (proj1 Hfilters (conj Hset Hfind))).
    + intros Hpublished f.
      destruct (snd (collect (assertions_of results) ∅)) as [e|] eqn:Hends.
      * destruct (Hthrows ltac:(discriminate)) as [Hset Hfind].
        rewrite Hset, Hfind in Hpublished.
        destruct Hpublished; contradiction.
      * destruct (Hreturns eq_refl) as (_ & _ & Hset & Hfind).
        rewrite Hset, Hfind in Hpublished |- *.
        destruct (js_positive (total "test"%string)
                  && js_positive (js_plus (total "error"%string)
                                          (total "fail"%string)));
          [apply filter_by_slash_lookup|destruct Hpublished; contradiction].
Qed.

Lemma reportTests_publishes_iff_witness :
  (truthy_string (err demo_run) || truthy_string (ex demo_run) = false
   ∧ Forall (λ entry, offence entry = None) (assertions_of demo_run)
   ∧ js_positive (sum_of_contributions "test" (result_items demo_run)) = true
   ∧ js_positive (js_plus (sum_of_contributions "error" (result_items demo_run))
                          (sum_of_contributions "fail" (result_items demo_run)))
     = true
   ∧ List.filter is_fail (assertions_of demo_run) ≠ [])
  ∧ (report_set (reportTests demo_run "Running tests" true) ≠ ∅
     ∨ report_findFiles (reportTests demo_run "Running tests" true) ≠ ∅).
Proof.
  assert (Hcond :
    truthy_string (err demo_run) || truthy_string (ex demo_run) = false
    ∧ Forall (λ entry, offence entry = None) (assertions_of demo_run)
    ∧ js_positive (sum_of_contributions "test" (result_items demo_run)) = true
    ∧ js_positive (js_plus (sum_of_contributions "error" (result_items demo_run))
                           (sum_of_contributions "fail" (result_items demo_run)))
      = true
    ∧ List.filter is_fail (assertions_of demo_run) ≠ []).
  { split; [reflexivity|]. split; [repeat constructor|].
    split; [reflexivity|]. split; [reflexivity|]. discriminate. }
  split; [exact Hcond|].
  exact (proj2 (proj1 (reportTests_publishes_iff demo_run "Running tests" true))
           Hcond).
Defined.
